(** * Payroll dashboard (Dashboard.py): data cleaning, filtering, aggregation

    A shallow embedding of [src/Dashboard.py].  The script is glue code over
    pandas and Streamlit, so the embedding has two layers:

    - the Python and pandas primitives the script calls ([re.sub],
      [str.strip], [float()], [repr], [format], [Series.fillna],
      [Series.isin], [Series.sum], [groupby], ...), each modelled on the
      values the script can hand to it;
    - the script itself: [clean_money_optimized], [load_data_optimized], the
      filter [df_filtered], the aggregations and the page that is rendered.

    Data.  A Python [str] is the list of its Unicode code points.  A float64
    is an IEEE binary64 value ([spec_float] at precision 53, rounding to
    nearest even), NaN being pandas' missing marker.  An int64 is a [Z]
    wrapped to 64 bits.  A column carries its dtype (int64, float64 or
    object), a table is the list of its labelled columns.

    Effects.  Exceptions are values of [exn] carried by the [result] monad.
    What Streamlit is asked to show is a list of [element]s, written by the
    [UI] monad; the table [pd.read_csv] returns, or the exception it raises,
    is an argument of the loader.

    Left open or outside the model.
    - The reading of numbers out of text inside [pandas.to_numeric] is a
      parameter of the loader ([floatify]).
    - [float()] is modelled on ASCII digits; the decimal digits of other
      scripts, which CPython also accepts, are rejected.
    - Sums of floats accumulate in row order; numpy's pairwise and pandas'
      compensated summation are not modelled.  They give the same result
      whenever the additions are exact.
    - [sort_values] is stable here; pandas leaves the order of equal values
      open.
    - Arithmetic on the objects of an object column stands as a [TypeError].
    - [st.cache_data], [st.set_page_config] and the column layout are left
      out; a plotly figure is recorded with the data handed to it. *)

From Stdlib Require Import ZArith NArith List Bool String Ascii Lia QArith.
From Stdlib Require Import SpecFloat.
From Stdlib Require DecimalPos DecimalN.
From Stdlib Require Import Permutation.
Import ListNotations.

Local Open Scope Z_scope.

(** ** Python strings *)

Module PyStr.

(** A character is its code point, a string the list of its characters. *)
Abbreviation char := N (only parsing).
Abbreviation pystr := (list N) (only parsing).

Fixpoint eqb (a b : pystr) : bool :=
  match a, b with
  | [], [] => true
  | x :: a', y :: b' => N.eqb x y && eqb a' b'
  | _, _ => false
  end.

(** Decoder used to write literals: the UTF-8 bytes of a Rocq string, as code
    points. *)
Fixpoint utf8_decode (bs : list N) : pystr :=
  let cont b := N.land b 63 in
  match bs with
  | [] => []
  | b :: rest =>
      if (b <? 128)%N then b :: utf8_decode rest
      else if (b <? 224)%N then
        match rest with
        | b1 :: r1 => (N.shiftl (N.land b 31) 6 + cont b1)%N :: utf8_decode r1
        | _ => [b]
        end
      else if (b <? 240)%N then
        match rest with
        | b1 :: b2 :: r2 =>
            (N.shiftl (N.land b 15) 12 + N.shiftl (cont b1) 6 + cont b2)%N
              :: utf8_decode r2
        | _ => [b]
        end
      else
        match rest with
        | b1 :: b2 :: b3 :: r3 =>
            (N.shiftl (N.land b 7) 18 + N.shiftl (cont b1) 12
             + N.shiftl (cont b2) 6 + cont b3)%N :: utf8_decode r3
        | _ => [b]
        end
  end.

Definition u (s : string) : pystr :=
  utf8_decode (map (fun a => N_of_ascii a) (list_ascii_of_string s)).

(** [Py_UNICODE_ISSPACE]: the characters [str.strip()] removes. *)
Definition is_space (c : char) : bool :=
  ((9 <=? c) && (c <=? 13) || (28 <=? c) && (c <=? 32)
   || (c =? 133) || (c =? 160) || (c =? 5760)
   || (8192 <=? c) && (c <=? 8202)
   || (c =? 8232) || (c =? 8233) || (c =? 8239) || (c =? 8287)
   || (c =? 12288))%N.

Fixpoint lstrip_by (sp : char -> bool) (s : pystr) : pystr :=
  match s with
  | c :: r => if sp c then lstrip_by sp r else s
  | [] => []
  end.

Definition rstrip_by (sp : char -> bool) (s : pystr) : pystr :=
  rev (lstrip_by sp (rev s)).

Definition strip_by (sp : char -> bool) (s : pystr) : pystr :=
  rstrip_by sp (lstrip_by sp s).

(** [s.strip()] *)
Definition strip : pystr -> pystr := strip_by is_space.

(** [re.sub(r'[$,]', '', s)]: every '$' (36) and ',' (44) is deleted. *)
Definition in_class_dollar_comma (c : char) : bool := ((c =? 36) || (c =? 44))%N.

Definition remove_dollar_comma (s : pystr) : pystr :=
  filter (fun c => negb (in_class_dollar_comma c)) s.

Definition is_digit (c : char) : bool := ((48 <=? c) && (c <=? 57))%N.

Definition digit_val (c : char) : Z := Z.of_N c - 48.

(** ASCII lower-casing, as in CPython's [case_insensitive_match]. *)
Definition lower (c : char) : char :=
  if ((65 <=? c) && (c <=? 90))%N then (c + 32)%N else c.

(** Decimal text of an integer, [str(int)]. *)
Fixpoint uint_chars (d : Decimal.uint) : pystr :=
  match d with
  | Decimal.Nil => []
  | Decimal.D0 r => 48%N :: uint_chars r
  | Decimal.D1 r => 49%N :: uint_chars r
  | Decimal.D2 r => 50%N :: uint_chars r
  | Decimal.D3 r => 51%N :: uint_chars r
  | Decimal.D4 r => 52%N :: uint_chars r
  | Decimal.D5 r => 53%N :: uint_chars r
  | Decimal.D6 r => 54%N :: uint_chars r
  | Decimal.D7 r => 55%N :: uint_chars r
  | Decimal.D8 r => 56%N :: uint_chars r
  | Decimal.D9 r => 57%N :: uint_chars r
  end.

Definition nat_digits (n : N) : pystr := uint_chars (N.to_uint n).

Definition str_of_int (z : Z) : pystr :=
  match z with
  | Zneg p => 45%N :: nat_digits (Npos p)
  | _ => nat_digits (Z.to_N z)
  end.

End PyStr.
Import PyStr.

(** ** IEEE binary64 *)

Module F64.

Definition float64 := spec_float.

Definition prec : Z := 53.
Definition emax : Z := 1024.

Definition nan : float64 := S754_nan.
Definition zero : float64 := S754_zero false.

Definition add : float64 -> float64 -> float64 := SFadd prec emax.
Definition mul : float64 -> float64 -> float64 := SFmul prec emax.
Definition div : float64 -> float64 -> float64 := SFdiv prec emax.

(** Conversion of an integer, rounded to nearest even. *)
Definition of_Z (z : Z) : float64 := binary_normalize prec emax z 0 false.

Definition one : float64 := of_Z 1.

(** The binary64 nearest to the exact quotient [n / d] (ties to even). *)
Definition of_ratio (neg : bool) (n d : positive) : float64 :=
  let '(mz, ez, lz) := SFdiv_core_binary prec emax (Zpos n) 0 (Zpos d) 0 in
  binary_round_aux prec emax neg mz ez lz.

Definition is_nan (x : float64) : bool :=
  match x with S754_nan => true | _ => false end.

(** The IEEE comparison [==]: NaN differs from everything, 0.0 == -0.0. *)
Definition eqb : float64 -> float64 -> bool := SFeqb.
Definition ltb : float64 -> float64 -> bool := SFltb.

(** Equality as pandas' hash tables see it ([isin], [unique], group keys):
    the IEEE comparison, and NaN equal to NaN. *)
Definition same (x y : float64) : bool := eqb x y || (is_nan x && is_nan y).

(** Exact value of a finite float. *)
Definition to_Q (x : float64) : option Q :=
  match x with
  | S754_zero _ => Some 0%Q
  | S754_finite s m e =>
      let n := if s then Zneg m else Zpos m in
      Some (match e with
            | Zneg k => Qmake n (2 ^ k)%positive
            | _ => Qmake (n * 2 ^ e) 1
            end)
  | _ => None
  end.

(** The integer nearest to [m * 2^e], ties to even. *)
Definition round_half_even (m : positive) (e : Z) : Z :=
  match e with
  | Zneg k =>
      let d := 2 ^ Zpos k in
      let q := Zpos m / d in
      let r := Zpos m mod d in
      match 2 * r ?= d with
      | Lt => q
      | Gt => q + 1
      | Eq => if Z.even q then q else q + 1
      end
  | _ => Zpos m * 2 ^ e
  end.

(** [numpy.rint] *)
Definition rint (x : float64) : float64 :=
  match x with
  | S754_finite s m e =>
      let z := round_half_even m e in
      binary_normalize prec emax (if s then - z else z) 0 s
  | _ => x
  end.

End F64.
Import F64.

(** ** The built-in [float(str)] *)

Module PyFloat.

Fixpoint span_digits (s : pystr) : pystr * pystr :=
  match s with
  | c :: r =>
      if is_digit c then let (ds, rest) := span_digits r in (c :: ds, rest)
      else ([], s)
  | [] => ([], [])
  end.

Definition digits_val (ds : pystr) : Z :=
  fold_left (fun acc c => 10 * acc + digit_val c) ds 0.

Definition parse_sign (s : pystr) : bool * pystr :=
  match s with
  | c :: r =>
      if (c =? 45)%N then (true, r)
      else if (c =? 43)%N then (false, r)
      else (false, s)
  | [] => (false, [])
  end.

(** The correctly rounded value of [m * 10^e10]; [nd] bounds the number of
    decimal digits of [m].  Magnitudes from 10^311 up round to infinity and
    those below 10^-330 to zero, so the powers computed stay small. *)
Definition of_decimal (neg : bool) (m e10 nd : Z) : float64 :=
  match m with
  | Zpos p =>
      if 310 <? e10 then S754_infinity neg
      else if e10 + nd <? -330 then S754_zero neg
      else if 0 <=? e10 then binary_round prec emax neg (Pos.mul p (Z.to_pos (10 ^ e10))) 0
      else of_ratio neg p (Z.to_pos (10 ^ (- e10)))
  | _ => S754_zero neg
  end.

Definition is_exp_mark (c : char) : bool := ((c =? 101) || (c =? 69))%N.

(** The fraction: a point and the digits after it, if any. *)
Definition parse_fraction (s : pystr) : pystr * pystr :=
  match s with
  | c :: r => if (c =? 46)%N then span_digits r else ([], s)
  | [] => ([], [])
  end.

(** The exponent: a mark, a sign if any, and at least one digit; a mark
    that no digit follows is not part of the number. *)
Definition parse_exponent (s : pystr) : Z * pystr :=
  match s with
  | c :: r =>
      if is_exp_mark c then
        let (eneg, r1) := parse_sign r in
        let (ed, r2) := span_digits r1 in
        match ed with
        | [] => (0, s)
        | _ => ((if eneg then - digits_val ed else digits_val ed), r2)
        end
      else (0, s)
  | [] => (0, [])
  end.

(** [_Py_dg_strtod]: the longest prefix [sign? digits? (. digits?)? exponent?]
    holding at least one mantissa digit, with its value and the text left
    over; [None] when there is no such prefix. *)
Definition strtod (s : pystr) : option (float64 * pystr) :=
  let (neg, s1) := parse_sign s in
  let (ip, s2) := span_digits s1 in
  let (fp, s3) := parse_fraction s2 in
  let mant := ip ++ fp in
  match mant with
  | [] => None
  | _ =>
      let (e, rest) := parse_exponent s3 in
      Some (of_decimal neg (digits_val mant) (e - Z.of_nat (List.length fp))
              (Z.of_nat (List.length mant)),
            rest)
  end.

(** [case_insensitive_match]: [t] is lower case; the text after the match. *)
Fixpoint match_nocase (t s : pystr) : option pystr :=
  match t with
  | [] => Some s
  | a :: t' =>
      match s with
      | c :: s' => if (lower c =? a)%N then match_nocase t' s' else None
      | [] => None
      end
  end.

(** [_Py_parse_inf_or_nan] *)
Definition parse_inf_or_nan (s : pystr) : option (float64 * pystr) :=
  let (neg, s1) := parse_sign s in
  match match_nocase (u "inf") s1 with
  | Some r =>
      match match_nocase (u "inity") r with
      | Some r' => Some (S754_infinity neg, r')
      | None => Some (S754_infinity neg, r)
      end
  | None =>
      match match_nocase (u "nan") s1 with
      | Some r => Some (nan, r)
      | None => None
      end
  end.

(** [_PyOS_ascii_strtod] *)
Definition ascii_strtod (s : pystr) : option (float64 * pystr) :=
  match strtod s with
  | Some r => Some r
  | None => parse_inf_or_nan s
  end.

(** [Py_ISSPACE]: the white space [float()] itself skips. *)
Definition is_c_space (c : char) : bool :=
  ((9 <=? c) && (c <=? 13) || (c =? 32))%N.

(** [float_from_string_inner] *)
Definition float_from_string_inner (s : pystr) : option float64 :=
  match strip_by is_c_space s with
  | [] => None
  | body =>
      match ascii_strtod body with
      | Some (x, []) => Some x
      | _ => None
      end
  end.

(** [_Py_string_to_number_with_underscores]: an underscore is accepted only
    between two digits, and is then dropped. *)
Fixpoint drop_underscores (prev : char) (s : pystr) : option pystr :=
  match s with
  | [] => if (prev =? 95)%N then None else Some []
  | c :: r =>
      if (c =? 95)%N then
        if is_digit prev then drop_underscores c r else None
      else if (prev =? 95)%N && negb (is_digit c) then None
      else option_map (cons c) (drop_underscores c r)
  end.

Definition with_underscores (s : pystr) : option float64 :=
  if existsb (N.eqb 95) s then
    match drop_underscores 0%N s with
    | Some t => float_from_string_inner t
    | None => None
    end
  else float_from_string_inner s.

(** [_PyUnicode_TransformDecimalAndSpaceToASCII]: an ASCII string is kept; in
    any other, white space beyond ASCII becomes a blank and the text is cut
    at the first other character from 127 up, which becomes '?'.  (CPython
    also maps the decimal digits of other scripts to 0-9; those are not
    modelled and are rejected here.) *)
Fixpoint to_ascii (s : pystr) : pystr :=
  match s with
  | [] => []
  | c :: r =>
      if (c <? 127)%N then c :: to_ascii r
      else if is_space c then 32%N :: to_ascii r
      else [63%N]
  end.

Definition transform (s : pystr) : pystr :=
  if forallb (fun c => (c <? 128)%N) s then s else to_ascii s.

(** [float(s)] for a [str]: [None] stands for the [ValueError]. *)
Definition py_float (s : pystr) : option float64 :=
  with_underscores (transform s).

(** *** [repr(float)]: the shortest text that reads back as the float *)

(** A positive finite float as an exact fraction. *)
Definition fraction (m : positive) (e : Z) : Z * Z :=
  match e with
  | Zneg k => (Zpos m, 2 ^ Zpos k)
  | _ => (Zpos m * 2 ^ e, 1)
  end.

Definition ndigits10 (z : Z) : Z := Z.of_nat (List.length (nat_digits (Z.to_N z))).

(** The decimal exponent [k] with [10^k <= n/d < 10^(k+1)]. *)
Definition floor_log10 (n d : Z) : Z :=
  let k := ndigits10 n - ndigits10 d in
  let fits := if 0 <=? k then d * 10 ^ k <=? n else d <=? n * 10 ^ (- k) in
  if fits then k else k - 1.

(** The decimal [c * 10^ex] reads back as [x]. *)
Definition reads_back (x : float64) (c ex : Z) : bool :=
  match SFcompare (of_decimal false c ex (ndigits10 c)) x with
  | Some Eq => true
  | _ => false
  end.

(** With [nd] significant digits: the neighbour of [n/d] that reads back as
    [x], the nearer one if both do (the even one on a tie). *)
Definition shortest_at (x : float64) (n d k : Z) (nd : Z) : option (Z * Z) :=
  let ex := k - nd + 1 in
  let num := if 0 <=? ex then n else n * 10 ^ (- ex) in
  let den := if 0 <=? ex then d * 10 ^ ex else d in
  let lo := num / den in
  let r := num mod den in
  let hi := lo + 1 in
  let ok_lo := (0 <? lo) && reads_back x lo ex in
  let ok_hi := reads_back x hi ex in
  let nearer :=
    match 2 * r ?= den with
    | Lt => lo
    | Gt => hi
    | Eq => if Z.even lo then lo else hi
    end in
  if ok_lo && ok_hi then Some (nearer, ex)
  else if ok_lo then Some (lo, ex)
  else if ok_hi then Some (hi, ex)
  else None.

Fixpoint shortest_from (x : float64) (n d k : Z) (nd : Z) (fuel : nat) : Z * Z :=
  match fuel with
  | O => (n * 10 ^ (16 - k) / d, k - 16)
  | S fuel' =>
      match shortest_at x n d k nd with
      | Some r => r
      | None => shortest_from x n d k (nd + 1) fuel'
      end
  end.

Fixpoint drop_zeros (s : pystr) : pystr :=
  match s with
  | 48%N :: r => drop_zeros r
  | _ => s
  end.

(** The digits of the shortest decimal, without trailing zeros, and the
    position [decpt] of the decimal point: the value is [0.digits * 10^decpt]. *)
Definition shortest_digits (m : positive) (e : Z) : pystr * Z :=
  let (n, d) := fraction m e in
  let k := floor_log10 n d in
  let (c, ex) := shortest_from (S754_finite false m e) n d k 1 17 in
  let ds := nat_digits (Z.to_N c) in
  (rev (drop_zeros (rev ds)), ex + Z.of_nat (List.length ds)).

Definition zeros (n : Z) : pystr := repeat 48%N (Z.to_nat n).

(** [format_float_short] for the 'r' code: exponent notation when
    [decpt <= -4] or [decpt > 16], and '.0' added to an integer. *)
Definition repr_digits (ds : pystr) (decpt : Z) : pystr :=
  if (decpt <=? -4) || (16 <? decpt) then
    let ex := decpt - 1 in
    let exd := nat_digits (Z.to_N (Z.abs ex)) in
    firstn 1 ds
    ++ (match skipn 1 ds with [] => [] | frac => 46%N :: frac end)
    ++ [101%N; if ex <? 0 then 45%N else 43%N]
    ++ (if (List.length exd <? 2)%nat then 48%N :: exd else exd)
  else if decpt <=? 0 then
    [48%N; 46%N] ++ zeros (- decpt) ++ ds
  else if decpt <? Z.of_nat (List.length ds) then
    firstn (Z.to_nat decpt) ds ++ 46%N :: skipn (Z.to_nat decpt) ds
  else
    ds ++ zeros (decpt - Z.of_nat (List.length ds)) ++ [46%N; 48%N].

Definition float_repr (x : float64) : pystr :=
  match x with
  | S754_nan => u "nan"
  | S754_infinity s => if s then u "-inf" else u "inf"
  | S754_zero s => if s then u "-0.0" else u "0.0"
  | S754_finite s m e =>
      let (ds, decpt) := shortest_digits m e in
      (if s then [45%N] else []) ++ repr_digits ds decpt
  end.

End PyFloat.
Import PyFloat.


(** ** Exceptions and results *)

(** The exceptions the script can meet; all are subclasses of [Exception]. *)
Inductive exn :=
| FileNotFoundError (msg : pystr)
| ParserError (msg : pystr)            (* pandas.errors.ParserError *)
| ValueError (text : pystr)            (* [float(text)] could not convert *)
| KeyError (labels : list pystr)       (* labels that the table lacks *)
| TypeError                            (* arithmetic on an object column *)
| OtherError (msg : pystr).

Inductive result (A : Type) :=
| Ok (a : A)
| Raise (e : exn).
Arguments Ok {A} a.
Arguments Raise {A} e.

Definition bind {A B} (r : result A) (k : A -> result B) : result B :=
  match r with
  | Ok a => k a
  | Raise e => Raise e
  end.

Notation "x <- r ;; k" := (bind r (fun x => k))
  (at level 61, r at next level, right associativity).

Fixpoint mapM {A B} (f : A -> result B) (xs : list A) : result (list B) :=
  match xs with
  | [] => Ok []
  | x :: r => y <- f x ;; ys <- mapM f r ;; Ok (y :: ys)
  end.

(** ** pandas: columns and tables *)

(** An element of an object column: text or the float NaN of a missing
    cell, as [read_csv] leaves them, or a Python [int]. *)
Inductive obj :=
| Text (s : pystr)
| Missing
| Number (z : Z).

Inductive column :=
| ColInt (xs : list Z)            (* dtype int64 *)
| ColFloat (xs : list float64)    (* dtype float64 *)
| ColObject (xs : list obj).      (* dtype object *)

(** Columns in table order, each under its label. *)
Definition DataFrame := list (pystr * column).

(** A value taken out of a column: a selection entry, a group key, a sum. *)
Inductive scalar :=
| SInt (z : Z)
| SFloat (x : float64)
| SStr (s : pystr).

Definition col_len (c : column) : nat :=
  match c with
  | ColInt xs => List.length xs
  | ColFloat xs => List.length xs
  | ColObject xs => List.length xs
  end.

Definition scalar_of_obj (o : obj) : scalar :=
  match o with
  | Text s => SStr s
  | Missing => SFloat nan
  | Number z => SInt z
  end.

Definition values (c : column) : list scalar :=
  match c with
  | ColInt xs => map SInt xs
  | ColFloat xs => map SFloat xs
  | ColObject xs => map scalar_of_obj xs
  end.

(** All columns of a table have the length of its index. *)
Definition well_formed (n : nat) (df : DataFrame) : bool :=
  forallb (fun p => Nat.eqb (col_len (snd p)) n) df.

(** [col in df.columns] and [df[col]] *)
Fixpoint lookup (df : DataFrame) (col : pystr) : option column :=
  match df with
  | [] => None
  | (name, c) :: rest => if PyStr.eqb name col then Some c else lookup rest col
  end.

Definition has_col (df : DataFrame) (col : pystr) : bool :=
  match lookup df col with Some _ => true | None => false end.

Definition get_col (df : DataFrame) (col : pystr) : result column :=
  match lookup df col with
  | Some c => Ok c
  | None => Raise (KeyError [col])
  end.

(** [df[col] = c]: the column under [col] is replaced where it stands, a new
    label is appended. *)
Fixpoint set_col (df : DataFrame) (col : pystr) (c : column) : DataFrame :=
  match df with
  | [] => [(col, c)]
  | (name, old) :: rest =>
      if PyStr.eqb name col then (name, c) :: rest
      else (name, old) :: set_col rest col c
  end.

(** [df[cols]] for a list of labels: [KeyError] names the labels missing. *)
Definition get_cols (df : DataFrame) (cols : list pystr)
  : result (list (pystr * column)) :=
  match filter (fun col => negb (has_col df col)) cols with
  | [] => mapM (fun col => c <- get_col df col ;; Ok (col, c)) cols
  | missing => Raise (KeyError missing)
  end.

(** [df[cols] = sub], [sub] carrying the same labels. *)
Definition set_cols (df : DataFrame) (sub : list (pystr * column)) : DataFrame :=
  fold_left (fun d p => set_col d (fst p) (snd p)) sub df.

(** [Series.fillna(v)] for an integer literal [v]. *)
Definition fillna (v : Z) (c : column) : column :=
  match c with
  | ColInt xs => ColInt xs
  | ColFloat xs => ColFloat (map (fun x => if is_nan x then of_Z v else x) xs)
  | ColObject xs =>
      ColObject (map (fun o => match o with Missing => Number v | _ => o end) xs)
  end.

(** Signed 64-bit wrap-around of int64 arithmetic. *)
Definition wrap64 (z : Z) : Z := (z + 2 ^ 63) mod 2 ^ 64 - 2 ^ 63.

Definition in_int64 (z : Z) : bool := (- 2 ^ 63 <=? z) && (z <? 2 ^ 63).

(** Equality of two values as [isin], [unique] and group keys see it:
    integers and floats compare as float64 when mixed, NaN equals NaN, text
    equals only text. *)
Definition scalar_same (a b : scalar) : bool :=
  match a, b with
  | SInt x, SInt y => Z.eqb x y
  | SFloat x, SFloat y => F64.same x y
  | SInt x, SFloat y => F64.same (of_Z x) y
  | SFloat x, SInt y => F64.same x (of_Z y)
  | SStr x, SStr y => PyStr.eqb x y
  | _, _ => false
  end.

Definition scalar_in (v : scalar) (vs : list scalar) : bool :=
  existsb (scalar_same v) vs.

(** [Series.isin(vs)]: the boolean mask over the rows. *)
Definition isin (c : column) (vs : list scalar) : list bool :=
  map (fun v => scalar_in v vs) (values c).

(** [Series.unique()]: the distinct values in order of first appearance. *)
Fixpoint unique_from (seen : list scalar) (vs : list scalar) : list scalar :=
  match vs with
  | [] => rev seen
  | v :: r => if scalar_in v seen then unique_from seen r else unique_from (v :: seen) r
  end.

Definition unique (c : column) : list scalar := unique_from [] (values c).

(** Rows of a column kept by a boolean mask, [s[mask]]. *)
Fixpoint keep {A} (mask : list bool) (xs : list A) : list A :=
  match mask, xs with
  | b :: m, x :: r => if b then x :: keep m r else keep m r
  | _, _ => []
  end.

Definition keep_rows (mask : list bool) (c : column) : column :=
  match c with
  | ColInt xs => ColInt (keep mask xs)
  | ColFloat xs => ColFloat (keep mask xs)
  | ColObject xs => ColObject (keep mask xs)
  end.

(** [df[mask]] *)
Definition select (df : DataFrame) (mask : list bool) : DataFrame :=
  map (fun p => (fst p, keep_rows mask (snd p))) df.

(** Sum of the floats that are not NaN, accumulated from 0.0 in row order
    ([skipna=True]). *)
Definition fsum (xs : list float64) : float64 :=
  fold_left (fun acc x => if is_nan x then acc else F64.add acc x) xs zero.

Definition count_valid (xs : list float64) : Z :=
  Z.of_nat (List.length (filter (fun x => negb (is_nan x)) xs)).

(** A numeric result: a Python [int] or a float64. *)
Inductive num :=
| NInt (z : Z)
| NFloat (x : float64).

(** [Series.sum()].  The script sums numeric columns only; adding the
    objects of a non-empty object column is not modelled and stands as the
    [TypeError] that text mixed with numbers raises. *)
Definition series_sum (c : column) : result num :=
  match c with
  | ColInt xs => Ok (NInt (wrap64 (fold_left Z.add xs 0)))
  | ColFloat xs => Ok (NFloat (fsum xs))
  | ColObject [] => Ok (NInt 0)
  | ColObject _ => Raise TypeError
  end.

(** [Series.mean()]: NaN when no value is left to average. *)
Definition series_mean (c : column) : result float64 :=
  match c with
  | ColInt xs =>
      Ok (match xs with
          | [] => nan
          | _ => F64.div (fsum (map of_Z xs)) (of_Z (Z.of_nat (List.length xs)))
          end)
  | ColFloat xs =>
      Ok (if count_valid xs =? 0 then nan
          else F64.div (fsum xs) (of_Z (count_valid xs)))
  | ColObject [] => Ok nan
  | ColObject _ => Raise TypeError
  end.

(** *** Ordering, grouping *)

Fixpoint str_ltb (a b : pystr) : bool :=
  match a, b with
  | _, [] => false
  | [], _ :: _ => true
  | x :: a', y :: b' => (x <? y)%N || ((x =? y)%N && str_ltb a' b')
  end.

(** Order of group keys and of sorted values; numbers sort before text. *)
Definition scalar_ltb (a b : scalar) : bool :=
  match a, b with
  | SInt x, SInt y => Z.ltb x y
  | SFloat x, SFloat y => F64.ltb x y
  | SInt x, SFloat y => F64.ltb (of_Z x) y
  | SFloat x, SInt y => F64.ltb x (of_Z y)
  | SStr x, SStr y => str_ltb x y
  | SStr _, _ => false
  | _, SStr _ => true
  end.

Section Sorting.
Context {A : Type} (ltb : A -> A -> bool).

(** Insertion after the elements that are not greater: a stable sort. *)
Fixpoint insert (x : A) (l : list A) : list A :=
  match l with
  | [] => [x]
  | y :: r => if ltb x y then x :: l else y :: insert x r
  end.

Definition sort (l : list A) : list A := fold_left (fun acc x => insert x acc) l [].
End Sorting.

Definition is_null (v : scalar) : bool :=
  match v with
  | SFloat x => is_nan x
  | _ => false
  end.

(** The keys of [groupby(key)]: the distinct values that are not NaN, in
    ascending order. *)
Definition group_keys (k : column) : list scalar :=
  sort scalar_ltb (filter (fun v => negb (is_null v)) (unique k)).

Definition group_mask (k : column) (key : scalar) : list bool :=
  map (scalar_same key) (values k).

(** [groupby(key)[val].agg(f)]: one entry per key. *)
Definition groupby_agg {R} (f : column -> result R) (k v : column)
  : result (list (scalar * R)) :=
  mapM (fun key => r <- f (keep_rows (group_mask k key) v) ;; Ok (key, r))
       (group_keys k).

Definition num_to_scalar (n : num) : scalar :=
  match n with
  | NInt z => SInt z
  | NFloat x => SFloat x
  end.

(** [Series.sort_values(ascending=True)] on a series of numbers: ascending,
    NaN last.  Entries of equal value keep their order here; pandas leaves
    their order open. *)
Definition sort_values {K} (s : list (K * num)) : list (K * num) :=
  let null p := is_null (num_to_scalar (snd p)) in
  sort (fun p q => scalar_ltb (num_to_scalar (snd p)) (num_to_scalar (snd q)))
       (filter (fun p => negb (null p)) s)
  ++ filter null s.

(** *** Formatting *)

(** Thousands separators: a ',' before every group of three digits counted
    from the right. *)
Fixpoint group3_rev (ds : pystr) : pystr :=
  match ds with
  | a :: b :: c :: (_ :: _) as r => a :: b :: c :: 44%N :: group3_rev r
  | _ => ds
  end.

Definition group3 (ds : pystr) : pystr := rev (group3_rev (rev ds)).

(** [format(x, ',.0f')] for a float: the nearest integer (ties to even) with
    thousands separators; 'nan' and 'inf' are printed as such. *)
Definition format_float_comma_0f (x : float64) : pystr :=
  match x with
  | S754_nan => u "nan"
  | S754_infinity s => if s then u "-inf" else u "inf"
  | S754_zero s => if s then u "-0" else u "0"
  | S754_finite s m e =>
      (if s then [45%N] else []) ++ group3 (nat_digits (Z.to_N (round_half_even m e)))
  end.

(** [format(v, ',.0f')]: an [int] is converted to float first. *)
Definition format_comma_0f (v : num) : pystr :=
  match v with
  | NInt z => format_float_comma_0f (of_Z z)
  | NFloat x => format_float_comma_0f x
  end.

(** [numpy.round(x, 2)]: scale by 100, round to the nearest integer, scale
    back. *)
Definition round2 (x : float64) : float64 :=
  F64.div (rint (F64.mul x (of_Z 100))) (of_Z 100).


(** ** The page *)

Inductive message :=
| MsgNotFound                   (* "Error: El archivo Planta.csv no fue encontrado. ..." *)
| MsgParser (e : exn)           (* "Error al parsear el archivo CSV: {str(e)}. ..." *)
| MsgUnexpected (e : exn)       (* "Error inesperado al cargar los datos: {str(e)}" *)
| MsgNoData.                    (* "No se pudieron cargar los datos. ..." *)

(** A plotly figure, recorded with the data handed to it. *)
Inductive chart :=
| Box (data : DataFrame) (x y : pystr)
| Bar (data : list (scalar * num)) (x y : pystr)
| BarH (data : list (scalar * num))
| Scatter (data : DataFrame) (x y color size : pystr)
| Pie (vals : list float64) (names : list pystr).

Record resumen_row := {
  Cantidad_de_Empleados : num;
  Salario_Promedio : float64;
  Costo_Total_Mensual : num
}.

(** What Streamlit is asked to show, in script order (the column layout is
    left out). *)
Inductive element :=
| Error (m : message)
| Title
| SidebarHeader
| Multiselect (label : pystr) (options default : list scalar)
| Subheader (text : pystr)
| PlotlyChart (c : chart)
| Metric (label value : pystr)
| Dataframe (rows : list (scalar * resumen_row)).

(** A script run: the elements shown so far, and a value or the exception
    that stopped the run. *)
Definition UI (A : Type) := (list element * result A)%type.

Definition ret {A} (a : A) : UI A := ([], Ok a).
Definition emit (e : element) : UI unit := ([e], Ok tt).
Definition lift {A} (r : result A) : UI A := ([], r).

Definition ubind {A B} (m : UI A) (k : A -> UI B) : UI B :=
  match m with
  | (out, Ok a) => let (out', r) := k a in (out ++ out', r)
  | (out, Raise e) => (out, Raise e)
  end.

Notation "x <~ m ;; k" := (ubind m (fun x => k))
  (at level 61, m at next level, right associativity).
Notation "m ;;; k" := (ubind m (fun _ => k))
  (at level 61, right associativity).

(** [st.multiselect(label, options, default)]: the default while the widget
    is untouched, else the options the user picked, by position. *)
Definition multiselect (options default : list scalar) (picked : option (list nat))
  : list scalar :=
  match picked with
  | None => default
  | Some idx => flat_map (fun i => match nth_error options i with
                                   | Some v => [v]
                                   | None => []
                                   end) idx
  end.

(** The state of the two sidebar widgets. *)
Record sidebar := {
  pick_departamento : option (list nat);
  pick_nivel : option (list nat)
}.

(** ** Column labels *)

Definition DEPARTAMENTO : pystr := u "DEPARTAMENTO".
Definition NIVEL : pystr := u "Nivel".
Definition CANTIDAD : pystr := u "CANTIDAD".
Definition SALARIO : pystr := u "SALARIO MENSUAL INDIVIDUAL".
Definition PRESTACIONES_AVG : pystr := u "Prestaciones AVG".
Definition TOTAL_MENSUAL : pystr := u "Total Mensual (COP)".

Definition monetary_columns : list pystr :=
  map u [ "SALARIO MENSUAL INDIVIDUAL"; "Prestaciones AVG";
          "Prestaciones Ajustado"; "Prima Servicios";
          "Cesantías"; "Intereses Cesantias"; "Vacaciones";
          "SENA"; "ICBF"; "Caja de Compensación";
          "Salud"; "Pensión"; "ARL (2% avg)";
          "Total Mensual (COP)"; "Anual (COP)";
          "Mensual (USD)"; "Anual (USD)" ]%string.

Definition componentes : list pystr :=
  map u [ "Salud"; "Pensión"; "ARL (2% avg)"; "SENA"; "ICBF";
          "Caja de Compensación" ]%string.

(** ** Filter engine *)

(** [df[df["DEPARTAMENTO"].isin(departamento) & df["Nivel"].isin(nivel)].copy()] *)
Definition df_filtered (df : DataFrame) (departamento nivel : list scalar)
  : result DataFrame :=
  d <- get_col df DEPARTAMENTO ;;
  n <- get_col df NIVEL ;;
  let mask := map (fun p => fst p && snd p)
                  (combine (isin d departamento) (isin n nivel)) in
  Ok (select df mask).

(** ** Aggregations over the filtered view *)

(** [df_filtered.groupby("Nivel")["CANTIDAD"].sum().reset_index()] *)
Definition nivel_cantidad (view : DataFrame) : result (list (scalar * num)) :=
  k <- get_col view NIVEL ;;
  v <- get_col view CANTIDAD ;;
  groupby_agg series_sum k v.

(** [df_filtered.groupby("DEPARTAMENTO")["Total Mensual (COP)"].sum()
       .sort_values(ascending=True)] *)
Definition dept_costs (view : DataFrame) : result (list (scalar * num)) :=
  k <- get_col view DEPARTAMENTO ;;
  v <- get_col view TOTAL_MENSUAL ;;
  g <- groupby_agg series_sum k v ;;
  Ok (sort_values g).

(** [df_filtered[componentes].mean()] *)
Definition df_componentes (view : DataFrame) : result (list (pystr * float64)) :=
  sub <- get_cols view componentes ;;
  mapM (fun p => m <- series_mean (snd p) ;; Ok (fst p, m)) sub.

Definition total_empleados (view : DataFrame) : result num :=
  c <- get_col view CANTIDAD ;; series_sum c.

Definition costo_mensual (view : DataFrame) : result num :=
  c <- get_col view TOTAL_MENSUAL ;; series_sum c.

Definition promedio_salario (view : DataFrame) : result float64 :=
  c <- get_col view SALARIO ;; series_mean c.

(** [DataFrame.round(2)] leaves integers as they are. *)
Definition round2_num (v : num) : num :=
  match v with
  | NInt z => NInt z
  | NFloat x => NFloat (round2 x)
  end.

(** [df_filtered.groupby("DEPARTAMENTO").agg(...).round(2)] *)
Definition resumen_dept (view : DataFrame) : result (list (scalar * resumen_row)) :=
  k <- get_col view DEPARTAMENTO ;;
  q <- get_col view CANTIDAD ;;
  s <- get_col view SALARIO ;;
  t <- get_col view TOTAL_MENSUAL ;;
  mapM (fun key =>
          let rows := group_mask k key in
          cantidad <- series_sum (keep_rows rows q) ;;
          salario <- series_mean (keep_rows rows s) ;;
          costo <- series_sum (keep_rows rows t) ;;
          Ok (key, {| Cantidad_de_Empleados := round2_num cantidad;
                      Salario_Promedio := round2 salario;
                      Costo_Total_Mensual := round2_num costo |}))
       (group_keys k).

(** The text of the three metrics. *)
Definition metric_total_empleados (v : num) : pystr := format_comma_0f v.
Definition metric_cop (v : num) : pystr :=
  u "$" ++ format_comma_0f v ++ u " COP".

(** The page shown once the table is loaded (lines 83-199). *)
Definition page (df : DataFrame) (ui : sidebar) : UI unit :=
  emit Title ;;;
  emit SidebarHeader ;;;
  d <~ lift (get_col df DEPARTAMENTO) ;;
  emit (Multiselect (u "Seleccionar Departamento") (unique d) (unique d)) ;;;
  let departamento := multiselect (unique d) (unique d) (pick_departamento ui) in
  n <~ lift (get_col df NIVEL) ;;
  emit (Multiselect (u "Seleccionar Nivel") (unique n) (unique n)) ;;;
  let nivel := multiselect (unique n) (unique n) (pick_nivel ui) in
  view <~ lift (df_filtered df departamento nivel) ;;
  emit (Subheader (u "Distribución de Salarios por Departamento")) ;;;
  emit (PlotlyChart (Box view DEPARTAMENTO SALARIO)) ;;;
  emit (Subheader (u "Cantidad de Empleados por Nivel")) ;;;
  nc <~ lift (nivel_cantidad view) ;;
  emit (PlotlyChart (Bar nc NIVEL CANTIDAD)) ;;;
  emit (Subheader (u "Costos Totales Mensuales por Departamento")) ;;;
  dc <~ lift (dept_costs view) ;;
  emit (PlotlyChart (BarH dc)) ;;;
  emit (Subheader (u "Distribución de Prestaciones por Nivel")) ;;;
  emit (PlotlyChart (Scatter view SALARIO PRESTACIONES_AVG NIVEL CANTIDAD)) ;;;
  emit (Subheader (u "Desglose de Componentes Salariales")) ;;;
  comp <~ lift (df_componentes view) ;;
  emit (PlotlyChart (Pie (map snd comp) (map fst comp))) ;;;
  emit (Subheader (u "Métricas Clave")) ;;;
  te <~ lift (total_empleados view) ;;
  emit (Metric (u "Total Empleados") (metric_total_empleados te)) ;;;
  cm <~ lift (costo_mensual view) ;;
  emit (Metric (u "Costo Mensual Total") (metric_cop cm)) ;;;
  ps <~ lift (promedio_salario view) ;;
  emit (Metric (u "Salario Promedio") (metric_cop (NFloat ps))) ;;;
  emit (Subheader (u "Tabla de Resumen por Departamento")) ;;;
  r <~ lift (resumen_dept view) ;;
  emit (Dataframe r).

(** ** Cleaning and loading *)

Section Loader.

(** One library conversion stays open: the reading of a number out of text
    inside [pandas.to_numeric] ([None] when pandas cannot read one). *)
Variable floatify : pystr -> option float64.

Definition str_of_obj (o : obj) : pystr :=
  match o with
  | Text s => s
  | Missing => u "nan"
  | Number z => str_of_int z
  end.

(** [Series.astype(str)] *)
Definition astype_str (c : column) : list pystr :=
  match c with
  | ColInt xs => map str_of_int xs
  | ColFloat xs => map float_repr xs
  | ColObject xs => map str_of_obj xs
  end.

(** [Series.replace('', np.nan)] on a series of text: [None] is NaN. *)
Definition replace_empty (s : pystr) : option pystr :=
  match s with
  | [] => None
  | _ => Some s
  end.

(** [astype(float)], element by element: [float(s)] on text, NaN kept. *)
Definition astype_float (o : option pystr) : result float64 :=
  match o with
  | Some s =>
      match py_float s with
      | Some x => Ok x
      | None => Raise (ValueError s)
      end
  | None => Ok nan
  end.

(** Line 27:
    [series.astype(str).str.replace(r'[$,]', '', regex=True).str.strip()
           .replace('', np.nan).astype(float)] *)
Definition clean_money_optimized (series : column) : result column :=
  let as_text := astype_str series in
  let no_symbols := map remove_dollar_comma as_text in
  let stripped := map strip no_symbols in
  let marked := map replace_empty stripped in
  xs <- mapM astype_float marked ;;
  Ok (ColFloat xs).

(** Lines 56-58. *)
Fixpoint clean_columns (cols : list pystr) (df : DataFrame) : result DataFrame :=
  match cols with
  | [] => Ok df
  | col :: rest =>
      if has_col df col then
        c <- get_col df col ;;
        c' <- clean_money_optimized c ;;
        clean_columns rest (set_col df col c')
      else clean_columns rest df
  end.

Definition int64_of_obj (o : obj) : option Z :=
  match o with
  | Number z => if in_int64 z then Some z else None
  | _ => None
  end.

Fixpoint all_int64 (xs : list obj) : option (list Z) :=
  match xs with
  | [] => Some []
  | o :: r =>
      match int64_of_obj o, all_int64 r with
      | Some z, Some zs => Some (z :: zs)
      | _, _ => None
      end
  end.

Definition coerce_obj (o : obj) : float64 :=
  match o with
  | Text s => match floatify s with Some x => x | None => nan end
  | Missing => nan
  | Number z => of_Z z
  end.

(** [pd.to_numeric(series, errors='coerce')]: numeric columns are kept; in
    an object column what cannot be read as a number becomes NaN.  (A
    column of integers only stays int64; integers written as text are
    taken as floats here.) *)
Definition to_numeric_coerce (c : column) : column :=
  match c with
  | ColObject xs =>
      match all_int64 xs with
      | Some zs => ColInt zs
      | None => ColFloat (map coerce_obj xs)
      end
  | _ => c
  end.

(** The body of the [try], lines 42-67; [csv] is what [pd.read_csv] gives
    for the file. *)
Definition load_body (csv : result DataFrame) : result DataFrame :=
  df <- csv ;;
  df <- clean_columns monetary_columns df ;;
  cantidad <- get_col df CANTIDAD ;;
  let df := set_col df CANTIDAD (fillna 1 (to_numeric_coerce cantidad)) in
  sub <- get_cols df monetary_columns ;;
  Ok (set_cols df (map (fun p => (fst p, fillna 0 (snd p))) sub)).

(** The [except] clauses, in order: which message [st.error] shows. *)
Definition handler (e : exn) : message :=
  match e with
  | FileNotFoundError _ => MsgNotFound
  | ParserError _ => MsgParser e
  | _ => MsgUnexpected e
  end.

(** [load_data_optimized()]: the messages shown, and the table or [None]. *)
Definition load_data_optimized (csv : result DataFrame)
  : list element * option DataFrame :=
  match load_body csv with
  | Ok df => ([], Some df)
  | Raise e => ([Error (handler e)], None)
  end.

(** The script, lines 80-201. *)
Definition dashboard (csv : result DataFrame) (ui : sidebar) : UI unit :=
  let (shown, df) := load_data_optimized csv in
  match df with
  | Some df => (shown, Ok tt) ;;; page df ui
  | None => (shown, Ok tt) ;;; emit (Error MsgNoData)
  end.

End Loader.

(** * Properties *)

(** ** Auxiliary notions used in the statements *)

(** Membership of a label in a list of labels. *)
Definition mem (c : pystr) (cols : list pystr) : bool :=
  existsb (PyStr.eqb c) cols.

Fixpoint nodupb (cols : list pystr) : bool :=
  match cols with
  | [] => true
  | c :: r => negb (mem c r) && nodupb r
  end.

(** What line 27 leaves of one text before [float()] is applied: '$' and ','
    removed, then stripped. *)
Definition residual (s : pystr) : pystr := strip (remove_dollar_comma s).

(** One text through line 27. *)
Definition clean_value (s : pystr) : result float64 :=
  astype_float (replace_empty (residual s)).

Definition whitespace_only (s : pystr) : bool := forallb is_space s.

(** Row [i] of a column. *)
Definition cell (c : column) (i : nat) : option scalar := nth_error (values c) i.

(** The quantity in row [i] is one that [to_numeric] cannot read: a missing
    cell, or text the library's reader rejects. *)
Definition fails_coercion (floatify : pystr -> option float64)
  (q : column) (i : nat) : bool :=
  match q with
  | ColInt _ => false
  | ColFloat xs =>
      match nth_error xs i with
      | Some x => is_nan x
      | None => false
      end
  | ColObject xs =>
      match nth_error xs i with
      | Some (Text s) => match floatify s with None => true | Some _ => false end
      | Some Missing => true
      | _ => false
      end
  end.

(** The three kinds of load failure of the specification. *)
Inductive failure_kind := NotFound | ParseError | UnknownError.

Definition classify (e : exn) : failure_kind :=
  match e with
  | FileNotFoundError _ => NotFound
  | ParserError _ => ParseError
  | _ => UnknownError
  end.

Definition message_kind (m : message) : option failure_kind :=
  match m with
  | MsgNotFound => Some NotFound
  | MsgParser _ => Some ParseError
  | MsgUnexpected _ => Some UnknownError
  | MsgNoData => None
  end.

(** An element that draws data: a chart, a metric or a table. *)
Definition is_data_element (e : element) : bool :=
  match e with
  | PlotlyChart _ | Metric _ _ | Dataframe _ => true
  | _ => false
  end.

(** ** Sample tables *)

Definition texts (l : list string) : column := ColObject (map (fun s => Text (u s)) l).

(** A table with the three key columns and every monetary column. *)
Definition make_table (departamento nivel cantidad : column)
  (money : pystr -> column) : DataFrame :=
  (DEPARTAMENTO, departamento) :: (NIVEL, nivel) :: (CANTIDAD, cantidad)
  :: map (fun c => (c, money c)) monetary_columns.

Definition sample_money : column :=
  ColObject [Text (u "$1,234.50"); Missing; Text (u "  ")].

(** Departments A, A, B; quantities 2, 3, 1; total monthly costs "$1,000",
    "$2,000", "$500". *)
Definition sample_table : DataFrame :=
  make_table (texts ["A"; "A"; "B"]%string) (texts ["L1"; "L2"; "L1"]%string)
    (ColInt [2; 3; 1])
    (fun c => if PyStr.eqb c TOTAL_MENSUAL
              then texts ["$1,000"; "$2,000"; "$500"]%string
              else sample_money).

(** The same table with quantities "2", the text "n/a" and a missing cell. *)
Definition sample_table_na : DataFrame :=
  set_col sample_table CANTIDAD (ColObject [Text (u "2"); Text (u "n/a"); Missing]).

(** The same table with the text "abc" in the first row of 'Salud'. *)
Definition sample_table_abc : DataFrame :=
  set_col sample_table (u "Salud")
    (ColObject [Text (u "abc"); Text (u "$10"); Text (u "$20")]).

(** The same table without its 'Salud' column. *)
Definition sample_table_no_salud : DataFrame :=
  filter (fun p => negb (PyStr.eqb (fst p) (u "Salud"))) sample_table.


(** The table a load of [df] produces ([[]] if it fails), reading text
    quantities with [float()]. *)
Definition loaded (df : DataFrame) : DataFrame :=
  match snd (load_data_optimized py_float (Ok df)) with
  | Some df' => df'
  | None => []
  end.

(** The labels the page reads from the filtered view. *)
Definition page_columns : list pystr :=
  [DEPARTAMENTO; NIVEL; CANTIDAD; SALARIO; TOTAL_MENSUAL] ++ componentes.

(** Nothing selected in the department widget. *)
Definition no_department : sidebar :=
  {| pick_departamento := Some []; pick_nivel := None |}.

(** A sum that is zero: the integer 0 or the float 0.0. *)
Definition is_zero_sum (n : num) : Prop := n = NInt 0 \/ n = NFloat zero.

(** *** Characters of a number *)

Definition is_letter (c : char) : bool :=
  ((65 <=? c) && (c <=? 90) || (97 <=? c) && (c <=? 122))%N.

(** The characters [float()] can consume: digits, letters (of 'inf', 'nan'
    and the exponent mark), signs and the point. *)
Definition numeric_char (c : char) : bool :=
  is_digit c || is_letter c || (c =? 43)%N || (c =? 45)%N || (c =? 46)%N.

(** White space that [float()] skips, as it stands in the text. *)
Definition float_space (c : char) : bool :=
  is_c_space c || (is_space c && (127 <=? c)%N).

(** What [to_ascii] makes of a character of a readable text. *)
Definition to_blank (c : char) : char := if (c <? 127)%N then c else 32%N.

Definition float_char (c : char) : bool :=
  float_space c || numeric_char c || (c =? 95)%N.

(** The float nearest to 12345/10. *)
Definition amount_1234_50 : float64 := of_ratio false 12345 10.

(** The loaded sample table with no department selected. *)
Definition sample_empty_view : DataFrame :=
  match df_filtered (loaded sample_table) [] [SStr (u "L1")] with
  | Ok view => view
  | Raise _ => []
  end.

(** ** Further notions *)


(** A float64 column without missing values. *)
Definition float_no_nan (c : column) : bool :=
  match c with
  | ColFloat xs => negb (existsb is_nan xs)
  | _ => false
  end.

(** The monetary columns of [df] are all there and all clean. *)
Definition money_cleans (df : DataFrame) : bool :=
  forallb (fun c => match lookup df c with
                    | Some x => match clean_money_optimized x with
                                | Ok _ => true
                                | Raise _ => false
                                end
                    | None => false
                    end) monetary_columns.

(** The sample table without its quantity column. *)
Definition sample_table_no_cantidad : DataFrame :=
  filter (fun p => negb (PyStr.eqb (fst p) CANTIDAD)) sample_table.

(** The table after the cleaning loop alone ([[]] if it raises). *)
Definition cleaned (df : DataFrame) : DataFrame :=
  match clean_columns monetary_columns df with
  | Ok df1 => df1
  | Raise _ => []
  end.

(** The sample table with its header only: every column without a row. *)
Definition sample_header_only : DataFrame :=
  map (fun p => (fst p, ColObject [])) sample_table.

(** The sample table filtered on department A and level L1 ([[]] if the
    filter raises). *)
Definition sample_view_A_L1 : DataFrame :=
  match df_filtered (loaded sample_table) [SStr (u "A")] [SStr (u "L1")] with
  | Ok view => view
  | Raise _ => []
  end.

(** The number of rows a mask keeps. *)
Definition count_true (mask : list bool) : nat :=
  List.length (filter (fun b => b) mask).

(** The sample table with whole amounts in 'Salud', typed int64. *)
Definition sample_table_int : DataFrame :=
  set_col sample_table (u "Salud") (ColInt [100; 200; 300]).

(** The order [sort_values] sorts the entries by: that of their values. *)
Definition by_value {K} (p q : K * num) : bool :=
  scalar_ltb (num_to_scalar (snd p)) (num_to_scalar (snd q)).

(** An entry whose value is NaN. *)
Definition null_value {K} (p : K * num) : bool :=
  is_null (num_to_scalar (snd p)).

(** No element is followed by a smaller one. *)
Fixpoint ascending {A} (ltb : A -> A -> bool) (l : list A) : bool :=
  match l with
  | a :: r =>
      match r with
      | b :: _ => negb (ltb b a)
      | [] => true
      end && ascending ltb r
  | [] => true
  end.

(** The two grouped charts of the loaded sample table ([[]] if they raise). *)
Definition sample_dept_costs : list (scalar * num) :=
  match dept_costs (loaded sample_table) with
  | Ok dc => dc
  | Raise _ => []
  end.

Definition sample_nivel_cantidad : list (scalar * num) :=
  match nivel_cantidad (loaded sample_table) with
  | Ok nc => nc
  | Raise _ => []
  end.

(** A column of numbers, int64 or float64. *)
Definition is_numeric (c : column) : bool :=
  match c with
  | ColObject _ => false
  | _ => true
  end.

Definition is_error (e : element) : bool :=
  match e with
  | Error _ => true
  | _ => false
  end.

(** The sample table without its level column. *)
Definition sample_table_no_nivel : DataFrame :=
  filter (fun p => negb (PyStr.eqb (fst p) NIVEL)) sample_table.

(** The sidebar as the user finds it. *)
Definition untouched : sidebar :=
  {| pick_departamento := None; pick_nivel := None |}.

(** The sum of the bars of a chart of integer sums, as int64 adds them. *)
Definition bars_total (bars : list (scalar * num)) : Z :=
  wrap64 (fold_left (fun acc p => match snd p with
                                  | NInt z => acc + z
                                  | NFloat _ => acc
                                  end) bars 0).

(** The summary table of the loaded sample table ([[]] if it raises). *)
Definition sample_resumen : list (scalar * resumen_row) :=
  match resumen_dept (loaded sample_table) with
  | Ok r => r
  | Raise _ => []
  end.

(** The sum over the groups, group by group. *)
Fixpoint sum_of_groups (keys vals : list scalar) (qs : list Z) : Z :=
  match keys with
  | [] => 0
  | key :: rest =>
      fold_left Z.add (keep (map (scalar_same key) vals) qs) 0
      + sum_of_groups rest vals qs
  end.

(** The averages behind the pie of the loaded sample table. *)
Definition sample_componentes : list (pystr * float64) :=
  match df_componentes (loaded sample_table) with
  | Ok comp => comp
  | Raise _ => []
  end.

(** ** Labels and table updates *)

Lemma eqb_refl (a : pystr) : PyStr.eqb a a = true.
Proof.
  induction a as [|x a IH]; simpl; [reflexivity|].
  now rewrite N.eqb_refl, IH.
Qed.

Lemma eqb_eq (a b : pystr) : PyStr.eqb a b = true <-> a = b.
Proof.
  split.
  - revert b; induction a as [|x a IH]; intros [|y b] H; simpl in H;
      try discriminate; [reflexivity|].
    apply andb_true_iff in H as [Hx Hr].
    apply N.eqb_eq in Hx. apply IH in Hr. now subst.
  - intros ->. apply eqb_refl.
Qed.

Lemma eqb_sym (a b : pystr) : PyStr.eqb a b = PyStr.eqb b a.
Proof.
  destruct (PyStr.eqb a b) eqn:E.
  - apply eqb_eq in E. subst. symmetry. apply eqb_refl.
  - destruct (PyStr.eqb b a) eqn:E'; [|reflexivity].
    apply eqb_eq in E'. subst. now rewrite eqb_refl in E.
Qed.

Lemma lookup_set_col_same df c x : lookup (set_col df c x) c = Some x.
Proof.
  induction df as [|[name old] rest IH]; simpl.
  - now rewrite eqb_refl.
  - destruct (PyStr.eqb name c) eqn:E; simpl; now rewrite E.
Qed.

Lemma lookup_set_col_other df c x c' :
  PyStr.eqb c' c = false -> lookup (set_col df c x) c' = lookup df c'.
Proof.
  intros Hne.
  induction df as [|[name old] rest IH]; simpl.
  - now rewrite eqb_sym, Hne.
  - destruct (PyStr.eqb name c) eqn:E; simpl.
    + apply eqb_eq in E. subst name. now rewrite (eqb_sym c c'), Hne.
    + now rewrite IH.
Qed.

Lemma lookup_set_col df c x c' :
  lookup (set_col df c x) c' = if PyStr.eqb c' c then Some x else lookup df c'.
Proof.
  destruct (PyStr.eqb c' c) eqn:E.
  - apply eqb_eq in E. subst. apply lookup_set_col_same.
  - now apply lookup_set_col_other.
Qed.

Lemma has_col_lookup df c : has_col df c = true <-> exists x, lookup df c = Some x.
Proof.
  unfold has_col. destruct (lookup df c); split; intros H; eauto.
  - discriminate.
  - destruct H; discriminate.
Qed.

(** [df[cols]] hands back each label with the column stored under it. *)
Lemma mapM_get_col df cols sub :
  mapM (fun col => c <- get_col df col ;; Ok (col, c)) cols = Ok sub ->
  map fst sub = cols /\ Forall (fun p => lookup df (fst p) = Some (snd p)) sub.
Proof.
  revert sub; induction cols as [|col cols IH]; intros sub H; simpl in H.
  - inversion H. split; constructor.
  - unfold get_col in H. destruct (lookup df col) eqn:L; simpl in H; [|discriminate].
    destruct (mapM _ cols) as [ys|] eqn:M; simpl in H; [|discriminate].
    inversion H; subst. destruct (IH ys eq_refl) as [Hk Hv].
    split; simpl; [now rewrite Hk|]. constructor; auto.
Qed.

Lemma get_cols_ok df cols sub :
  get_cols df cols = Ok sub ->
  map fst sub = cols /\ Forall (fun p => lookup df (fst p) = Some (snd p)) sub.
Proof.
  unfold get_cols. destruct (filter _ cols); [|discriminate].
  apply mapM_get_col.
Qed.

Lemma get_cols_missing df cols c :
  mem c cols = true -> lookup df c = None ->
  exists labels, get_cols df cols = Raise (KeyError labels).
Proof.
  intros Hm Hl. unfold get_cols.
  destruct (filter _ cols) as [|m ms] eqn:F; [|eauto].
  exfalso. unfold mem in Hm. apply existsb_exists in Hm as [c' [Hin Heq]].
  apply eqb_eq in Heq. subst c'.
  assert (In c (filter (fun col => negb (has_col df col)) cols)) as Hc.
  { apply filter_In. split; [assumption|]. unfold has_col. now rewrite Hl. }
  rewrite F in Hc. destruct Hc.
Qed.

(** Every listed label ends up holding [f] of the column it held in [df0],
    the others are untouched. *)
Lemma lookup_set_cols (f : column -> column) df0 sub :
  Forall (fun p => lookup df0 (fst p) = Some (snd p)) sub ->
  forall cur c,
    lookup (set_cols cur (map (fun p => (fst p, f (snd p))) sub)) c
    = if mem c (map fst sub) then option_map f (lookup df0 c) else lookup cur c.
Proof.
  unfold set_cols.
  induction 1 as [|[k x] rest Hk Hrest IH]; intros cur c; simpl; [reflexivity|].
  rewrite IH. simpl in Hk.
  destruct (mem c (map fst rest)) eqn:Hm.
  - now rewrite orb_true_r.
  - rewrite orb_false_r, lookup_set_col.
    destruct (PyStr.eqb c k) eqn:E; [|reflexivity].
    apply eqb_eq in E. subst. now rewrite Hk.
Qed.

Lemma filter_none {A} (p : A -> bool) (l : list A) :
  forallb p l = true -> filter (fun x => negb (p x)) l = [].
Proof.
  induction l as [|a l IH]; simpl; [reflexivity|].
  intros H. apply andb_true_iff in H as [-> H]. simpl. auto.
Qed.

Lemma forallb_impl {A} (f g : A -> bool) (l : list A) :
  (forall a, f a = true -> g a = true) -> forallb f l = true -> forallb g l = true.
Proof.
  intros Hfg H. apply forallb_forall. intros a Ha.
  rewrite forallb_forall in H. auto.
Qed.

(** ** The loader, column by column *)

Section LoaderFacts.

Variable floatify : pystr -> option float64.

Lemma clean_money_float series c :
  clean_money_optimized series = Ok c -> exists xs, c = ColFloat xs.
Proof.
  unfold clean_money_optimized. destruct (mapM _ _); simpl; intros H;
    inversion H; eauto.
Qed.

(** The cleaning loop touches the listed labels only, and only those the
    table holds. *)
Lemma clean_columns_spec cols : forall df df',
  clean_columns cols df = Ok df' ->
  forall c,
    (mem c cols = false -> lookup df' c = lookup df c)
    /\ (lookup df c = None -> lookup df' c = None)
    /\ (nodupb cols = true -> mem c cols = true ->
        forall x, lookup df c = Some x ->
                  exists x', clean_money_optimized x = Ok x' /\ lookup df' c = Some x').
Proof.
  induction cols as [|col cols IH]; intros df df' H c; simpl in H.
  - inversion H; subst. repeat split; auto. discriminate.
  - unfold has_col, get_col in H.
    destruct (lookup df col) as [x0|] eqn:L; simpl in H.
    + destruct (clean_money_optimized x0) as [x0'|] eqn:C; simpl in H; [|discriminate].
      destruct (IH _ _ H c) as (Hout & Hnone & Hin).
      simpl. repeat split.
      * intros Hm. apply orb_false_iff in Hm as [Hne Hm].
        rewrite (Hout Hm). now apply lookup_set_col_other.
      * intros Hl. apply Hnone. rewrite lookup_set_col.
        destruct (PyStr.eqb c col) eqn:E; [|assumption].
        apply eqb_eq in E. subst. congruence.
      * intros Hnd Hm x Hx. apply andb_true_iff in Hnd as [Hfresh Hnd].
        apply negb_true_iff in Hfresh.
        destruct (PyStr.eqb c col) eqn:E.
        -- apply eqb_eq in E. subst c. rewrite L in Hx. inversion Hx; subst x0.
           exists x0'. split; [assumption|].
           rewrite (Hout Hfresh). apply lookup_set_col_same.
        -- simpl in Hm. apply (Hin Hnd Hm).
           now rewrite lookup_set_col_other.
    + destruct (IH _ _ H c) as (Hout & Hnone & Hin).
      simpl. repeat split.
      * intros Hm. apply orb_false_iff in Hm as [_ Hm]. auto.
      * assumption.
      * intros Hnd Hm x Hx. apply andb_true_iff in Hnd as [_ Hnd].
        destruct (PyStr.eqb c col) eqn:E.
        -- apply eqb_eq in E. subst. congruence.
        -- simpl in Hm. eauto.
Qed.

Lemma mem_neq c c' cols :
  mem c cols = true -> mem c' cols = false -> PyStr.eqb c c' = false.
Proof.
  intros H H'. destruct (PyStr.eqb c c') eqn:E; [|reflexivity].
  apply eqb_eq in E. subst. congruence.
Qed.

(** What a successful load leaves under each label. *)
Lemma load_body_spec df df' :
  load_body floatify (Ok df) = Ok df' ->
  (forall c, mem c monetary_columns = true ->
     exists x ys, lookup df c = Some x /\ clean_money_optimized x = Ok (ColFloat ys)
                  /\ lookup df' c = Some (fillna 0 (ColFloat ys)))
  /\ (exists q, lookup df CANTIDAD = Some q
                /\ lookup df' CANTIDAD = Some (fillna 1 (to_numeric_coerce floatify q)))
  /\ (forall c, mem c monetary_columns = false -> PyStr.eqb c CANTIDAD = false ->
                lookup df' c = lookup df c).
Proof.
  cbv beta iota delta [load_body bind].
destruct (clean_columns monetary_columns df) as [df1|] eqn:C1;
  [|discriminate].
unfold get_col at 1.
destruct (lookup df1 CANTIDAD) as [q|] eqn:LQ; [|discriminate].
set (df2 := set_col df1 CANTIDAD _).
destruct (get_cols df2 monetary_columns) as [sub|] eqn:G; [|discriminate].
intros H; inversion H; subst df'; clear H.
  destruct (get_cols_ok _ _ _ G) as [Hkeys Hvals].
  pose proof (lookup_set_cols (fillna 0) df2 sub Hvals df2) as Hset.
  rewrite Hkeys in Hset.
  assert (HQ : mem CANTIDAD monetary_columns = false) by (vm_compute; reflexivity).
  repeat split.
  - intros c Hm. rewrite Hset, Hm.
    assert (Hc : PyStr.eqb c CANTIDAD = false) by (eapply mem_neq; eauto).
    unfold df2. rewrite lookup_set_col_other by assumption.
    destruct (clean_columns_spec _ _ _ C1 c) as (_ & Hnone & Hin).
    destruct (lookup df c) as [x|] eqn:L.
    + destruct (Hin eq_refl Hm x eq_refl) as (x' & Hx' & Hl).
      destruct (clean_money_float _ _ Hx') as [ys ->].
      exists x, ys. rewrite Hl. auto.
    + exfalso. specialize (Hnone eq_refl).
      destruct (get_cols_missing df2 monetary_columns c Hm) as [labels Hk].
      * unfold df2. now rewrite lookup_set_col_other.
      * congruence.
  - exists q. destruct (clean_columns_spec _ _ _ C1 CANTIDAD) as (Hout & _ & _).
    split; [now rewrite <- (Hout HQ)|].
    rewrite Hset, HQ. unfold df2. apply lookup_set_col_same.
  - intros c Hm Hc. rewrite Hset, Hm. unfold df2.
    rewrite lookup_set_col_other by assumption.
    destruct (clean_columns_spec _ _ _ C1 c) as (Hout & _ & _). auto.
Qed.

End LoaderFacts.

(** ** Series, element by element *)

Lemma mapM_map {A B C} (g : A -> B) (f : B -> result C) (xs : list A) :
  mapM f (map g xs) = mapM (fun x => f (g x)) xs.
Proof.
  induction xs as [|x xs IH]; simpl; [reflexivity|]. now rewrite IH.
Qed.

Lemma mapM_nth {A B} (f : A -> result B) (xs : list A) (ys : list B) :
  mapM f xs = Ok ys ->
  forall i x, nth_error xs i = Some x ->
              exists y, f x = Ok y /\ nth_error ys i = Some y.
Proof.
  revert ys; induction xs as [|a xs IH]; intros ys H i x Hx; simpl in H.
  - destruct i; discriminate.
  - destruct (f a) as [b|] eqn:Fa; simpl in H; [|discriminate].
    destruct (mapM f xs) as [bs|] eqn:M; simpl in H; [|discriminate].
    inversion H; subst ys.
    destruct i as [|i]; simpl in Hx.
    + inversion Hx; subst. eauto.
    + apply (IH bs eq_refl i x Hx).
Qed.

Lemma mapM_raise_inv {A B} (f : A -> result B) (xs : list A) e :
  mapM f xs = Raise e -> exists x, In x xs /\ f x = Raise e.
Proof.
  induction xs as [|a xs IH]; simpl; [discriminate|].
  destruct (f a) as [b|e'] eqn:Fa; simpl.
  - destruct (mapM f xs) as [bs|e'']; simpl; [discriminate|].
    intros H; inversion H; subst. destruct (IH eq_refl) as (x & Hin & Hx). eauto.
  - intros H; inversion H; subst. eauto.
Qed.


(** Line 27 is [clean_value] applied to the text of every row. *)
Lemma clean_money_by_value (series : column) :
  clean_money_optimized series
  = xs <- mapM clean_value (astype_str series) ;; Ok (ColFloat xs).
Proof.
  unfold clean_money_optimized. now rewrite !mapM_map.
Qed.

Lemma clean_value_raises s e :
  clean_value s = Raise e -> e = ValueError (residual s).
Proof.
  unfold clean_value, astype_float, replace_empty.
  destruct (residual s) as [|c r]; [discriminate|].
  destruct (py_float (c :: r)); [discriminate|]. now intros [= <-].
Qed.

(** The cleaning raises nothing but the [ValueError] of [float()]. *)
Lemma clean_money_raises_ValueError series e :
  clean_money_optimized series = Raise e -> exists t, e = ValueError t.
Proof.
  rewrite clean_money_by_value.
  destruct (mapM clean_value (astype_str series)) as [xs|e'] eqn:M; simpl;
    [discriminate|].
  intros [= <-]. apply mapM_raise_inv in M as (s & _ & Hs).
  apply clean_value_raises in Hs. eauto.
Qed.


Lemma lstrip_all sp s : forallb sp s = true -> lstrip_by sp s = [].
Proof.
  induction s as [|c s IH]; simpl; [reflexivity|].
  intros H. apply andb_true_iff in H as [Hc Hs]. rewrite Hc. auto.
Qed.

Lemma strip_all sp s : forallb sp s = true -> strip_by sp s = [].
Proof.
  intros H. unfold strip_by, rstrip_by. now rewrite (lstrip_all _ _ H).
Qed.

Lemma forallb_filter {A} (p q : A -> bool) (l : list A) :
  forallb p l = true -> forallb p (filter q l) = true.
Proof.
  induction l as [|a l IH]; simpl; [reflexivity|].
  intros H. apply andb_true_iff in H as [Ha Hl].
  destruct (q a); simpl; [rewrite Ha|]; auto.
Qed.

(** Empty or white-space-only text is marked missing. *)
Lemma clean_value_whitespace s :
  whitespace_only s = true -> clean_value s = Ok nan.
Proof.
  intros H. unfold clean_value, residual, strip.
  rewrite strip_all; [reflexivity|]. now apply forallb_filter.
Qed.

Lemma all_int64_nth xs zs :
  all_int64 xs = Some zs ->
  forall i o, nth_error xs i = Some o -> exists z, o = Number z.
Proof.
  revert zs; induction xs as [|a xs IH]; intros zs H i o Ho; simpl in H.
  - destruct i; discriminate.
  - destruct (int64_of_obj a) eqn:Ia; [|discriminate].
    destruct (all_int64 xs) eqn:Ix; [|discriminate].
    destruct i as [|i]; simpl in Ho.
    + inversion Ho; subst. destruct o; simpl in Ia; try discriminate. eauto.
    + eapply IH; eauto.
Qed.

(** ** Exceptions of the loader *)

Section LoaderFailures.

Variable floatify : pystr -> option float64.

Lemma clean_columns_raises cols : forall df e,
  clean_columns cols df = Raise e -> exists t, e = ValueError t.
Proof.
  induction cols as [|col cols IH]; intros df e H; simpl in H; [discriminate|].
  unfold has_col, get_col in H.
  destruct (lookup df col) as [x|]; simpl in H; [|eauto].
  destruct (clean_money_optimized x) as [x'|e'] eqn:C; simpl in H; [eauto|].
  inversion H; subst. eapply clean_money_raises_ValueError; eauto.
Qed.

Lemma get_cols_raises df cols e :
  get_cols df cols = Raise e ->
  e = KeyError (filter (fun col => negb (has_col df col)) cols).
Proof.
  unfold get_cols. destruct (filter _ cols) as [|m ms] eqn:F.
  - intros H. apply mapM_raise_inv in H as (c & Hin & Hc).
    unfold get_col in Hc. destruct (lookup df c) eqn:L; simpl in Hc; [discriminate|].
    assert (In c (filter (fun col => negb (has_col df col)) cols)) as Hf.
    { apply filter_In. split; [assumption|]. unfold has_col. now rewrite L. }
    rewrite F in Hf. destruct Hf.
  - now intros [= <-].
Qed.

(** Once the file is read, the body of the [try] raises nothing but the
    [ValueError] of the cleaning and the [KeyError] of a missing label. *)
Lemma load_body_raises df e :
  load_body floatify (Ok df) = Raise e ->
  (exists t, e = ValueError t) \/ (exists labels, e = KeyError labels).
Proof.
  cbv beta iota delta [load_body bind].
  destruct (clean_columns monetary_columns df) as [df1|e1] eqn:C1.
  - unfold get_col at 1. destruct (lookup df1 CANTIDAD) as [q|].
    + destruct (get_cols _ monetary_columns) as [sub|e2] eqn:G; [discriminate|].
      intros [= <-]. right. apply get_cols_raises in G. eauto.
    + intros [= <-]. right. eauto.
  - intros [= <-]. left. eapply clean_columns_raises; eauto.
Qed.


Lemma load_failure csv e :
  load_body floatify csv = Raise e ->
  load_data_optimized floatify csv = ([Error (handler e)], None).
Proof. unfold load_data_optimized. now intros ->. Qed.

Lemma load_success csv df :
  load_body floatify csv = Ok df ->
  load_data_optimized floatify csv = ([], Some df).
Proof. unfold load_data_optimized. now intros ->. Qed.

Lemma load_some csv shown df :
  load_data_optimized floatify csv = (shown, Some df) ->
  load_body floatify csv = Ok df.
Proof.
  unfold load_data_optimized. destruct (load_body floatify csv); now intros [= <- <-].
Qed.

Lemma load_body_read_error e : load_body floatify (Raise e) = Raise e.
Proof. reflexivity. Qed.

End LoaderFailures.

(** ** The quantity column never fails a load *)

Lemma set_col_swap df c x col y :
  PyStr.eqb col c = false -> has_col df c = true -> has_col df col = true ->
  set_col (set_col df c x) col y = set_col (set_col df col y) c x.
Proof.
  intros Hne. unfold has_col.
  induction df as [|[name old] rest IH]; simpl; [discriminate|].
  destruct (PyStr.eqb name c) eqn:Ec; destruct (PyStr.eqb name col) eqn:Ecol; simpl;
    rewrite ?Ec, ?Ecol; try reflexivity.
  - apply eqb_eq in Ec, Ecol. subst. now rewrite eqb_refl in Hne.
  - intros Hc Hcol. f_equal. now apply IH.
Qed.

Lemma has_col_set_col df c x col :
  has_col df c = true -> has_col (set_col df c x) col = has_col df col.
Proof.
  unfold has_col. intros H. rewrite lookup_set_col.
  destruct (PyStr.eqb col c) eqn:E; [|reflexivity].
  apply eqb_eq in E. subst. destruct (lookup df c); [reflexivity|discriminate].
Qed.

(** Replacing a column outside the monetary list commutes with the cleaning
    loop. *)
Lemma clean_columns_set_col cols c x : forall df df1,
  mem c cols = false -> has_col df c = true ->
  clean_columns cols df = Ok df1 ->
  clean_columns cols (set_col df c x) = Ok (set_col df1 c x).
Proof.
  induction cols as [|col cols IH]; intros df df1 Hm Hc H; simpl in *.
  - now inversion H.
  - apply orb_false_iff in Hm as [Hne Hm].
    rewrite (has_col_set_col df c x col Hc).
    destruct (has_col df col) eqn:Hcol; [|now apply IH].
    unfold get_col in *. rewrite lookup_set_col_other by (now rewrite eqb_sym).
    destruct (lookup df col) as [y|]; simpl in *; [|discriminate].
    destruct (clean_money_optimized y) as [y'|]; simpl in *; [|discriminate].
    rewrite set_col_swap by (assumption || now rewrite eqb_sym).
    apply IH; [assumption| |assumption].
    unfold has_col. rewrite lookup_set_col_other by assumption.
    exact Hc.
Qed.

Lemma get_cols_has df cols sub :
  get_cols df cols = Ok sub -> forallb (has_col df) cols = true.
Proof.
  unfold get_cols. intros H. apply forallb_forall. intros col Hin.
  destruct (has_col df col) eqn:Hc; [reflexivity|].
  assert (In col (filter (fun col => negb (has_col df col)) cols)) as Hf
    by (apply filter_In; now rewrite Hc).
  destruct (filter _ cols); [destruct Hf|discriminate].
Qed.

Lemma get_cols_total df cols :
  forallb (has_col df) cols = true -> exists sub, get_cols df cols = Ok sub.
Proof.
  intros H. unfold get_cols. rewrite (filter_none _ _ H).
  induction cols as [|col cols IH]; simpl in *; [eauto|].
  apply andb_true_iff in H as [Hc H]. destruct (IH H) as [sub ->].
  apply has_col_lookup in Hc as [y Hy]. unfold get_col. rewrite Hy. simpl. eauto.
Qed.

Lemma load_body_inv floatify df df' :
  load_body floatify (Ok df) = Ok df' ->
  exists df1 q sub,
    clean_columns monetary_columns df = Ok df1
    /\ lookup df1 CANTIDAD = Some q
    /\ get_cols (set_col df1 CANTIDAD (fillna 1 (to_numeric_coerce floatify q)))
                monetary_columns = Ok sub.
Proof.
  cbv beta iota delta [load_body bind].
  destruct (clean_columns monetary_columns df) as [df1|] eqn:C1; [|discriminate].
  unfold get_col at 1. destruct (lookup df1 CANTIDAD) as [q|] eqn:L; [|discriminate].
  destruct (get_cols _ monetary_columns) as [sub|] eqn:G; [|discriminate].
  intros _. exists df1, q, sub. auto.
Qed.

Lemma load_body_intro floatify df df1 q sub :
  clean_columns monetary_columns df = Ok df1 ->
  lookup df1 CANTIDAD = Some q ->
  get_cols (set_col df1 CANTIDAD (fillna 1 (to_numeric_coerce floatify q)))
           monetary_columns = Ok sub ->
  exists df', load_body floatify (Ok df) = Ok df'.
Proof.
  intros C1 L G. cbv beta iota delta [load_body bind].
  rewrite C1. unfold get_col at 1. rewrite L, G. eauto.
Qed.

(** Whatever the quantity column holds, a table that loads still loads. *)
Lemma quantity_never_fails_load floatify df q df' :
  lookup df CANTIDAD = Some q ->
  load_body floatify (Ok df) = Ok df' ->
  forall q', exists df'', load_body floatify (Ok (set_col df CANTIDAD q')) = Ok df''.
Proof.
  intros Hq Hload q'.
  assert (HQ : mem CANTIDAD monetary_columns = false) by (vm_compute; reflexivity).
  assert (Hhas : has_col df CANTIDAD = true) by (unfold has_col; now rewrite Hq).
  destruct (load_body_inv _ _ _ Hload) as (df1 & q1 & sub & C1 & L1 & G).
  assert (Hhas1 : has_col df1 CANTIDAD = true)
    by (unfold has_col; now rewrite L1).
  assert (Hhas2 : has_col (set_col df1 CANTIDAD q') CANTIDAD = true)
    by (now rewrite has_col_set_col).
  apply get_cols_has in G.
  destruct (get_cols_total
              (set_col (set_col df1 CANTIDAD q') CANTIDAD
                 (fillna 1 (to_numeric_coerce floatify q')))
              monetary_columns) as [sub' G'].
  { revert G. apply forallb_impl. intros col.
    now rewrite !has_col_set_col. }
  eapply load_body_intro.
  - apply clean_columns_set_col; eassumption.
  - apply lookup_set_col_same.
  - exact G'.
Qed.

(** ** Masks and selections *)

Lemma SFcompare_refl (x : float64) : is_nan x = false -> SFcompare x x = Some Eq.
Proof.
  destruct x as [s|s| |s m e]; simpl; intros H; try discriminate.
  - reflexivity.
  - now destruct s.
  - rewrite Z.compare_refl, Pos.compare_cont_refl. now destruct s.
Qed.

Lemma same_refl (x : float64) : F64.same x x = true.
Proof.
  unfold F64.same, F64.eqb, SFeqb. destruct (is_nan x) eqn:N.
  - now rewrite orb_true_r.
  - now rewrite (SFcompare_refl x N).
Qed.

Lemma scalar_same_refl (v : scalar) : scalar_same v v = true.
Proof.
  destruct v; simpl; [apply Z.eqb_refl | apply same_refl | apply eqb_refl].
Qed.

Lemma scalar_in_rev v l : scalar_in v (rev l) = scalar_in v l.
Proof.
  unfold scalar_in. destruct (existsb (scalar_same v) l) eqn:E.
  - apply existsb_exists in E as (w & Hin & Hw). apply existsb_exists.
    exists w. split; [now apply in_rev in Hin|assumption].
  - destruct (existsb (scalar_same v) (rev l)) eqn:E'; [|reflexivity].
    apply existsb_exists in E' as (w & Hin & Hw). apply in_rev in Hin.
    assert (existsb (scalar_same v) l = true) by (apply existsb_exists; eauto).
    congruence.
Qed.

(** Every value of a series is matched by one of its distinct values. *)
Lemma unique_from_covers vs : forall seen v,
  In v vs \/ scalar_in v seen = true -> scalar_in v (unique_from seen vs) = true.
Proof.
  induction vs as [|w vs IH]; intros seen v H; simpl.
  - rewrite scalar_in_rev. destruct H as [[]|H]; assumption.
  - destruct (scalar_in w seen) eqn:W; apply IH.
    + destruct H as [[->|H]|H]; auto.
    + destruct H as [[->|H]|H]; auto; right; unfold scalar_in in *; simpl.
      * now rewrite scalar_same_refl.
      * now rewrite H, orb_true_r.
Qed.

Lemma isin_unique (c : column) : forallb (fun b => b) (isin c (unique c)) = true.
Proof.
  unfold isin, unique. apply forallb_forall. intros b Hb.
  apply in_map_iff in Hb as (v & <- & Hv). apply unique_from_covers. auto.
Qed.

Lemma values_length (c : column) : List.length (values c) = col_len c.
Proof. destruct c; simpl; apply length_map. Qed.

Lemma isin_length c vs : List.length (isin c vs) = col_len c.
Proof. unfold isin. now rewrite length_map, values_length. Qed.

Lemma keep_all {A} (mask : list bool) : forall xs : list A,
  forallb (fun b => b) mask = true -> List.length mask = List.length xs ->
  keep mask xs = xs.
Proof.
  induction mask as [|b mask IH]; intros [|x xs] Hall Hlen; simpl in *;
    try discriminate; [reflexivity|].
  apply andb_true_iff in Hall as [-> Hall]. f_equal. apply IH; [assumption|lia].
Qed.

Lemma keep_none {A} (mask : list bool) : forall xs : list A,
  existsb (fun b => b) mask = false -> keep mask xs = [].
Proof.
  induction mask as [|b mask IH]; intros [|x xs] H; simpl in *; try reflexivity.
  apply orb_false_iff in H as [-> H]. now apply IH.
Qed.

Lemma keep_rows_all mask c :
  forallb (fun b => b) mask = true -> List.length mask = col_len c ->
  keep_rows mask c = c.
Proof. intros Ha Hl. destruct c; simpl in *; now rewrite keep_all. Qed.

Lemma keep_rows_none mask c :
  existsb (fun b => b) mask = false -> col_len (keep_rows mask c) = 0%nat.
Proof. intros H. destruct c; simpl; now rewrite keep_none. Qed.

Lemma select_all n df mask :
  well_formed n df = true ->
  forallb (fun b => b) mask = true -> List.length mask = n ->
  select df mask = df.
Proof.
  intros Hwf Ha Hl. unfold select, well_formed in *.
  induction df as [|[name c] df IH]; simpl in *; [reflexivity|].
  apply andb_true_iff in Hwf as [Hc Hwf]. apply Nat.eqb_eq in Hc.
  rewrite keep_rows_all, IH; auto. congruence.
Qed.

Lemma select_none df mask :
  existsb (fun b => b) mask = false ->
  well_formed 0 (select df mask) = true /\ map fst (select df mask) = map fst df.
Proof.
  intros H. unfold select, well_formed.
  induction df as [|[name c] df [IH1 IH2]]; simpl; [auto|].
  rewrite (keep_rows_none _ _ H), IH1, IH2. auto.
Qed.

Lemma lookup_select df mask c :
  lookup (select df mask) c = option_map (keep_rows mask) (lookup df c).
Proof.
  unfold select. induction df as [|[name x] df IH]; simpl; [reflexivity|].
  destruct (PyStr.eqb name c); [reflexivity|assumption].
Qed.

Lemma well_formed_lookup n df c x :
  well_formed n df = true -> lookup df c = Some x -> col_len x = n.
Proof.
  unfold well_formed. induction df as [|[name y] df IH]; simpl; [discriminate|].
  intros H L. apply andb_true_iff in H as [Hy H].
  destruct (PyStr.eqb name c).
  - inversion L; subst. now apply Nat.eqb_eq.
  - auto.
Qed.

Lemma combine_and_all (a b : list bool) :
  forallb (fun x => x) a = true -> forallb (fun x => x) b = true ->
  forallb (fun x => x) (map (fun p => fst p && snd p) (combine a b)) = true.
Proof.
  revert b; induction a as [|x a IH]; intros [|y b] Ha Hb; simpl in *; try reflexivity.
  apply andb_true_iff in Ha as [-> Ha]. apply andb_true_iff in Hb as [-> Hb].
  simpl. auto.
Qed.

Lemma combine_and_left_false (a b : list bool) :
  existsb (fun x => x) a = false ->
  existsb (fun x => x) (map (fun p => fst p && snd p) (combine a b)) = false.
Proof.
  revert b; induction a as [|x a IH]; intros [|y b] Ha; simpl in *; try reflexivity.
  apply orb_false_iff in Ha as [-> Ha]. simpl. auto.
Qed.

Lemma combine_and_right_false (a b : list bool) :
  existsb (fun x => x) b = false ->
  existsb (fun x => x) (map (fun p => fst p && snd p) (combine a b)) = false.
Proof.
  revert b; induction a as [|x a IH]; intros [|y b] Hb; simpl in *; try reflexivity.
  apply orb_false_iff in Hb as [-> Hb]. rewrite andb_false_r. simpl. auto.
Qed.

Lemma isin_nil c : existsb (fun x => x) (isin c []) = false.
Proof.
  unfold isin. induction (values c) as [|v vs IH]; simpl; [reflexivity|assumption].
Qed.

(** ** Loading keeps the table rectangular *)

Lemma mapM_length {A B} (f : A -> result B) (xs : list A) (ys : list B) :
  mapM f xs = Ok ys -> List.length ys = List.length xs.
Proof.
  revert ys; induction xs as [|a xs IH]; intros ys H; simpl in H.
  - now inversion H.
  - destruct (f a); simpl in H; [|discriminate].
    destruct (mapM f xs) as [bs|]; simpl in H; [|discriminate].
    inversion H; subst. simpl. now rewrite (IH bs eq_refl).
Qed.

Lemma astype_str_length c : List.length (astype_str c) = col_len c.
Proof. destruct c; simpl; apply length_map. Qed.

Lemma clean_money_length c c' :
  clean_money_optimized c = Ok c' -> col_len c' = col_len c.
Proof.
  rewrite clean_money_by_value.
  destruct (mapM clean_value (astype_str c)) as [xs|] eqn:M; simpl; [|discriminate].
  intros [= <-]. simpl. rewrite (mapM_length _ _ _ M). apply astype_str_length.
Qed.

Lemma well_formed_set_col n df c x :
  well_formed n df = true -> col_len x = n -> well_formed n (set_col df c x) = true.
Proof.
  unfold well_formed. intros Hwf Hx.
  induction df as [|[name y] df IH]; simpl in *.
  - now rewrite Hx, Nat.eqb_refl.
  - apply andb_true_iff in Hwf as [Hy Hwf].
    destruct (PyStr.eqb name c); simpl.
    + now rewrite Hx, Nat.eqb_refl.
    + now rewrite Hy, IH.
Qed.

Lemma clean_columns_well_formed n cols : forall df df',
  well_formed n df = true -> clean_columns cols df = Ok df' ->
  well_formed n df' = true.
Proof.
  induction cols as [|col cols IH]; intros df df' Hwf H; simpl in H.
  - now inversion H; subst.
  - unfold has_col, get_col in H.
    destruct (lookup df col) as [x|] eqn:L; simpl in H; [|eauto].
    destruct (clean_money_optimized x) as [x'|] eqn:C; simpl in H; [|discriminate].
    apply (IH _ _ (well_formed_set_col n df col x' Hwf
                     (eq_trans (clean_money_length _ _ C)
                               (well_formed_lookup _ _ _ _ Hwf L))) H).
Qed.

Lemma all_int64_length xs zs :
  all_int64 xs = Some zs -> List.length zs = List.length xs.
Proof.
  revert zs; induction xs as [|a xs IH]; intros zs H; simpl in H.
  - now inversion H.
  - destruct (int64_of_obj a); [|discriminate].
    destruct (all_int64 xs) as [ys|]; [|discriminate].
    inversion H; subst. simpl. now rewrite (IH ys eq_refl).
Qed.

Lemma to_numeric_length floatify c :
  col_len (to_numeric_coerce floatify c) = col_len c.
Proof.
  destruct c as [| |xs]; simpl; try reflexivity.
  destruct (all_int64 xs) as [zs|] eqn:A; simpl.
  - now apply all_int64_length.
  - apply length_map.
Qed.

Lemma fillna_length v c : col_len (fillna v c) = col_len c.
Proof. destruct c; simpl; try reflexivity; apply length_map. Qed.

Lemma set_cols_well_formed n sub : forall df,
  well_formed n df = true ->
  Forall (fun p => col_len (snd p) = n) sub ->
  well_formed n (set_cols df sub) = true.
Proof.
  unfold set_cols. induction sub as [|[k x] sub IH]; intros df Hwf Hs; simpl.
  - assumption.
  - inversion Hs; subst. apply IH; [|assumption].
    now apply well_formed_set_col.
Qed.

Lemma load_well_formed floatify n df df' :
  well_formed n df = true ->
  load_body floatify (Ok df) = Ok df' ->
  well_formed n df' = true.
Proof.
  intros Hwf. cbv beta iota delta [load_body bind].
  destruct (clean_columns monetary_columns df) as [df1|] eqn:C1; [|discriminate].
  pose proof (clean_columns_well_formed _ _ _ _ Hwf C1) as Hwf1.
  unfold get_col at 1.
  destruct (lookup df1 CANTIDAD) as [q|] eqn:LQ; [|discriminate].
  set (df2 := set_col df1 CANTIDAD _).
  assert (Hwf2 : well_formed n df2 = true).
  { apply well_formed_set_col; [assumption|].
    rewrite fillna_length, to_numeric_length.
    apply (well_formed_lookup n df1 CANTIDAD); assumption. }
  destruct (get_cols df2 monetary_columns) as [sub|] eqn:G; [|discriminate].
  intros [= <-]. apply set_cols_well_formed; [assumption|].
  destruct (get_cols_ok _ _ _ G) as [_ Hv].
  apply Forall_map. eapply Forall_impl; [|exact Hv].
  intros p Hp. simpl. rewrite fillna_length.
  apply (well_formed_lookup n df2 (fst p)); assumption.
Qed.

(** ** Aggregations over a view without rows *)

Lemma empty_column c :
  col_len c = 0%nat -> c = ColInt [] \/ c = ColFloat [] \/ c = ColObject [].
Proof.
  destruct c as [[|]|[|]|[|]]; simpl; intros H; try discriminate; auto.
Qed.

Lemma empty_view_column view c :
  well_formed 0 view = true -> has_col view c = true ->
  exists x, lookup view c = Some x
            /\ (x = ColInt [] \/ x = ColFloat [] \/ x = ColObject []).
Proof.
  intros Hwf Hc. apply has_col_lookup in Hc as [x Hx]. exists x.
  split; [assumption|]. apply empty_column. eapply well_formed_lookup; eauto.
Qed.

(** The mean of every listed column of a view without rows is NaN. *)
Lemma means_of_empty view cols :
  well_formed 0 view = true -> forallb (has_col view) cols = true ->
  (sub <- get_cols view cols ;;
   mapM (fun p => m <- series_mean (snd p) ;; Ok (fst p, m)) sub)
  = Ok (map (fun c => (c, nan)) cols).
Proof.
  intros Hwf Hall. unfold get_cols. rewrite (filter_none _ _ Hall).
  induction cols as [|c cols IH]; simpl in *; [reflexivity|].
  apply andb_true_iff in Hall as [Hc Hall].
  destruct (empty_view_column _ _ Hwf Hc) as (x & Hx & Hcases).
  unfold get_col at 1. rewrite Hx. simpl.
  specialize (IH Hall).
  destruct (mapM (fun col => c0 <- get_col view col ;; Ok (col, c0)) cols) as [sub|];
    simpl in *; [|discriminate].
  destruct Hcases as [->|[->| ->]]; simpl;
    (destruct (mapM _ sub); simpl in *; [now inversion IH|discriminate]).
Qed.

(** ** Stripping *)

Lemma forallb_rev {A} (p : A -> bool) (l : list A) : forallb p (rev l) = forallb p l.
Proof.
  induction l as [|a l IH]; simpl; [reflexivity|].
  rewrite forallb_app, IH. simpl. rewrite andb_true_r. apply andb_comm.
Qed.

Section Strip.

Variable sp : char -> bool.

Lemma lstrip_pad P s : forallb sp P = true -> lstrip_by sp (P ++ s) = lstrip_by sp s.
Proof.
  induction P as [|c P IH]; simpl; [reflexivity|].
  intros H. apply andb_true_iff in H as [-> H]. auto.
Qed.

(** What [lstrip] removes is white space, and it removes all of it. *)
Lemma lstrip_decompose s :
  exists P, s = P ++ lstrip_by sp s /\ forallb sp P = true.
Proof.
  induction s as [|c s (P & Hs & HP)]; simpl.
  - exists []. auto.
  - destruct (sp c) eqn:E.
    + exists (c :: P). simpl. rewrite E. split; [now f_equal|assumption].
    + exists []. auto.
Qed.

Lemma lstrip_app s Q :
  lstrip_by sp s <> [] -> lstrip_by sp (s ++ Q) = lstrip_by sp s ++ Q.
Proof.
  induction s as [|c s IH]; simpl; [congruence|].
  destruct (sp c); [assumption|reflexivity].
Qed.

Lemma lstrip_all_pad s Q :
  lstrip_by sp s = [] -> forallb sp Q = true -> lstrip_by sp (s ++ Q) = [].
Proof.
  induction s as [|c s IH]; simpl.
  - intros _ H. now apply lstrip_all.
  - destruct (sp c); [assumption|discriminate].
Qed.

Lemma rstrip_pad s Q : forallb sp Q = true -> rstrip_by sp (s ++ Q) = rstrip_by sp s.
Proof.
  intros H. unfold rstrip_by. rewrite rev_app_distr, lstrip_pad; [reflexivity|].
  now rewrite forallb_rev.
Qed.

(** White space around a text does not change what [strip] returns. *)
Lemma strip_pad P s Q :
  forallb sp P = true -> forallb sp Q = true ->
  strip_by sp (P ++ s ++ Q) = strip_by sp s.
Proof.
  intros HP HQ. unfold strip_by. rewrite (lstrip_pad _ _ HP).
  destruct (lstrip_by sp s) as [|c r] eqn:L.
  - now rewrite (lstrip_all_pad _ _ L HQ).
  - rewrite lstrip_app by congruence. rewrite L. now apply rstrip_pad.
Qed.

Lemma rstrip_decompose s :
  exists Q, s = rstrip_by sp s ++ Q /\ forallb sp Q = true.
Proof.
  unfold rstrip_by. destruct (lstrip_decompose (rev s)) as (P & Hs & HP).
  exists (rev P). split; [|now rewrite forallb_rev].
  rewrite <- rev_app_distr, <- Hs. now rewrite rev_involutive.
Qed.

Lemma strip_decompose s :
  exists P Q, s = P ++ strip_by sp s ++ Q
              /\ forallb sp P = true /\ forallb sp Q = true.
Proof.
  destruct (lstrip_decompose s) as (P & Hs & HP).
  destruct (rstrip_decompose (lstrip_by sp s)) as (Q & Hl & HQ).
  exists P, Q. unfold strip_by. rewrite <- Hl. auto.
Qed.

End Strip.

(** ** The text [float()] accepts *)

(** Boolean facts about one character: hypotheses are turned into bounds,
    and each comparison of the goal is then settled by arithmetic. *)
Ltac nbool :=
  repeat match goal with
  | H : _ && _ = true |- _ => apply andb_true_iff in H; destruct H
  | H : _ || _ = true |- _ => apply orb_true_iff in H; destruct H
  | H : _ || _ = false |- _ => apply orb_false_iff in H; destruct H
  | H : negb _ = true |- _ => apply negb_true_iff in H
  | H : negb _ = false |- _ => apply negb_false_iff in H
  | H : (_ <=? _)%N = true |- _ => apply N.leb_le in H
  | H : (_ <=? _)%N = false |- _ => apply N.leb_gt in H
  | H : (_ <? _)%N = true |- _ => apply N.ltb_lt in H
  | H : (_ <? _)%N = false |- _ => apply N.ltb_ge in H
  | H : (_ =? _)%N = true |- _ => apply N.eqb_eq in H
  | H : (_ =? _)%N = false |- _ => apply N.eqb_neq in H
  end.

Ltac settle_atoms :=
  repeat match goal with
  | |- context [(?a <=? ?b)%N] =>
      first [ replace (a <=? b)%N with true by (symmetry; apply N.leb_le; lia)
            | replace (a <=? b)%N with false by (symmetry; apply N.leb_gt; lia) ]
  | |- context [(?a <? ?b)%N] =>
      first [ replace (a <? b)%N with true by (symmetry; apply N.ltb_lt; lia)
            | replace (a <? b)%N with false by (symmetry; apply N.ltb_ge; lia) ]
  | |- context [(?a =? ?b)%N] =>
      first [ replace (a =? b)%N with true by (symmetry; apply N.eqb_eq; lia)
            | replace (a =? b)%N with false by (symmetry; apply N.eqb_neq; lia) ]
  end; try reflexivity.

Lemma numeric_char_bounds c : numeric_char c = true -> (43 <= c <= 122)%N.
Proof. unfold numeric_char, is_digit, is_letter. intros H. nbool; lia. Qed.

Lemma numeric_not_space c : numeric_char c = true -> is_space c = false.
Proof.
  intros H. apply numeric_char_bounds in H. unfold is_space. settle_atoms.
Qed.

Lemma c_space_is_space c : is_c_space c = true -> is_space c = true.
Proof.
  unfold is_c_space. intros H. nbool.
  - unfold is_space. replace (9 <=? c)%N with true by (symmetry; apply N.leb_le; lia).
    replace (c <=? 13)%N with true by (symmetry; apply N.leb_le; lia). reflexivity.
  - subst c. reflexivity.
Qed.

Lemma float_space_is_space c : float_space c = true -> is_space c = true.
Proof.
  unfold float_space. intros H. apply orb_true_iff in H as [H|H].
  - now apply c_space_is_space.
  - now apply andb_true_iff in H as [H _].
Qed.

Lemma float_space_to_blank c : float_space c = true -> is_c_space (to_blank c) = true.
Proof.
  unfold float_space, to_blank. destruct (N.ltb_spec c 127) as [Hlt|Hge]; [|reflexivity].
  intros Hf. apply orb_true_iff in Hf as [Hf|Hf]; [assumption|].
  apply andb_true_iff in Hf as [_ Hf]. apply N.leb_le in Hf. lia.
Qed.

Lemma digit_is_numeric c : is_digit c = true -> numeric_char c = true.
Proof. unfold numeric_char. now intros ->. Qed.

(** *** What the scanners consume *)

Lemma span_digits_spec s : forall ds r,
  span_digits s = (ds, r) -> s = ds ++ r /\ forallb is_digit ds = true.
Proof.
  induction s as [|c s IH]; simpl; intros ds r H.
  - inversion H. auto.
  - destruct (is_digit c) eqn:D.
    + destruct (span_digits s) as [ds' r'] eqn:S. inversion H; subst.
      destruct (IH ds' r eq_refl) as [-> Hd]. simpl. now rewrite D.
    + inversion H. auto.
Qed.

Lemma parse_sign_spec s b r :
  parse_sign s = (b, r) -> exists p, s = p ++ r /\ forallb numeric_char p = true.
Proof.
  unfold parse_sign. destruct s as [|c s]; [intros [= _ <-]; exists []; auto|].
  destruct (N.eqb_spec c 45) as [->|_]; [intros [= _ <-]; exists [45%N]; auto|].
  destruct (N.eqb_spec c 43) as [->|_]; [intros [= _ <-]; exists [43%N]; auto|].
  intros [= _ <-]. exists []. auto.
Qed.

Lemma lower_letter c a :
  lower c = a -> (97 <=? a)%N && (a <=? 122)%N = true -> numeric_char c = true.
Proof.
  unfold lower. intros <- H.
  destruct ((65 <=? c)%N && (c <=? 90)%N) eqn:U.
  - unfold numeric_char, is_letter. rewrite U. simpl. now rewrite orb_true_r.
  - unfold numeric_char, is_letter. rewrite H. simpl. now rewrite !orb_true_r.
Qed.

Lemma match_nocase_spec t : forall s r,
  forallb (fun a => (97 <=? a)%N && (a <=? 122)%N) t = true ->
  match_nocase t s = Some r ->
  exists p, s = p ++ r /\ forallb numeric_char p = true.
Proof.
  induction t as [|a t IH]; simpl; intros s r Ht H.
  - inversion H. exists []. auto.
  - apply andb_true_iff in Ht as [Ha Ht].
    destruct s as [|c s]; [discriminate|].
    destruct (N.eqb_spec (lower c) a) as [E|]; [|discriminate].
    destruct (IH s r Ht H) as (p & -> & Hp).
    exists (c :: p). simpl. rewrite Hp, (lower_letter c a E Ha). auto.
Qed.

Lemma exp_mark_numeric c : is_exp_mark c = true -> numeric_char c = true.
Proof.
  unfold is_exp_mark. intros H. nbool; subst c; reflexivity.
Qed.

Lemma digits_are_numeric ds :
  forallb is_digit ds = true -> forallb numeric_char ds = true.
Proof.
  intros H. apply forallb_forall. intros a Ha. apply digit_is_numeric.
  rewrite forallb_forall in H. auto.
Qed.

Lemma parse_fraction_spec s fp r :
  parse_fraction s = (fp, r) ->
  exists p, s = p ++ r /\ forallb numeric_char p = true.
Proof.
  unfold parse_fraction. destruct s as [|c s]; [intros [= _ <-]; exists []; auto|].
  destruct (N.eqb_spec c 46) as [->|_]; [|intros [= _ <-]; exists []; auto].
  intros H. destruct (span_digits_spec _ _ _ H) as (-> & Hd).
  exists (46%N :: fp). simpl. split; [reflexivity|]. now apply digits_are_numeric.
Qed.

Lemma parse_exponent_spec s e r :
  parse_exponent s = (e, r) ->
  exists p, s = p ++ r /\ forallb numeric_char p = true.
Proof.
  unfold parse_exponent. destruct s as [|c s]; [intros [= _ <-]; exists []; auto|].
  destruct (is_exp_mark c) eqn:Ec; [|intros [= _ <-]; exists []; auto].
  destruct (parse_sign s) as [eneg r1] eqn:E1.
  destruct (span_digits r1) as [ed r2] eqn:E2.
  destruct (parse_sign_spec _ _ _ E1) as (p1 & -> & Hp1).
  destruct (span_digits_spec _ _ _ E2) as (-> & Hed).
  destruct ed as [|d0 ed]; [intros [= _ <-]; exists []; auto|].
  intros [= _ <-]. exists (c :: p1 ++ d0 :: ed).
  split; [simpl; now rewrite <- app_assoc|].
  simpl. rewrite (exp_mark_numeric _ Ec), forallb_app, Hp1. simpl.
  now apply (digits_are_numeric (d0 :: ed)).
Qed.

(** [strtod] consumes characters of a number only. *)
Lemma strtod_spec s x rest :
  strtod s = Some (x, rest) ->
  exists p, s = p ++ rest /\ forallb numeric_char p = true.
Proof.
  unfold strtod.
  destruct (parse_sign s) as [neg s1] eqn:E1.
  destruct (span_digits s1) as [ip s2] eqn:E2.
  destruct (parse_fraction s2) as [fp s3] eqn:E3.
  destruct (ip ++ fp) as [|m0 mant]; [discriminate|].
  destruct (parse_exponent s3) as [e r] eqn:E4.
  intros [= _ <-].
  destruct (parse_sign_spec _ _ _ E1) as (p1 & -> & Hp1).
  destruct (span_digits_spec _ _ _ E2) as (-> & Hip).
  destruct (parse_fraction_spec _ _ _ E3) as (p3 & -> & Hp3).
  destruct (parse_exponent_spec _ _ _ E4) as (p4 & -> & Hp4).
  exists (p1 ++ ip ++ p3 ++ p4). split; [now rewrite <- !app_assoc|].
  rewrite !forallb_app, Hp1, Hp3, Hp4, (digits_are_numeric _ Hip). reflexivity.
Qed.

Lemma parse_inf_or_nan_spec s x rest :
  parse_inf_or_nan s = Some (x, rest) ->
  exists p, s = p ++ rest /\ forallb numeric_char p = true.
Proof.
  unfold parse_inf_or_nan.
  destruct (parse_sign s) as [neg s1] eqn:E1.
  destruct (parse_sign_spec _ _ _ E1) as (p1 & -> & Hp1).
  destruct (match_nocase (u "inf") s1) as [r|] eqn:Ei.
  - destruct (match_nocase_spec (u "inf") _ _ eq_refl Ei) as (p2 & -> & Hp2).
    destruct (match_nocase (u "inity") r) as [r'|] eqn:Ey.
    + destruct (match_nocase_spec (u "inity") _ _ eq_refl Ey) as (p3 & -> & Hp3).
      intros [= _ <-]. exists (p1 ++ p2 ++ p3).
      split; [now rewrite <- !app_assoc|]. now rewrite !forallb_app, Hp1, Hp2, Hp3.
    + intros [= _ <-]. exists (p1 ++ p2).
      split; [now rewrite <- !app_assoc|]. now rewrite !forallb_app, Hp1, Hp2.
  - destruct (match_nocase (u "nan") s1) as [r|] eqn:En; [|discriminate].
    destruct (match_nocase_spec (u "nan") _ _ eq_refl En) as (p2 & -> & Hp2).
    intros [= _ <-]. exists (p1 ++ p2).
    split; [now rewrite <- !app_assoc|]. now rewrite !forallb_app, Hp1, Hp2.
Qed.

(** A text that [float()] reads to its end is made of numeric characters. *)
Lemma ascii_strtod_numeric s x :
  ascii_strtod s = Some (x, []) -> forallb numeric_char s = true.
Proof.
  unfold ascii_strtod. intros H.
  assert (exists p, s = p ++ [] /\ forallb numeric_char p = true) as (p & -> & Hp).
  { destruct (strtod s) as [[y r]|] eqn:E.
    - inversion H; subst. eapply strtod_spec; eauto.
    - eapply parse_inf_or_nan_spec; eauto. }
  now rewrite app_nil_r.
Qed.

(** *** Underscores and blanks *)

Lemma c_space_facts c :
  is_c_space c = true -> (c =? 95)%N = false /\ is_digit c = false.
Proof.
  unfold is_c_space, is_digit. intros H. nbool; split; settle_atoms.
Qed.

Lemma drop_underscores_prev a b s :
  is_digit a = is_digit b -> (a =? 95)%N = (b =? 95)%N ->
  drop_underscores a s = drop_underscores b s.
Proof.
  intros Hd Hu. destruct s as [|c s]; simpl; now rewrite ?Hd, ?Hu.
Qed.

(** Only underscores are dropped. *)
Lemma drop_underscores_chars (f : char -> bool) s : forall prev r,
  drop_underscores prev s = Some r -> forallb f r = true ->
  forallb (fun c => (c =? 95)%N || f c) s = true.
Proof.
  induction s as [|c s IH]; simpl; intros prev r H Hr; [reflexivity|].
  destruct (c =? 95)%N eqn:E; simpl.
  - destruct (is_digit prev); [eauto|discriminate].
  - destruct ((prev =? 95)%N && negb (is_digit c)); [discriminate|].
    destruct (drop_underscores c s) as [r'|] eqn:D; simpl in H; [|discriminate].
    inversion H; subst r. simpl in Hr. apply andb_true_iff in Hr as [-> Hr].
    simpl. eauto.
Qed.

Lemma drop_underscores_spaces Q : forall prev,
  forallb is_c_space Q = true ->
  drop_underscores prev Q = if (prev =? 95)%N then None else Some Q.
Proof.
  induction Q as [|c Q IH]; simpl; intros prev H; [reflexivity|].
  apply andb_true_iff in H as [Hc HQ].
  destruct (c_space_facts c Hc) as [Hu Hd]. rewrite Hu, Hd, (IH c HQ), Hu. simpl.
  destruct (prev =? 95)%N; reflexivity.
Qed.

Lemma drop_underscores_suffix Q s : forall prev,
  forallb is_c_space Q = true ->
  drop_underscores prev (s ++ Q)
  = option_map (fun r => r ++ Q) (drop_underscores prev s).
Proof.
  intros prev HQ. revert prev.
  induction s as [|c s IH]; intros prev; simpl.
  - rewrite (drop_underscores_spaces Q prev HQ). destruct (prev =? 95)%N; reflexivity.
  - destruct (c =? 95)%N.
    + destruct (is_digit prev); [apply IH|reflexivity].
    + destruct ((prev =? 95)%N && negb (is_digit c)); [reflexivity|].
      rewrite IH. destruct (drop_underscores c s); reflexivity.
Qed.

Lemma drop_underscores_prefix P s : forall prev,
  forallb is_c_space P = true ->
  is_digit prev = false -> (prev =? 95)%N = false ->
  drop_underscores prev (P ++ s) = option_map (app P) (drop_underscores 0%N s).
Proof.
  induction P as [|c P IH]; intros prev HP Hd Hu; simpl.
  - rewrite (drop_underscores_prev prev 0%N s Hd Hu).
    destruct (drop_underscores 0%N s); reflexivity.
  - apply andb_true_iff in HP as [Hc HP].
    destruct (c_space_facts c Hc) as [Hcu Hcd]. rewrite Hcu, Hu. simpl.
    rewrite (IH c HP Hcd Hcu). destruct (drop_underscores 0%N s); reflexivity.
Qed.

Lemma no_underscore_in_spaces P :
  forallb is_c_space P = true -> existsb (N.eqb 95) P = false.
Proof.
  induction P as [|c P IH]; cbn [existsb forallb]; [reflexivity|].
  intros H. apply andb_true_iff in H as [Hc HP].
  destruct (c_space_facts c Hc) as [Hu _]. rewrite N.eqb_sym, Hu. simpl. auto.
Qed.

Lemma inner_pad P s Q :
  forallb is_c_space P = true -> forallb is_c_space Q = true ->
  float_from_string_inner (P ++ s ++ Q) = float_from_string_inner s.
Proof.
  intros HP HQ. unfold float_from_string_inner. now rewrite strip_pad.
Qed.

(** Blanks around a text do not change what is read from it. *)
Lemma with_underscores_pad P s Q :
  forallb is_c_space P = true -> forallb is_c_space Q = true ->
  with_underscores (P ++ s ++ Q) = with_underscores s.
Proof.
  intros HP HQ. unfold with_underscores.
  rewrite !existsb_app.
  rewrite (no_underscore_in_spaces _ HP), (no_underscore_in_spaces _ HQ).
  rewrite orb_false_r. simpl.
  destruct (existsb (N.eqb 95) s).
  - rewrite (drop_underscores_prefix P (s ++ Q) 0%N HP eq_refl eq_refl).
    rewrite (drop_underscores_suffix Q s 0%N HQ).
    destruct (drop_underscores 0%N s) as [r|]; simpl; [|reflexivity].
    now apply inner_pad.
  - now apply inner_pad.
Qed.

(** *** The characters of a readable text *)

Lemma inner_chars s v :
  float_from_string_inner s = Some v ->
  forallb (fun c => is_c_space c || numeric_char c) s = true.
Proof.
  unfold float_from_string_inner.
  destruct (strip_decompose is_c_space s) as (P & Q & Hs & HP & HQ).
  destruct (strip_by is_c_space s) as [|b body] eqn:B; [discriminate|].
  destruct (ascii_strtod (b :: body)) as [[x r]|] eqn:A; [|discriminate].
  destruct r; [|discriminate]. intros _.
  apply ascii_strtod_numeric in A.
  rewrite Hs, !forallb_app.
  rewrite (forallb_impl is_c_space _ P), (forallb_impl is_c_space _ Q),
    (forallb_impl numeric_char _ (b :: body)); auto; intros c Hc; rewrite Hc;
    auto using orb_true_r.
Qed.

Lemma with_underscores_chars s v :
  with_underscores s = Some v ->
  forallb (fun c => (c =? 95)%N || (is_c_space c || numeric_char c)) s = true.
Proof.
  unfold with_underscores. destruct (existsb (N.eqb 95) s).
  - destruct (drop_underscores 0%N s) as [t|] eqn:D; [|discriminate].
    intros H. apply inner_chars in H. eapply drop_underscores_chars; eauto.
  - intros H. apply inner_chars in H. revert H. apply forallb_impl.
    intros c ->. apply orb_true_r.
Qed.

Lemma to_ascii_kept t :
  forallb (fun c => negb (c =? 63)%N) (to_ascii t) = true ->
  forallb (fun c => (c <? 127)%N || is_space c) t = true.
Proof.
  induction t as [|c t IH]; [reflexivity|].
  cbn [to_ascii forallb]. destruct (c <? 127)%N; cbn [forallb orb andb].
  - intros H. apply andb_true_iff in H as [_ H]. auto.
  - destruct (is_space c); cbn [forallb andb]; [|discriminate].
    intros H. apply andb_true_iff in H as [_ H]. auto.
Qed.

Lemma to_ascii_blanks t :
  forallb (fun c => (c <? 127)%N || is_space c) t = true ->
  to_ascii t = map to_blank t.
Proof.
  induction t as [|c t IH]; [reflexivity|].
  cbn [to_ascii forallb map]. intros H. apply andb_true_iff in H as [Hc H].
  unfold to_blank at 1.
  destruct (c <? 127)%N; cbn [orb] in Hc; [now rewrite IH|].
  rewrite Hc. now rewrite IH.
Qed.

(** A text that [float()] reads is made of white space, numeric characters
    and underscores, and [transform] only blanks its white space. *)
Lemma py_float_chars t v : py_float t = Some v -> forallb float_char t = true.
Proof.
  unfold py_float, transform. intros H. apply with_underscores_chars in H.
  destruct (forallb (fun c => (c <? 128)%N) t) eqn:Asc.
  - revert H. apply forallb_impl. intros c Hc. unfold float_char, float_space.
    apply orb_true_iff in Hc as [Hc|Hc]; [now rewrite Hc, orb_true_r|].
    apply orb_true_iff in Hc as [Hc|Hc]; rewrite Hc; [reflexivity|].
    now rewrite orb_true_r.
  - assert (Hq : forallb (fun c => negb (c =? 63)%N) (to_ascii t) = true).
    { revert H. apply forallb_impl. intros c Hc.
      destruct (N.eqb_spec c 63) as [->|]; [discriminate|reflexivity]. }
    pose proof (to_ascii_kept t Hq) as Hk.
    rewrite (to_ascii_blanks t Hk) in H.
    apply forallb_forall. intros c Hin.
    rewrite forallb_forall in Hk. specialize (Hk c Hin).
    rewrite forallb_forall in H.
    specialize (H (to_blank c) (in_map to_blank t c Hin)).
    unfold to_blank in H. unfold float_char, float_space.
    destruct (N.ltb_spec c 127) as [Hlt|Hge].
    + apply orb_true_iff in H as [H|H]; [now rewrite H, orb_true_r|].
      apply orb_true_iff in H as [H|H]; rewrite H; [reflexivity|].
      now rewrite orb_true_r.
    + simpl in Hk. rewrite Hk.
      replace (127 <=? c)%N with true by (symmetry; now apply N.leb_le).
      simpl. now rewrite orb_true_r.
Qed.

Lemma float_char_cases c :
  float_char c = true ->
  (float_space c = true /\ is_space c = true)
  \/ (is_space c = false /\ (c < 127)%N).
Proof.
  unfold float_char. intros H. apply orb_true_iff in H as [H|H].
  - apply orb_true_iff in H as [H|H].
    + left. split; [assumption|now apply float_space_is_space].
    + right. split; [now apply numeric_not_space|].
      apply numeric_char_bounds in H. lia.
  - apply N.eqb_eq in H. subst c. right. split; [reflexivity|lia].
Qed.

Lemma transform_blanks t :
  forallb float_char t = true -> transform t = map to_blank t.
Proof.
  intros H. unfold transform.
  destruct (forallb (fun c => (c <? 128)%N) t) eqn:Asc.
  - symmetry. rewrite <- (map_id t) at 2. apply map_ext_in. intros c Hin.
    rewrite forallb_forall in H, Asc. specialize (H c Hin). specialize (Asc c Hin).
    apply N.ltb_lt in Asc. unfold to_blank.
    destruct (N.ltb_spec c 127) as [|Hge]; [reflexivity|].
    assert (c = 127%N) as -> by lia. discriminate.
  - apply to_ascii_blanks. revert H. apply forallb_impl. intros c Hc.
    destruct (float_char_cases c Hc) as [[_ ->]|[_ Hlt]]; [apply orb_true_r|].
    apply N.ltb_lt in Hlt. now rewrite Hlt.
Qed.

(** Stripping a text that [float()] reads does not change what it reads. *)
Lemma py_float_strip t v : py_float t = Some v -> py_float (strip t) = Some v.
Proof.
  intros H. pose proof (py_float_chars t v H) as Hchars.
  destruct (strip_decompose is_space t) as (P & Q & Ht & HP & HQ).
  fold (strip t) in Ht.
  rewrite Ht, !forallb_app in Hchars.
  apply andb_true_iff in Hchars as [HcP Hchars].
  apply andb_true_iff in Hchars as [HcK HcQ].
  assert (Hpad : forall X, forallb is_space X = true -> forallb float_char X = true ->
                           forallb is_c_space (map to_blank X) = true).
  { intros X Hs Hc. apply forallb_forall. intros b Hb.
    apply in_map_iff in Hb as (c & <- & Hin).
    rewrite forallb_forall in Hs, Hc.
    destruct (float_char_cases c (Hc c Hin)) as [[Hf _]|[Hn _]].
    - now apply float_space_to_blank.
    - rewrite (Hs c Hin) in Hn. discriminate. }
  unfold py_float in *.
  rewrite (transform_blanks (strip t) HcK).
  rewrite <- H. rewrite transform_blanks.
  - rewrite Ht at 2. rewrite !map_app. symmetry.
    apply with_underscores_pad; apply Hpad; assumption.
  - rewrite Ht, !forallb_app, HcP, HcK, HcQ. reflexivity.
Qed.

(** ** The currency parser on readable text *)

Lemma existsb_strip (f : N -> bool) sp s :
  existsb f s = false -> existsb f (strip_by sp s) = false.
Proof.
  destruct (strip_decompose sp s) as (P & Q & Hs & _ & _).
  intros H. rewrite Hs, !existsb_app in H.
  apply orb_false_iff in H as [_ H]. now apply orb_false_iff in H as [H _].
Qed.

Lemma remove_dollar_comma_free s :
  existsb in_class_dollar_comma (remove_dollar_comma s) = false.
Proof.
  unfold remove_dollar_comma. induction s as [|c s IH]; simpl; [reflexivity|].
  destruct (in_class_dollar_comma c) eqn:E; simpl; [assumption|].
  now rewrite E.
Qed.

(** A text that is a number once '$' and ',' are removed is cleaned to that
    number. *)
Lemma clean_value_amount s v :
  py_float (remove_dollar_comma s) = Some v -> clean_value s = Ok v.
Proof.
  intros H. apply py_float_strip in H. fold (residual s) in H.
  unfold clean_value, replace_empty, astype_float.
  destruct (residual s) as [|c r]; [discriminate|]. now rewrite H.
Qed.

(** The same for a whole series of texts. *)
Lemma money_series_parses_to_its_amounts ss vs :
  Forall2 (fun s v => py_float (remove_dollar_comma s) = Some v) ss vs ->
  clean_money_optimized (ColObject (map Text ss)) = Ok (ColFloat vs).
Proof.
  intros H. rewrite clean_money_by_value. simpl. rewrite map_map. simpl.
  rewrite map_id.
  assert (mapM clean_value ss = Ok vs) as ->; [|reflexivity].
  induction H as [|s v ss vs Hs _ IH]; simpl; [reflexivity|].
  rewrite (clean_value_amount s v Hs). simpl. now rewrite IH.
Qed.

(** * The claims *)

(** C1 (the code departs from it).  The claim: a text that is not a number
    after cleaning yields the missing marker and the load still succeeds.
    The code: for the text "abc", [clean_money_optimized] raises the
    [ValueError] of [float()]; the loader catches it, shows the message for
    an unexpected error and returns no table, and the page shows nothing but
    the two error messages. *)
Theorem unparseable_money_aborts_load :
  forall floatify ui,
    residual (u "abc") = u "abc"
    /\ py_float (u "abc") = None
    /\ clean_money_optimized (ColObject [Text (u "abc")]) = Raise (ValueError (u "abc"))
    /\ load_data_optimized floatify (Ok sample_table_abc)
       = ([Error (MsgUnexpected (ValueError (u "abc")))], None)
    /\ dashboard floatify (Ok sample_table_abc) ui
       = ([Error (MsgUnexpected (ValueError (u "abc"))); Error MsgNoData], Ok tt).
Proof.
  intros floatify ui. repeat split; vm_compute; reflexivity.
Qed.

(** C2.  For every monetary text that is a number once '$' and ',' are
    removed, the currency parser returns the float that [float()] reads from
    the text without those characters; what it reads holds no '$' and no
    ','.  For "$1,234.50" that float is 1234.5. *)
Theorem money_text_parses_to_its_amount :
  forall s v,
    py_float (remove_dollar_comma s) = Some v ->
    existsb in_class_dollar_comma (residual s) = false
    /\ clean_value s = Ok v
    /\ clean_money_optimized (ColObject [Text s]) = Ok (ColFloat [v]).
Proof.
  intros s v H. pose proof (clean_value_amount s v H) as Hv.
  split; [apply existsb_strip, remove_dollar_comma_free|].
  split; [assumption|].
  rewrite clean_money_by_value. simpl. now rewrite Hv.
Qed.

Lemma money_text_parses_to_its_amount_witness :
  (existsb in_class_dollar_comma (residual (u "$1,234.50")) = false
   /\ clean_value (u "$1,234.50") = Ok amount_1234_50
   /\ clean_money_optimized (ColObject [Text (u "$1,234.50")])
      = Ok (ColFloat [amount_1234_50]))
  /\ option_map Qred (F64.to_Q amount_1234_50) = Some (2469 # 2)%Q.
Proof.
  split; [|vm_compute; reflexivity].
  apply (money_text_parses_to_its_amount (u "$1,234.50") amount_1234_50).
  vm_compute; reflexivity.
Defined.

(** C3.  Every empty or white-space-only monetary text is marked missing
    (NaN) by the currency parser, and in the loaded table, after the fill
    step, its cell holds exactly 0. *)
Theorem whitespace_money_loads_as_zero :
  forall floatify df df' shown c xs i s,
    load_data_optimized floatify (Ok df) = (shown, Some df') ->
    mem c monetary_columns = true ->
    lookup df c = Some (ColObject xs) ->
    nth_error xs i = Some (Text s) ->
    whitespace_only s = true ->
    clean_money_optimized (ColObject [Text s]) = Ok (ColFloat [nan])
    /\ exists col', lookup df' c = Some col' /\ cell col' i = Some (SFloat zero).
Proof.
  intros floatify df df' shown c xs i s Hload Hc Hcol Hi Hs.
  pose proof (clean_value_whitespace s Hs) as Hv.
  split.
  - rewrite clean_money_by_value. simpl. now rewrite Hv.
  - apply load_some in Hload.
    destruct (load_body_spec floatify df df' Hload) as (Hmoney & _ & _).
    destruct (Hmoney c Hc) as (x & ys & Hx & Hclean & Hl).
    rewrite Hcol in Hx. inversion Hx; subst x; clear Hx.
    exists (fillna 0 (ColFloat ys)). split; [assumption|].
    rewrite clean_money_by_value in Hclean.
    destruct (mapM clean_value (astype_str (ColObject xs))) as [zs|] eqn:M;
      simpl in Hclean; [|discriminate].
    inversion Hclean; subst zs; clear Hclean.
    assert (nth_error (astype_str (ColObject xs)) i = Some s) as Hi'.
    { simpl. rewrite nth_error_map, Hi. reflexivity. }
    destruct (mapM_nth _ _ _ M i s Hi') as (y & Hy & Hyi).
    rewrite Hv in Hy. inversion Hy; subst y.
    unfold cell. simpl. rewrite !nth_error_map, Hyi. reflexivity.
Qed.

Lemma whitespace_money_loads_as_zero_witness :
  clean_money_optimized (ColObject [Text (u "  ")]) = Ok (ColFloat [nan])
  /\ exists col', lookup (loaded sample_table) (u "Salud") = Some col'
                  /\ cell col' 2 = Some (SFloat zero).
Proof.
  apply (whitespace_money_loads_as_zero py_float sample_table (loaded sample_table) []
           (u "Salud") [Text (u "$1,234.50"); Missing; Text (u "  ")] 2 (u "  "));
    vm_compute; reflexivity.
Defined.

(** C4.  Every quantity that fails numeric coercion (a missing cell, or text
    such as "n/a" that cannot be read as a number) is loaded as exactly 1,
    which is not 0; and no content of the quantity column is an error: a
    table that loads still loads whatever its quantity column is replaced
    with. *)
Theorem unreadable_quantity_loads_as_one :
  forall floatify df df' shown q i,
    load_data_optimized floatify (Ok df) = (shown, Some df') ->
    lookup df CANTIDAD = Some q ->
    fails_coercion floatify q i = true ->
    (exists q', lookup df' CANTIDAD = Some q' /\ cell q' i = Some (SFloat one))
    /\ F64.eqb one zero = false
    /\ (forall other, exists df'',
          load_data_optimized floatify (Ok (set_col df CANTIDAD other))
          = ([], Some df'')).
Proof.
  intros floatify df df' shown q i Hload Hq Hfail.
  apply load_some in Hload.
  split; [|split; [reflexivity|]].
  - destruct (load_body_spec floatify df df' Hload) as (_ & (q0 & Hq0 & Hl) & _).
    rewrite Hq in Hq0. inversion Hq0; subst q0; clear Hq0.
    eexists. split; [exact Hl|].
    unfold cell. destruct q as [zs|xs|os]; simpl in Hfail.
    + discriminate.
    + simpl. rewrite !nth_error_map.
      destruct (nth_error xs i) as [x|]; [|discriminate]. simpl. now rewrite Hfail.
    + assert (all_int64 os = None) as Hnone.
      { destruct (all_int64 os) as [zs|] eqn:A; [|reflexivity].
        destruct (nth_error os i) as [o|] eqn:Hi; [|discriminate].
        destruct (all_int64_nth _ _ A i o Hi) as [z ->]. discriminate. }
      simpl. rewrite Hnone. simpl. rewrite !nth_error_map.
      destruct (nth_error os i) as [[s| |z]|]; try discriminate; simpl.
      * destruct (floatify s); [discriminate|reflexivity].
      * reflexivity.
  - intros other.
    destruct (quantity_never_fails_load floatify df q df' Hq Hload other) as [df'' H].
    exists df''. now apply load_success.
Qed.

Lemma unreadable_quantity_loads_as_one_witness :
  fails_coercion py_float (ColObject [Text (u "2"); Text (u "n/a"); Missing]) 1 = true
  /\ (exists q', lookup (loaded sample_table_na) CANTIDAD = Some q'
                 /\ cell q' 1 = Some (SFloat one))
  /\ F64.eqb one zero = false
  /\ (forall other, exists df'',
        load_data_optimized py_float (Ok (set_col sample_table_na CANTIDAD other))
        = ([], Some df'')).
Proof.
  split; [vm_compute; reflexivity|].
  apply (unreadable_quantity_loads_as_one py_float sample_table_na
           (loaded sample_table_na) []
           (ColObject [Text (u "2"); Text (u "n/a"); Missing]) 1);
    vm_compute; reflexivity.
Defined.

(** C5.  For every loaded table, filtering with both widgets at their
    default, the departments and the levels observed in the table, returns
    the loaded table itself, row for row. *)
Theorem filter_all_observed_is_identity :
  forall floatify n df df' shown d l,
    well_formed n df = true ->
    load_data_optimized floatify (Ok df) = (shown, Some df') ->
    lookup df' DEPARTAMENTO = Some d ->
    lookup df' NIVEL = Some l ->
    df_filtered df' (multiselect (unique d) (unique d) None)
                    (multiselect (unique l) (unique l) None) = Ok df'.
Proof.
  intros floatify n df df' shown d l Hwf Hload Hd Hl.
  apply load_some in Hload.
  pose proof (load_well_formed _ _ _ _ Hwf Hload) as Hwf'.
  unfold df_filtered, multiselect, get_col. rewrite Hd, Hl. simpl.
  f_equal. apply (select_all n); [assumption| |].
  - apply combine_and_all; apply isin_unique.
  - rewrite length_map, length_combine, !isin_length.
    rewrite (well_formed_lookup _ _ _ _ Hwf' Hd), (well_formed_lookup _ _ _ _ Hwf' Hl).
    apply Nat.min_id.
Qed.

Lemma filter_all_observed_is_identity_witness :
  df_filtered (loaded sample_table)
    (multiselect (unique (texts ["A"; "A"; "B"]%string))
                 (unique (texts ["A"; "A"; "B"]%string)) None)
    (multiselect (unique (texts ["L1"; "L2"; "L1"]%string))
                 (unique (texts ["L1"; "L2"; "L1"]%string)) None)
  = Ok (loaded sample_table).
Proof.
  apply (filter_all_observed_is_identity py_float 3 sample_table (loaded sample_table) []);
    vm_compute; reflexivity.
Defined.

(** C6.  For every table holding the two filter columns and every selection
    in the other widget, an empty department selection, and likewise an
    empty level selection, gives a view with the same columns and zero rows;
    the filter returns it, it does not raise. *)
Theorem empty_selection_gives_no_rows :
  forall df d l chosen,
    lookup df DEPARTAMENTO = Some d ->
    lookup df NIVEL = Some l ->
    (exists view, df_filtered df [] chosen = Ok view
                  /\ well_formed 0 view = true /\ map fst view = map fst df)
    /\ (exists view, df_filtered df chosen [] = Ok view
                     /\ well_formed 0 view = true /\ map fst view = map fst df).
Proof.
  intros df d l chosen Hd Hl.
  unfold df_filtered, get_col. rewrite Hd, Hl. simpl.
  split; eexists; (split; [reflexivity|]); apply select_none.
  - apply combine_and_left_false, isin_nil.
  - apply combine_and_right_false, isin_nil.
Qed.

Lemma empty_selection_gives_no_rows_witness :
  (exists view, df_filtered (loaded sample_table) [] [SStr (u "L1")] = Ok view
                /\ well_formed 0 view = true
                /\ map fst view = map fst (loaded sample_table))
  /\ (exists view, df_filtered (loaded sample_table) [SStr (u "L1")] [] = Ok view
                   /\ well_formed 0 view = true
                   /\ map fst view = map fst (loaded sample_table)).
Proof.
  apply (empty_selection_gives_no_rows (loaded sample_table)
           (texts ["A"; "A"; "B"]%string) (texts ["L1"; "L2"; "L1"]%string));
    vm_compute; reflexivity.
Defined.

(** C7, as stated, fails on the sample table with no department selected:
    the view has no rows, the mean salary is NaN, and the page shows it as
    the metric text "$nan COP"; there is no "no data" state. *)
Lemma empty_view_mean_is_raw_nan :
  snd (load_data_optimized py_float (Ok sample_table)) = Some (loaded sample_table)
  /\ exists view,
       df_filtered (loaded sample_table) [] (unique (texts ["L1"; "L2"; "L1"]%string))
       = Ok view
       /\ well_formed 0 view = true
       /\ promedio_salario view = Ok nan
       /\ is_nan nan = true
       /\ In (Metric (u "Salario Promedio") (u "$nan COP"))
             (fst (dashboard py_float (Ok sample_table) no_department)).
Proof.
  split; [vm_compute; reflexivity|].
  eexists. split; [vm_compute; reflexivity|].
  split; [vm_compute; reflexivity|].
  split; [vm_compute; reflexivity|].
  split; [reflexivity|].
  vm_compute. repeat (first [left; reflexivity | right]).
Qed.

(** C7 (amended).  Over a view without rows every aggregation returns: the
    two totals are zero and shown as "0" and "$0 COP", the three group-by
    tables are empty, and every mean is NaN; the mean salary is shown as the
    text "$nan COP". *)
Theorem empty_view_aggregations :
  forall view,
    well_formed 0 view = true ->
    forallb (has_col view) page_columns = true ->
    (exists n, total_empleados view = Ok n /\ is_zero_sum n
               /\ metric_total_empleados n = u "0")
    /\ (exists n, costo_mensual view = Ok n /\ is_zero_sum n
                  /\ metric_cop n = u "$0 COP")
    /\ nivel_cantidad view = Ok []
    /\ dept_costs view = Ok []
    /\ resumen_dept view = Ok []
    /\ df_componentes view = Ok (map (fun c => (c, nan)) componentes)
    /\ promedio_salario view = Ok nan
    /\ metric_cop (NFloat nan) = u "$nan COP".
Proof.
  intros view Hwf Hall.
  unfold page_columns in Hall. rewrite forallb_app in Hall.
  apply andb_true_iff in Hall as [Hall Hcomp].
  cbn [forallb] in Hall.
  apply andb_true_iff in Hall as [HD Hall].
  apply andb_true_iff in Hall as [HN Hall].
  apply andb_true_iff in Hall as [HQ Hall].
  apply andb_true_iff in Hall as [HS Hall].
  apply andb_true_iff in Hall as [HT _].
  destruct (empty_view_column _ _ Hwf HD) as (d & Hd & Hd').
  destruct (empty_view_column _ _ Hwf HN) as (l & Hl & Hl').
  destruct (empty_view_column _ _ Hwf HQ) as (q & Hq & Hq').
  destruct (empty_view_column _ _ Hwf HS) as (s & Hs & Hs').
  destruct (empty_view_column _ _ Hwf HT) as (t & Ht & Ht').
  unfold total_empleados, costo_mensual, nivel_cantidad, dept_costs, resumen_dept,
    promedio_salario, get_col.
  rewrite Hd, Hl, Hq, Hs, Ht.
  cbv beta iota delta [bind].
  repeat match goal with |- _ /\ _ => split end.
  - destruct Hq' as [->|[->| ->]]; eexists; (split; [reflexivity|]);
      (split; [unfold is_zero_sum; auto | vm_compute; reflexivity]).
  - destruct Ht' as [->|[->| ->]]; eexists; (split; [reflexivity|]);
      (split; [unfold is_zero_sum; auto | vm_compute; reflexivity]).
  - destruct Hl' as [->|[->| ->]]; reflexivity.
  - destruct Hd' as [->|[->| ->]]; reflexivity.
  - destruct Hd' as [->|[->| ->]]; reflexivity.
  - apply (means_of_empty view componentes Hwf Hcomp).
  - destruct Hs' as [->|[->| ->]]; reflexivity.
  - vm_compute; reflexivity.
Qed.

Lemma empty_view_aggregations_witness :
  (exists n, total_empleados sample_empty_view = Ok n /\ is_zero_sum n
             /\ metric_total_empleados n = u "0")
  /\ (exists n, costo_mensual sample_empty_view = Ok n /\ is_zero_sum n
                /\ metric_cop n = u "$0 COP")
  /\ nivel_cantidad sample_empty_view = Ok []
  /\ dept_costs sample_empty_view = Ok []
  /\ resumen_dept sample_empty_view = Ok []
  /\ df_componentes sample_empty_view = Ok (map (fun c => (c, nan)) componentes)
  /\ promedio_salario sample_empty_view = Ok nan
  /\ metric_cop (NFloat nan) = u "$nan COP".
Proof.
  apply (empty_view_aggregations sample_empty_view); vm_compute; reflexivity.
Defined.

(** C8.  A table of three rows with departments A, A, B, quantities 2, 3, 1
    and total monthly costs "$1,000", "$2,000", "$500", whatever its other
    columns hold: once loaded and filtered to department A with every level
    selected, the total headcount is 5 and the total monthly cost is 3000. *)
Theorem three_row_scenario :
  forall floatify df df' shown nivel,
    load_data_optimized floatify (Ok df) = (shown, Some df') ->
    well_formed 3 df = true ->
    lookup df DEPARTAMENTO = Some (texts ["A"; "A"; "B"]%string) ->
    lookup df NIVEL = Some nivel ->
    lookup df CANTIDAD = Some (ColInt [2; 3; 1]) ->
    lookup df TOTAL_MENSUAL = Some (texts ["$1,000"; "$2,000"; "$500"]%string) ->
    exists view,
      df_filtered df' [SStr (u "A")] (unique nivel) = Ok view
      /\ total_empleados view = Ok (NInt 5)
      /\ costo_mensual view = Ok (NFloat (of_Z 3000))
      /\ metric_total_empleados (NInt 5) = u "5"
      /\ metric_cop (NFloat (of_Z 3000)) = u "$3,000 COP".
Proof.
  intros floatify df df' shown nivel Hload Hwf Hd Hn Hq Ht.
  apply load_some in Hload.
  destruct (load_body_spec floatify df df' Hload) as (Hmoney & (q & Hq0 & Hq') & Hother).
  rewrite Hq in Hq0. inversion Hq0; subst q; clear Hq0.
  destruct (Hmoney TOTAL_MENSUAL) as (t & ys & Ht0 & Hclean & Ht');
    [vm_compute; reflexivity|].
  rewrite Ht in Ht0. inversion Ht0; subst t; clear Ht0.
  vm_compute in Hclean. inversion Hclean; subst ys; clear Hclean.
  assert (Hd' : lookup df' DEPARTAMENTO = Some (texts ["A"; "A"; "B"]%string))
    by (rewrite Hother; [assumption | vm_compute; reflexivity ..]).
  assert (Hn' : lookup df' NIVEL = Some nivel)
    by (rewrite Hother; [assumption | vm_compute; reflexivity ..]).
  pose proof (isin_unique nivel) as Hall.
  pose proof (isin_length nivel (unique nivel)) as Hlen.
  rewrite (well_formed_lookup _ _ _ _ Hwf Hn) in Hlen.
  unfold df_filtered, get_col. rewrite Hd', Hn'. cbv beta iota delta [bind].
  destruct (isin nivel (unique nivel)) as [|a [|b [|c [|]]]]; try discriminate.
  simpl in Hall. destruct a, b, c; try discriminate.
  eexists. split; [reflexivity|].
  unfold total_empleados, costo_mensual, get_col.
  rewrite !lookup_select, Hq', Ht'.
  repeat split; vm_compute; reflexivity.
Qed.

Lemma three_row_scenario_witness :
  exists view,
    df_filtered (loaded sample_table) [SStr (u "A")]
                (unique (texts ["L1"; "L2"; "L1"]%string)) = Ok view
    /\ total_empleados view = Ok (NInt 5)
    /\ costo_mensual view = Ok (NFloat (of_Z 3000))
    /\ metric_total_empleados (NInt 5) = u "5"
    /\ metric_cop (NFloat (of_Z 3000)) = u "$3,000 COP".
Proof.
  apply (three_row_scenario py_float sample_table (loaded sample_table) []);
    vm_compute; reflexivity.
Defined.

(** C9.  Every load failure (no table returned) comes from one exception,
    which the loader puts in exactly one of three classes: the path does not
    resolve ([FileNotFoundError] from the read), the file is malformed
    ([ParserError] from the read), or anything else.  In each case one
    message is shown for that class, no table is returned, and the page
    shows the two error messages and no chart, metric or table. *)
Theorem load_failure_classified :
  forall floatify csv,
    snd (load_data_optimized floatify csv) = None ->
    exists e,
      load_body floatify csv = Raise e
      /\ load_data_optimized floatify csv = ([Error (handler e)], None)
      /\ message_kind (handler e) = Some (classify e)
      /\ (classify e = NotFound <-> exists m, csv = Raise (FileNotFoundError m))
      /\ (classify e = ParseError <-> exists m, csv = Raise (ParserError m))
      /\ forall ui,
           dashboard floatify csv ui = ([Error (handler e); Error MsgNoData], Ok tt)
           /\ existsb is_data_element (fst (dashboard floatify csv ui)) = false.
Proof.
  intros floatify csv Hnone.
  destruct (load_body floatify csv) as [df|e] eqn:B.
  - rewrite (load_success _ _ _ B) in Hnone. discriminate.
  - exists e. pose proof (load_failure _ _ _ B) as Hl.
    assert (Hread : forall df, csv <> Ok df \/ classify e = UnknownError).
    { intros df. destruct csv as [df0|e0]; [right|left; discriminate].
      destruct (load_body_raises _ _ _ B) as [[t ->]|[l ->]]; reflexivity. }
    repeat split.
    + assumption.
    + destruct e; reflexivity.
    + intros Hk. destruct csv as [df0|e0].
      * destruct (Hread df0) as [H|H]; [congruence|]. rewrite H in Hk. discriminate.
      * rewrite load_body_read_error in B. inversion B; subst e0.
        destruct e; try discriminate. eauto.
    + intros [m ->]. rewrite load_body_read_error in B. now inversion B.
    + intros Hk. destruct csv as [df0|e0].
      * destruct (Hread df0) as [H|H]; [congruence|]. rewrite H in Hk. discriminate.
      * rewrite load_body_read_error in B. inversion B; subst e0.
        destruct e; try discriminate. eauto.
    + intros [m ->]. rewrite load_body_read_error in B. now inversion B.
    + unfold dashboard. rewrite Hl. reflexivity.
    + unfold dashboard. rewrite Hl. reflexivity.
Qed.

Lemma load_failure_classified_witness :
  exists e,
    load_body py_float (Raise (ParserError (u "Error tokenizing data"))) = Raise e
    /\ load_data_optimized py_float (Raise (ParserError (u "Error tokenizing data")))
       = ([Error (handler e)], None)
    /\ message_kind (handler e) = Some (classify e)
    /\ (classify e = NotFound
        <-> exists m, Raise (ParserError (u "Error tokenizing data"))
                      = @Raise DataFrame (FileNotFoundError m))
    /\ (classify e = ParseError
        <-> exists m, Raise (ParserError (u "Error tokenizing data"))
                      = @Raise DataFrame (ParserError m))
    /\ forall ui,
         dashboard py_float (Raise (ParserError (u "Error tokenizing data"))) ui
         = ([Error (handler e); Error MsgNoData], Ok tt)
         /\ existsb is_data_element
              (fst (dashboard py_float (Raise (ParserError (u "Error tokenizing data"))) ui))
            = false.
Proof.
  apply (load_failure_classified py_float (Raise (ParserError (u "Error tokenizing data")))).
  reflexivity.
Defined.

(** C10.  When a label of the monetary list is absent from the table, the
    cleaning step passes over it, but the load as a whole fails and returns
    no table; when the cleaning of the columns present succeeds and the
    quantity column exists, the failure is the [KeyError] of the zero-fill
    step, naming the absent labels. *)
Theorem absent_monetary_column_fails_load :
  forall floatify df c,
    mem c monetary_columns = true ->
    lookup df c = None ->
    clean_columns [c] df = Ok df
    /\ (exists e, load_data_optimized floatify (Ok df) = ([Error (MsgUnexpected e)], None))
    /\ (forall df1 q,
          clean_columns monetary_columns df = Ok df1 ->
          lookup df CANTIDAD = Some q ->
          load_body floatify (Ok df)
          = Raise (KeyError (filter (fun col => negb (has_col df col)) monetary_columns))).
Proof.
  intros floatify df c Hc Habs.
  assert (HQ : mem CANTIDAD monetary_columns = false) by (vm_compute; reflexivity).
  assert (Hnd : nodupb monetary_columns = true) by (vm_compute; reflexivity).
  assert (Hbody : forall df1 q,
            clean_columns monetary_columns df = Ok df1 ->
            lookup df1 CANTIDAD = Some q ->
            load_body floatify (Ok df)
            = Raise (KeyError (filter (fun col => negb (has_col df col)) monetary_columns))).
  { intros df1 q C1 LQ.
    cbv beta iota delta [load_body bind]. rewrite C1.
    unfold get_col at 1. rewrite LQ.
    set (df2 := set_col df1 CANTIDAD _).
    assert (Hhas : forall col, has_col df2 col = has_col df col).
    { intros col. unfold has_col, df2. rewrite lookup_set_col.
      destruct (clean_columns_spec _ _ _ C1 col) as (Hout & Hnone & Hin).
      destruct (PyStr.eqb col CANTIDAD) eqn:E.
      - apply eqb_eq in E. subst col. rewrite <- (Hout HQ), LQ. reflexivity.
      - destruct (mem col monetary_columns) eqn:Hm.
        + destruct (lookup df col) as [x|] eqn:L.
          * destruct (Hin Hnd eq_refl x eq_refl) as (x' & _ & ->). reflexivity.
          * now rewrite (Hnone eq_refl).
        + now rewrite (Hout eq_refl). }
    rewrite <- (filter_ext _ _ (fun col => f_equal negb (Hhas col))).
    destruct (get_cols_missing df2 monetary_columns c Hc) as [labels Hk].
    { unfold df2. rewrite lookup_set_col_other by (eapply mem_neq; eauto).
      destruct (clean_columns_spec _ _ _ C1 c) as (_ & Hnone & _). auto. }
    rewrite Hk. apply get_cols_raises in Hk. now rewrite <- Hk. }
  repeat split.
  - simpl. unfold has_col. now rewrite Habs.
  - destruct (load_body floatify (Ok df)) as [df'|e] eqn:B.
    + exfalso. destruct (load_body_spec _ _ _ B) as (Hmoney & _ & _).
      destruct (Hmoney c Hc) as (x & _ & Hx & _). congruence.
    + exists e. rewrite (load_failure _ _ _ B). f_equal. f_equal.
      destruct (load_body_raises _ _ _ B) as [[t ->]|[l ->]]; reflexivity.
  - intros df1 q C1 Hq. apply (Hbody df1 q C1).
    destruct (clean_columns_spec _ _ _ C1 CANTIDAD) as (Hout & _ & _).
    now rewrite (Hout HQ).
Qed.

Lemma absent_monetary_column_fails_load_witness :
  clean_columns [u "Salud"] sample_table_no_salud = Ok sample_table_no_salud
  /\ (exists e, load_data_optimized py_float (Ok sample_table_no_salud)
                = ([Error (MsgUnexpected e)], None))
  /\ (forall df1 q,
        clean_columns monetary_columns sample_table_no_salud = Ok df1 ->
        lookup sample_table_no_salud CANTIDAD = Some q ->
        load_body py_float (Ok sample_table_no_salud)
        = Raise (KeyError (filter (fun col => negb (has_col sample_table_no_salud col))
                                  monetary_columns))).
Proof.
  apply (absent_monetary_column_fails_load py_float sample_table_no_salud (u "Salud"));
    vm_compute; reflexivity.
Defined.

(** * Further properties *)

(** ** The loader: what a load keeps and what it leaves *)

Lemma set_col_labels df c x :
  has_col df c = true -> map fst (set_col df c x) = map fst df.
Proof.
  unfold has_col. induction df as [|[name old] rest IH]; simpl; [discriminate|].
  destruct (PyStr.eqb name c); simpl; [reflexivity|].
  intros H. now rewrite IH.
Qed.

Lemma clean_columns_labels cols : forall df df',
  clean_columns cols df = Ok df' -> map fst df' = map fst df.
Proof.
  induction cols as [|col cols IH]; intros df df' H; simpl in H.
  - now inversion H.
  - destruct (has_col df col) eqn:Hc; [|eauto].
    unfold get_col in H. destruct (lookup df col) as [y|]; simpl in H; [|discriminate].
    destruct (clean_money_optimized y) as [y'|]; simpl in H; [|discriminate].
    rewrite (IH _ _ H). now apply set_col_labels.
Qed.

Lemma clean_columns_has_col cols df df1 c :
  clean_columns cols df = Ok df1 -> has_col df1 c = has_col df c.
Proof.
  revert df df1. induction cols as [|col cols IH]; intros df df1 H; simpl in H.
  - now inversion H.
  - destruct (has_col df col) eqn:Hcol; [|eauto].
    unfold get_col in H. destruct (lookup df col) as [y|]; simpl in H; [|discriminate].
    destruct (clean_money_optimized y) as [y'|]; simpl in H; [|discriminate].
    rewrite (IH _ _ H). now apply has_col_set_col.
Qed.

Lemma set_cols_labels sub : forall df,
  Forall (fun p => has_col df (fst p) = true) sub ->
  map fst (set_cols df sub) = map fst df.
Proof.
  unfold set_cols. induction sub as [|[k x] sub IH]; intros df H; simpl; [reflexivity|].
  inversion H as [|? ? Hk Hs]; subst. simpl in Hk.
  rewrite IH.
  - now apply set_col_labels.
  - eapply Forall_impl; [|exact Hs]. intros p Hp. simpl.
    now rewrite has_col_set_col.
Qed.

Lemma load_labels floatify df df' :
  load_body floatify (Ok df) = Ok df' -> map fst df' = map fst df.
Proof.
  cbv beta iota delta [load_body bind].
  destruct (clean_columns monetary_columns df) as [df1|] eqn:C1; [|discriminate].
  unfold get_col at 1. destruct (lookup df1 CANTIDAD) as [q|] eqn:L; [|discriminate].
  set (df2 := set_col df1 CANTIDAD _).
  destruct (get_cols df2 monetary_columns) as [sub|] eqn:G; [|discriminate].
  intros [= <-].
  assert (Hq : has_col df1 CANTIDAD = true) by (unfold has_col; now rewrite L).
  destruct (get_cols_ok _ _ _ G) as [_ Hv].
  rewrite set_cols_labels.
  - unfold df2. rewrite (set_col_labels _ _ _ Hq). eapply clean_columns_labels; eauto.
  - apply Forall_map. eapply Forall_impl; [|exact Hv].
    intros p Hp. simpl. unfold has_col. now rewrite Hp.
Qed.

(** X1.  A successful load shows no message and keeps the shape of the
    table: the same labels in the same order, and the same number of rows in
    every column. *)
Theorem load_keeps_shape :
  forall floatify n df df' shown,
    well_formed n df = true ->
    load_data_optimized floatify (Ok df) = (shown, Some df') ->
    shown = [] /\ map fst df' = map fst df /\ well_formed n df' = true.
Proof.
  intros floatify n df df' shown Hwf Hload.
  pose proof (load_some _ _ _ _ Hload) as Hbody.
  rewrite (load_success _ _ _ Hbody) in Hload. inversion Hload; subst shown.
  split; [reflexivity|]. split.
  - eapply load_labels; eauto.
  - eapply load_well_formed; eauto.
Qed.

Lemma load_keeps_shape_witness :
  @nil element = [] /\ map fst (loaded sample_table) = map fst sample_table
  /\ well_formed 3 (loaded sample_table) = true.
Proof.
  apply (load_keeps_shape py_float 3 sample_table (loaded sample_table) []);
    vm_compute; reflexivity.
Defined.

Lemma fillna_no_nan v xs :
  is_nan (of_Z v) = false ->
  existsb is_nan (map (fun x => if is_nan x then of_Z v else x) xs) = false.
Proof.
  intros Hv. induction xs as [|x xs IH]; simpl; [reflexivity|].
  rewrite IH, orb_false_r. destruct (is_nan x) eqn:N; assumption.
Qed.

(** X2.  In a loaded table every monetary column is a float64 column that
    holds no NaN. *)
Theorem loaded_money_is_float_without_nan :
  forall floatify df df' shown c,
    load_data_optimized floatify (Ok df) = (shown, Some df') ->
    mem c monetary_columns = true ->
    exists col, lookup df' c = Some col /\ float_no_nan col = true.
Proof.
  intros floatify df df' shown c Hload Hc. apply load_some in Hload.
  destruct (load_body_spec floatify df df' Hload) as (Hmoney & _ & _).
  destruct (Hmoney c Hc) as (x & ys & _ & _ & Hl).
  eexists. split; [exact Hl|]. cbn [fillna float_no_nan].
  now rewrite fillna_no_nan by reflexivity.
Qed.

Lemma loaded_money_is_float_without_nan_witness :
  exists col, lookup (loaded sample_table) (u "Salud") = Some col
              /\ float_no_nan col = true.
Proof.
  apply (loaded_money_is_float_without_nan py_float sample_table (loaded sample_table) []);
    vm_compute; reflexivity.
Defined.



(** X4.  A load leaves every column outside the monetary list and the
    quantity column as it was read; the two filter columns in particular. *)
Theorem load_leaves_other_columns :
  forall floatify df df' shown,
    load_data_optimized floatify (Ok df) = (shown, Some df') ->
    (forall c, mem c monetary_columns = false -> PyStr.eqb c CANTIDAD = false ->
               lookup df' c = lookup df c)
    /\ lookup df' DEPARTAMENTO = lookup df DEPARTAMENTO
    /\ lookup df' NIVEL = lookup df NIVEL.
Proof.
  intros floatify df df' shown Hload. apply load_some in Hload.
  destruct (load_body_spec floatify df df' Hload) as (_ & _ & Hother).
  split; [exact Hother|].
  split; apply Hother; vm_compute; reflexivity.
Qed.

Lemma load_leaves_other_columns_witness :
  (forall c, mem c monetary_columns = false -> PyStr.eqb c CANTIDAD = false ->
             lookup (loaded sample_table) c = lookup sample_table c)
  /\ lookup (loaded sample_table) DEPARTAMENTO = lookup sample_table DEPARTAMENTO
  /\ lookup (loaded sample_table) NIVEL = lookup sample_table NIVEL.
Proof.
  apply (load_leaves_other_columns py_float sample_table (loaded sample_table) []).
  vm_compute; reflexivity.
Defined.

(** ** The loader: when a load succeeds *)

Lemma mem_In c cols : mem c cols = true <-> In c cols.
Proof.
  unfold mem. rewrite existsb_exists. split.
  - intros (c' & Hin & E). apply eqb_eq in E. now subst.
  - intros Hin. exists c. split; [assumption|apply eqb_refl].
Qed.

(** The cleaning loop succeeds as soon as each listed column that the table
    holds cleans on its own. *)
Lemma clean_columns_total cols : forall df,
  nodupb cols = true ->
  (forall c x, mem c cols = true -> lookup df c = Some x ->
               exists x', clean_money_optimized x = Ok x') ->
  exists df1, clean_columns cols df = Ok df1.
Proof.
  induction cols as [|col cols IH]; intros df Hnd Hall; simpl; [eauto|].
  simpl in Hnd. apply andb_true_iff in Hnd as [Hfresh Hnd].
  apply negb_true_iff in Hfresh.
  unfold has_col, get_col. destruct (lookup df col) as [y|] eqn:L; simpl.
  - destruct (Hall col y) as [y' Hy]; [simpl; now rewrite eqb_refl|assumption|].
    rewrite Hy. simpl. apply IH; [assumption|].
    intros c x Hc Hx. rewrite lookup_set_col_other in Hx.
    + apply (Hall c x); [simpl; now rewrite Hc, orb_true_r|assumption].
    + destruct (PyStr.eqb c col) eqn:E; [|reflexivity].
      apply eqb_eq in E. subst. congruence.
  - apply IH; [assumption|].
    intros c x Hc Hx. apply (Hall c x); [simpl; now rewrite Hc, orb_true_r|assumption].
Qed.

Lemma money_cleans_spec df :
  money_cleans df = true <->
  (forall c, mem c monetary_columns = true ->
             exists x x', lookup df c = Some x /\ clean_money_optimized x = Ok x').
Proof.
  unfold money_cleans. rewrite forallb_forall. split.
  - intros H c Hc. apply mem_In in Hc. specialize (H c Hc).
    destruct (lookup df c) as [x|]; [|discriminate].
    destruct (clean_money_optimized x) as [x'|] eqn:C; [eauto|discriminate].
  - intros H c Hc. apply mem_In in Hc. destruct (H c Hc) as (x & x' & -> & ->).
    reflexivity.
Qed.

(** A table that holds the quantity column and whose monetary columns are
    all there and all clean does load. *)
Lemma load_total floatify df :
  has_col df CANTIDAD = true -> money_cleans df = true ->
  exists df', load_body floatify (Ok df) = Ok df'.
Proof.
  intros Hq Hm. rewrite money_cleans_spec in Hm.
  destruct (clean_columns_total monetary_columns df) as [df1 C1];
    [vm_compute; reflexivity| |].
  { intros c x Hc Hx. destruct (Hm c Hc) as (x0 & x' & Hx0 & Hclean).
    rewrite Hx in Hx0. inversion Hx0; subst. eauto. }
  assert (Hq1 : has_col df1 CANTIDAD = true)
    by (now rewrite (clean_columns_has_col _ _ _ _ C1)).
  apply has_col_lookup in Hq1 as [q L1].
  destruct (get_cols_total
              (set_col df1 CANTIDAD (fillna 1 (to_numeric_coerce floatify q)))
              monetary_columns) as [sub G].
  { apply forallb_forall. intros c Hc. apply mem_In in Hc.
    rewrite has_col_set_col by (unfold has_col; now rewrite L1).
    rewrite (clean_columns_has_col _ _ _ _ C1).
    destruct (Hm c Hc) as (x & _ & Hx & _). unfold has_col. now rewrite Hx. }
  exact (load_body_intro floatify df df1 q sub C1 L1 G).
Qed.


(** X6.  A table without a quantity column does not load: when its monetary
    columns clean, the loader meets the [KeyError] for 'CANTIDAD', shows the
    message for an unexpected error and returns no table. *)
Theorem absent_quantity_fails_load :
  forall floatify df df1,
    lookup df CANTIDAD = None ->
    clean_columns monetary_columns df = Ok df1 ->
    load_data_optimized floatify (Ok df)
    = ([Error (MsgUnexpected (KeyError [CANTIDAD]))], None).
Proof.
  intros floatify df df1 Hq C1.
  assert (load_body floatify (Ok df) = Raise (KeyError [CANTIDAD])) as Hbody.
  { cbv beta iota delta [load_body bind]. rewrite C1. unfold get_col at 1.
    assert (has_col df1 CANTIDAD = false) as Hno.
    { rewrite (clean_columns_has_col _ _ _ _ C1). unfold has_col. now rewrite Hq. }
    unfold has_col in Hno. destruct (lookup df1 CANTIDAD); [discriminate|reflexivity]. }
  now rewrite (load_failure _ _ _ Hbody).
Qed.

Lemma absent_quantity_fails_load_witness :
  load_data_optimized py_float (Ok sample_table_no_cantidad)
  = ([Error (MsgUnexpected (KeyError [CANTIDAD]))], None).
Proof.
  apply (absent_quantity_fails_load py_float sample_table_no_cantidad
           (cleaned sample_table_no_cantidad));
    vm_compute; reflexivity.
Defined.

(** X7.  A missing monetary cell, the NaN of a float64 column or of an
    object column, holds exactly 0 in the loaded table. *)
Theorem missing_money_loads_as_zero :
  forall floatify df df' shown c col i x,
    load_data_optimized floatify (Ok df) = (shown, Some df') ->
    mem c monetary_columns = true ->
    lookup df c = Some col ->
    cell col i = Some (SFloat x) ->
    is_nan x = true ->
    exists col', lookup df' c = Some col' /\ cell col' i = Some (SFloat zero).
Proof.
  intros floatify df df' shown c col i x Hload Hc Hcol Hi Hx.
  apply load_some in Hload.
  destruct (load_body_spec floatify df df' Hload) as (Hmoney & _ & _).
  destruct (Hmoney c Hc) as (col0 & ys & Hcol0 & Hclean & Hl).
  rewrite Hcol in Hcol0. inversion Hcol0; subst col0; clear Hcol0.
  exists (fillna 0 (ColFloat ys)). split; [assumption|].
  rewrite clean_money_by_value in Hclean.
  destruct (mapM clean_value (astype_str col)) as [zs|] eqn:M;
    simpl in Hclean; [|discriminate].
  inversion Hclean; subst zs; clear Hclean.
  assert (nth_error (astype_str col) i = Some (u "nan")) as Hi'.
  { unfold cell in Hi. destruct col as [zs|xs|os];
      cbn [values astype_str] in Hi |- *; rewrite nth_error_map in Hi |- *.
    - destruct (nth_error zs i); discriminate.
    - destruct (nth_error xs i) as [y|]; [|discriminate]. cbn [option_map] in Hi |- *.
      inversion Hi; subst y. destruct x; try discriminate. reflexivity.
    - destruct (nth_error os i) as [[s| |z]|]; try discriminate. reflexivity. }
  destruct (mapM_nth _ _ _ M i _ Hi') as (y & Hy & Hyi).
  assert (clean_value (u "nan") = Ok nan) as Hnan by (vm_compute; reflexivity).
  rewrite Hnan in Hy. inversion Hy; subst y.
  unfold cell. cbn [fillna values]. rewrite !nth_error_map, Hyi. reflexivity.
Qed.

Lemma missing_money_loads_as_zero_witness :
  exists col', lookup (loaded sample_table) (u "Salud") = Some col'
               /\ cell col' 1 = Some (SFloat zero).
Proof.
  apply (missing_money_loads_as_zero py_float sample_table (loaded sample_table) []
           (u "Salud") sample_money 1 nan);
    vm_compute; reflexivity.
Defined.



Lemma clean_money_empty x :
  col_len x = 0%nat -> clean_money_optimized x = Ok (ColFloat []).
Proof.
  intros H. destruct (empty_column x H) as [->|[->| ->]]; reflexivity.
Qed.

(** X9.  A table without rows that holds the quantity column and every
    monetary column loads: the result keeps the labels and still has no
    rows. *)
Theorem table_without_rows_loads :
  forall floatify df,
    well_formed 0 df = true ->
    has_col df CANTIDAD = true ->
    forallb (has_col df) monetary_columns = true ->
    exists df', load_data_optimized floatify (Ok df) = ([], Some df')
                /\ well_formed 0 df' = true /\ map fst df' = map fst df.
Proof.
  intros floatify df Hwf Hq Hall.
  destruct (load_total floatify df Hq) as [df' Hbody].
  { apply money_cleans_spec. intros c Hc. apply mem_In in Hc.
    rewrite forallb_forall in Hall. specialize (Hall c Hc).
    apply has_col_lookup in Hall as [x Hx].
    exists x, (ColFloat []). split; [assumption|].
    apply clean_money_empty. eapply well_formed_lookup; eauto. }
  exists df'. split; [now apply load_success|]. split.
  - eapply load_well_formed; eauto.
  - eapply load_labels; eauto.
Qed.

Lemma table_without_rows_loads_witness :
  exists df', load_data_optimized py_float (Ok sample_header_only) = ([], Some df')
              /\ well_formed 0 df' = true
              /\ map fst df' = map fst sample_header_only.
Proof.
  apply (table_without_rows_loads py_float sample_header_only);
    vm_compute; reflexivity.
Defined.

(** ** The currency parser: what does not matter, and numbers read back *)

Lemma remove_dollar_comma_app a b :
  remove_dollar_comma (a ++ b) = remove_dollar_comma a ++ remove_dollar_comma b.
Proof. apply filter_app. Qed.

Lemma space_not_symbol c : is_space c = true -> in_class_dollar_comma c = false.
Proof.
  unfold in_class_dollar_comma. intros H.
  destruct (N.eqb_spec c 36) as [->|_]; [discriminate|].
  destruct (N.eqb_spec c 44) as [->|_]; [discriminate|reflexivity].
Qed.

Lemma remove_dollar_comma_spaces P :
  whitespace_only P = true -> whitespace_only (remove_dollar_comma P) = true.
Proof. intros H. now apply forallb_filter. Qed.

Lemma clean_money_by_residual s t :
  residual s = residual t ->
  clean_money_optimized (ColObject [Text s]) = clean_money_optimized (ColObject [Text t]).
Proof.
  intros H. rewrite !clean_money_by_value. cbn [astype_str map str_of_obj mapM].
  unfold clean_value. now rewrite H.
Qed.

(** X10.  A '$' or ',' anywhere in a monetary text, and white space around
    it, never change what the text is cleaned to: the same float, the same
    missing marker or the same [ValueError]. *)
Theorem symbols_and_padding_do_not_matter :
  forall P a c b Q,
    in_class_dollar_comma c = true ->
    whitespace_only P = true ->
    whitespace_only Q = true ->
    clean_money_optimized (ColObject [Text (P ++ (a ++ c :: b) ++ Q)])
    = clean_money_optimized (ColObject [Text (a ++ b)]).
Proof.
  intros P a c b Q Hc HP HQ. apply clean_money_by_residual.
  unfold residual. rewrite !remove_dollar_comma_app.
  unfold strip. rewrite strip_pad by (now apply remove_dollar_comma_spaces).
  f_equal. unfold remove_dollar_comma at 2. cbn [filter]. now rewrite Hc.
Qed.

Lemma symbols_and_padding_do_not_matter_witness :
  clean_money_optimized (ColObject [Text (u " " ++ (u "$1" ++ 44%N :: u "000") ++ u "  ")])
  = clean_money_optimized (ColObject [Text (u "$1" ++ u "000")]).
Proof.
  apply (symbols_and_padding_do_not_matter (u " ") (u "$1") 44%N (u "000") (u "  "));
    vm_compute; reflexivity.
Defined.

(** *** Integers read back *)

Lemma digits_val_acc d : forall acc,
  fold_left (fun a c => 10 * a + digit_val c) (uint_chars d) (Zpos acc)
  = Zpos (Pos.of_uint_acc d acc).
Proof.
  induction d; intros acc; cbn [uint_chars fold_left Pos.of_uint_acc];
    [reflexivity | rewrite <- IHd; f_equal; try (unfold digit_val; lia) ..].
Qed.

Lemma digits_val_uint d : digits_val (uint_chars d) = Z.of_N (Pos.of_uint d).
Proof.
  unfold digits_val.
  induction d; cbn [uint_chars fold_left Pos.of_uint];
    [reflexivity | exact IHd | apply (digits_val_acc d) ..].
Qed.

Lemma uint_chars_digits d : forallb is_digit (uint_chars d) = true.
Proof. induction d; cbn [uint_chars forallb]; try reflexivity; exact IHd. Qed.

Lemma nat_digits_val n : digits_val (nat_digits n) = Z.of_N n.
Proof.
  unfold nat_digits. rewrite digits_val_uint.
  change (Pos.of_uint (N.to_uint n)) with (N.of_uint (N.to_uint n)).
  now rewrite DecimalN.Unsigned.of_to.
Qed.

Lemma nat_digits_nonempty n : nat_digits n <> [].
Proof.
  unfold nat_digits. destruct n as [|p]; [discriminate|].
  intros H. pose proof (DecimalPos.Unsigned.to_uint_nonnil p) as Hp.
  cbn [N.to_uint] in H. destruct (Pos.to_uint p); try discriminate.
  now apply Hp.
Qed.

Lemma lstrip_none sp s :
  forallb (fun c => negb (sp c)) s = true -> lstrip_by sp s = s.
Proof.
  destruct s as [|c r]; [reflexivity|]. cbn [forallb lstrip_by].
  intros H. apply andb_prop in H as [H _]. now destruct (sp c).
Qed.

Lemma strip_none sp s :
  forallb (fun c => negb (sp c)) s = true -> strip_by sp s = s.
Proof.
  intros H. unfold strip_by, rstrip_by. rewrite (lstrip_none sp s H).
  rewrite lstrip_none; [apply rev_involutive|]. now rewrite forallb_rev.
Qed.

Lemma span_digits_all ds :
  forallb is_digit ds = true -> span_digits ds = (ds, []).
Proof.
  induction ds as [|c r IH]; [reflexivity|]. cbn [forallb span_digits].
  intros H. apply andb_prop in H as [-> H]. now rewrite (IH H).
Qed.

Lemma digit_plain c :
  is_digit c = true ->
  (c =? 45)%N = false /\ (c =? 43)%N = false /\ (c =? 95)%N = false
  /\ (c <? 128)%N = true /\ is_c_space c = false
  /\ in_class_dollar_comma c = false.
Proof.
  unfold is_digit, is_c_space, in_class_dollar_comma. intros H.
  apply andb_prop in H as [H1 H2].
  apply N.leb_le in H1. apply N.leb_le in H2.
  repeat match goal with |- _ /\ _ => split end;
    repeat match goal with
    | |- (_ || _)%bool = false => apply orb_false_iff; split
    | |- (_ && _)%bool = false => apply andb_false_iff; right
    | |- (_ =? _)%N = false => apply N.eqb_neq; lia
    | |- (_ <? _)%N = true => apply N.ltb_lt; lia
    | |- (_ <=? _)%N = false => apply N.leb_gt; lia
    end.
Qed.

Lemma forallb_digits (p : char -> bool) ds :
  (forall c, is_digit c = true -> p c = true) ->
  forallb is_digit ds = true -> forallb p ds = true.
Proof.
  intros Hp H. apply forallb_forall. intros c Hc. apply Hp.
  now apply (proj1 (forallb_forall _ _) H).
Qed.

Lemma existsb_digits (p : char -> bool) ds :
  (forall c, is_digit c = true -> p c = false) ->
  forallb is_digit ds = true -> existsb p ds = false.
Proof.
  intros Hp H. induction ds as [|c r IH]; [reflexivity|].
  cbn [forallb existsb] in *. apply andb_prop in H as [Hc H].
  now rewrite (Hp c Hc), (IH H).
Qed.

(** The text [neg? digits], read by [float()]: the digits' value. *)
Lemma py_float_digits (neg : bool) ds :
  ds <> [] -> forallb is_digit ds = true ->
  py_float ((if neg then [45%N] else []) ++ ds)
  = Some (of_decimal neg (digits_val ds) 0 (Z.of_nat (List.length ds))).
Proof.
  intros Hne Hd.
  remember ((if neg then [45%N] else []) ++ ds) as s eqn:Es.
  assert (forallb (fun c => is_digit c || (c =? 45)%N) s = true) as Hs.
  { subst s. rewrite forallb_app. apply andb_true_intro. split.
    - now destruct neg.
    - apply (forallb_digits _ ds); [|exact Hd]. now intros c ->. }
  assert (forall p : char -> bool,
             (forall c, is_digit c = true -> p c = true) -> p 45%N = true ->
             forallb p s = true) as Hall.
  { intros p Hp H45. apply forallb_forall. intros c Hc.
    apply (proj1 (forallb_forall _ _) Hs) in Hc.
    apply orb_prop in Hc as [Hc|Hc]; [now apply Hp|].
    apply N.eqb_eq in Hc. now subst c. }
  unfold py_float, transform.
  rewrite (Hall (fun c => (c <? 128)%N));
    [|intros c Hc; apply (digit_plain c Hc)|reflexivity].
  unfold with_underscores.
  assert (existsb (N.eqb 95) s = false) as ->.
  { apply not_true_is_false. intros H. apply existsb_exists in H as (c & Hc & E).
    apply N.eqb_eq in E. subst c.
    apply (proj1 (forallb_forall _ _) Hs) in Hc. discriminate. }
  unfold float_from_string_inner.
  rewrite (strip_none is_c_space s);
    [|apply Hall; [intros c Hc; now rewrite (proj1 (proj2 (proj2 (proj2 (proj2 (digit_plain c Hc))))))|reflexivity]].
  assert (strtod s = Some (of_decimal neg (digits_val ds) 0 (Z.of_nat (List.length ds)), [])) as St.
  { unfold strtod.
    assert (parse_sign s = (neg, ds)) as ->.
    { subst s. destruct neg; [reflexivity|]. cbn [app].
      destruct ds as [|c r]; [contradiction|]. cbn [forallb] in Hd.
      apply andb_prop in Hd as [Hc _]. unfold parse_sign.
      destruct (digit_plain c Hc) as (-> & -> & _). reflexivity. }
    rewrite (span_digits_all ds Hd). cbn [parse_fraction parse_exponent].
    rewrite app_nil_r. destruct ds as [|c r]; [contradiction|].
    cbn [List.length]. rewrite Z.sub_0_l. reflexivity. }
  assert (s <> []) as Hs0.
  { subst s. destruct neg; [discriminate|]. exact Hne. }
  destruct s as [|c0 r0]; [contradiction|].
  unfold ascii_strtod. now rewrite St.
Qed.

Lemma of_decimal_integer (neg : bool) (n : N) nd :
  0 <= nd -> (neg = true -> n <> 0%N) ->
  of_decimal neg (Z.of_N n) 0 nd = of_Z (if neg then - Z.of_N n else Z.of_N n).
Proof.
  intros Hnd Hz. destruct n as [|p].
  - destruct neg; [now contradiction Hz|reflexivity].
  - cbn [Z.of_N of_decimal].
    replace (310 <? 0) with false by reflexivity.
    replace (0 + nd <? -330) with false by (symmetry; apply Z.ltb_ge; lia).
    cbn [Z.leb Z.compare Z.pow Z.pow_pos Pos.iter Z.mul Z.to_pos Pos.mul].
    rewrite Pos.mul_1_r. now destruct neg.
Qed.

(** [float(str(z))] is the float64 nearest to the integer [z]. *)
Lemma py_float_of_int z : py_float (str_of_int z) = Some (of_Z z).
Proof.
  assert (forall n, py_float (nat_digits n) = Some (of_Z (Z.of_N n))) as Hn.
  { intros n. change (nat_digits n) with ([] ++ nat_digits n) at 1.
    rewrite (py_float_digits false (nat_digits n)).
    - rewrite nat_digits_val. f_equal.
      apply (of_decimal_integer false n); [lia|discriminate].
    - apply nat_digits_nonempty.
    - apply uint_chars_digits. }
  destruct z as [|p|p]; cbn [str_of_int].
  - apply (Hn 0%N).
  - rewrite (Hn (Z.to_N (Zpos p))). reflexivity.
  - change (45%N :: nat_digits (N.pos p)) with ([45%N] ++ nat_digits (N.pos p)).
    rewrite (py_float_digits true (nat_digits (Npos p))).
    + rewrite nat_digits_val. f_equal.
      apply (of_decimal_integer true (Npos p)); [lia|discriminate].
    + apply nat_digits_nonempty.
    + apply uint_chars_digits.
Qed.

Lemma str_of_int_plain z :
  remove_dollar_comma (str_of_int z) = str_of_int z.
Proof.
  assert (forall n, remove_dollar_comma (nat_digits n) = nat_digits n) as Hn.
  { intros n. unfold remove_dollar_comma.
    apply forallb_filter_id. apply (forallb_digits _ (nat_digits n)).
    - intros c Hc.
      now rewrite (proj2 (proj2 (proj2 (proj2 (proj2 (digit_plain c Hc)))))).
    - apply uint_chars_digits. }
  destruct z as [|p|p]; unfold str_of_int; [apply Hn|apply Hn|].
  change (45%N :: nat_digits (N.pos p)) with ([45%N] ++ nat_digits (N.pos p)).
  rewrite remove_dollar_comma_app, Hn. reflexivity.
Qed.

Lemma clean_values_of_ints (zs : list Z) :
  mapM clean_value (map str_of_int zs) = Ok (map of_Z zs).
Proof.
  induction zs as [|z zs IH]; [reflexivity|]. cbn [map mapM].
  rewrite (clean_value_amount (str_of_int z) (of_Z z)).
  - rewrite IH. reflexivity.
  - rewrite str_of_int_plain. apply py_float_of_int.
Qed.

(** X11. A monetary column that the CSV reader typed as integers comes out
    of [clean_money_optimized] as a float64 column holding, row by row, the
    float64 nearest to each integer: the trip through text loses nothing. *)
Theorem integer_money_column_round_trip (zs : list Z) :
  clean_money_optimized (ColInt zs) = Ok (ColFloat (map of_Z zs)).
Proof.
  rewrite clean_money_by_value. cbn [astype_str].
  rewrite clean_values_of_ints. reflexivity.
Qed.

(** ** Rounding never gives NaN *)

Lemma shr_1_nonneg r : 0 <= shr_m r -> 0 <= shr_m (shr_1 r).
Proof.
  destruct r as [m r s]. cbn [shr_m]. intros H.
  destruct m as [|p|p]; [cbn; lia| |lia]. destruct p; cbn; lia.
Qed.

Lemma iter_shr_1_nonneg p : forall r,
  0 <= shr_m r -> 0 <= shr_m (iter_pos shr_1 p r).
Proof.
  induction p as [p IH|p IH|]; intros r H; cbn [iter_pos].
  - apply IH. apply IH. now apply shr_1_nonneg.
  - apply IH. now apply IH.
  - now apply shr_1_nonneg.
Qed.

Lemma shr_fexp_nonneg m e l :
  0 <= m -> 0 <= shr_m (fst (shr_fexp prec emax m e l)).
Proof.
  intros H. unfold shr_fexp, shr.
  assert (0 <= shr_m (shr_record_of_loc m l)) as H0.
  { destruct l as [|[| |]]; exact H. }
  destruct (fexp prec emax (Zdigits2 m + e) - e); cbn [fst]; try exact H0.
  now apply iter_shr_1_nonneg.
Qed.

Lemma round_nearest_even_nonneg m l : 0 <= m -> 0 <= round_nearest_even m l.
Proof.
  intros H. unfold round_nearest_even.
  destruct l as [|[| |]]; try lia. destruct (IntDef.Z.even m); lia.
Qed.

Lemma binary_round_aux_not_nan sx mx ex lx :
  0 <= mx -> is_nan (binary_round_aux prec emax sx mx ex lx) = false.
Proof.
  intros H. unfold binary_round_aux.
  pose proof (shr_fexp_nonneg mx ex lx H) as H1.
  destruct (shr_fexp prec emax mx ex lx) as [mrs' e']. cbn [fst] in H1.
  pose proof (shr_fexp_nonneg _ e' loc_Exact
                (round_nearest_even_nonneg _ (loc_of_shr_record mrs') H1)) as H2.
  destruct (shr_fexp prec emax _ e' loc_Exact) as [mrs'' e'']. cbn [fst] in H2.
  destruct (shr_m mrs'') as [|p|p]; [reflexivity| |lia].
  now destruct (e'' <=? emax - prec).
Qed.

(** The float64 of an integer is never NaN. *)
Lemma of_Z_not_nan z : is_nan (of_Z z) = false.
Proof.
  unfold of_Z, binary_normalize.
  destruct z as [|p|p]; [reflexivity| |]; unfold binary_round;
    destruct (shl_align p 0 _) as [mz ez]; apply binary_round_aux_not_nan; lia.
Qed.

Lemma fillna_of_ints v zs :
  fillna v (ColFloat (map of_Z zs)) = ColFloat (map of_Z zs).
Proof.
  cbn [fillna]. f_equal. rewrite map_map. apply map_ext.
  intros z. now rewrite of_Z_not_nan.
Qed.

(** X12.  A monetary column of integers is, in the loaded table, the float64
    column of those integers: neither the cleaning nor the filling of
    missing values changes a value. *)
Theorem integer_money_column_loads_exactly :
  forall floatify df df' shown c zs,
    load_data_optimized floatify (Ok df) = (shown, Some df') ->
    mem c monetary_columns = true ->
    lookup df c = Some (ColInt zs) ->
    lookup df' c = Some (ColFloat (map of_Z zs)).
Proof.
  intros floatify df df' shown c zs Hload Hc Hl. apply load_some in Hload.
  destruct (load_body_spec floatify df df' Hload) as (Hmoney & _ & _).
  destruct (Hmoney c Hc) as (x & ys & Hx & Hclean & ->).
  rewrite Hl in Hx. injection Hx as <-.
  rewrite clean_money_by_value in Hclean. cbn [astype_str] in Hclean.
  rewrite clean_values_of_ints in Hclean. injection Hclean as <-.
  now rewrite fillna_of_ints.
Qed.

Lemma integer_money_column_loads_exactly_witness :
  lookup (loaded sample_table_int) (u "Salud")
  = Some (ColFloat (map of_Z [100; 200; 300])).
Proof.
  apply (integer_money_column_loads_exactly py_float sample_table_int
           (loaded sample_table_int) [] (u "Salud") [100; 200; 300]);
    vm_compute; reflexivity.
Defined.

(** ** More on the filter *)

Lemma keep_map {A B} (f : A -> B) (mask : list bool) : forall xs,
  keep mask (map f xs) = map f (keep mask xs).
Proof.
  induction mask as [|b m IH]; intros [|x xs]; simpl; try reflexivity.
  destruct b; simpl; now rewrite IH.
Qed.

Lemma values_keep_rows mask c : values (keep_rows mask c) = keep mask (values c).
Proof. destruct c; simpl; now rewrite keep_map. Qed.

Lemma keep_and_left {A} (f : A -> bool) (xs : list A) : forall other,
  forallb f (keep (map (fun p => fst p && snd p) (combine (map f xs) other)) xs)
  = true.
Proof.
  induction xs as [|x xs IH]; intros [|o other]; simpl; try reflexivity.
  destruct (f x) eqn:F; simpl; [|apply IH].
  destruct o; simpl; [rewrite F|]; apply IH.
Qed.

Lemma keep_and_right {A} (g : A -> bool) (ys : list A) : forall other,
  forallb g (keep (map (fun p => fst p && snd p) (combine other (map g ys))) ys)
  = true.
Proof.
  induction ys as [|y ys IH]; intros [|o other]; simpl; try reflexivity.
  destruct o; simpl; [|apply IH].
  destruct (g y) eqn:G; simpl; [rewrite G|]; apply IH.
Qed.

Lemma forallb_id_map {A} (f : A -> bool) (l : list A) :
  forallb (fun b => b) (map f l) = forallb f l.
Proof. induction l as [|x l IH]; simpl; [reflexivity|]. now rewrite IH. Qed.

Lemma keep_length {A} (mask : list bool) : forall xs : list A,
  List.length xs = List.length mask ->
  List.length (keep mask xs) = count_true mask.
Proof.
  unfold count_true.
  induction mask as [|b m IH]; intros [|x xs] H; simpl in *; try discriminate;
    [reflexivity|].
  destruct b; simpl; rewrite IH; auto.
Qed.

Lemma keep_rows_length mask c :
  col_len c = List.length mask -> col_len (keep_rows mask c) = count_true mask.
Proof. destruct c; simpl; apply keep_length. Qed.

Lemma count_true_le mask : (count_true mask <= List.length mask)%nat.
Proof. apply filter_length_le. Qed.

Lemma select_labels df mask : map fst (select df mask) = map fst df.
Proof. unfold select. rewrite map_map. reflexivity. Qed.

Lemma select_well_formed df mask :
  well_formed (List.length mask) df = true ->
  well_formed (count_true mask) (select df mask) = true.
Proof.
  unfold well_formed, select.
  induction df as [|[name c] df IH]; simpl; [reflexivity|].
  intros H. apply andb_prop in H as [Hc H]. rewrite (IH H), andb_true_r.
  apply Nat.eqb_eq in Hc. apply Nat.eqb_eq. now apply keep_rows_length.
Qed.

Lemma combine_and_length (a b : list bool) :
  List.length (map (fun p => fst p && snd p) (combine a b))
  = Nat.min (List.length a) (List.length b).
Proof. now rewrite length_map, length_combine. Qed.

(** What [df_filtered] returns: the rows of a mask, both filter columns
    being there. *)
Lemma df_filtered_inv df dep niv view :
  df_filtered df dep niv = Ok view ->
  exists d n,
    lookup df DEPARTAMENTO = Some d /\ lookup df NIVEL = Some n
    /\ view = select df (map (fun p => fst p && snd p)
                             (combine (isin d dep) (isin n niv))).
Proof.
  unfold df_filtered, get_col.
  destruct (lookup df DEPARTAMENTO) as [d|]; [|discriminate].
  destruct (lookup df NIVEL) as [n|]; [|discriminate].
  cbn [bind]. intros [= <-]. eauto.
Qed.

Lemma filter_mask_length n df d k dep niv :
  well_formed n df = true ->
  lookup df DEPARTAMENTO = Some d -> lookup df NIVEL = Some k ->
  List.length (map (fun p => fst p && snd p) (combine (isin d dep) (isin k niv)))
  = n.
Proof.
  intros Hwf Hd Hk. rewrite combine_and_length, !isin_length.
  rewrite (well_formed_lookup n df _ d Hwf Hd), (well_formed_lookup n df _ k Hwf Hk).
  apply Nat.min_id.
Qed.

(** X13.  Every row of the filtered view has its department among the
    departments selected and its level among the levels selected. *)
Theorem filtered_rows_match_selection :
  forall df dep niv view,
    df_filtered df dep niv = Ok view ->
    exists d k,
      lookup view DEPARTAMENTO = Some d /\ lookup view NIVEL = Some k
      /\ forallb (fun v => scalar_in v dep) (values d) = true
      /\ forallb (fun v => scalar_in v niv) (values k) = true.
Proof.
  intros df dep niv view H.
  destruct (df_filtered_inv df dep niv view H) as (d & k & Hd & Hk & ->).
  exists (keep_rows (map (fun p => fst p && snd p)
                         (combine (isin d dep) (isin k niv))) d),
         (keep_rows (map (fun p => fst p && snd p)
                         (combine (isin d dep) (isin k niv))) k).
  rewrite !lookup_select, Hd, Hk, !values_keep_rows. unfold isin.
  split; [reflexivity|]. split; [reflexivity|]. split.
  - apply keep_and_left.
  - apply keep_and_right.
Qed.

Lemma filtered_rows_match_selection_witness :
  exists d k,
    lookup sample_view_A_L1 DEPARTAMENTO = Some d
    /\ lookup sample_view_A_L1 NIVEL = Some k
    /\ forallb (fun v => scalar_in v [SStr (u "A")]) (values d) = true
    /\ forallb (fun v => scalar_in v [SStr (u "L1")]) (values k) = true.
Proof.
  apply (filtered_rows_match_selection (loaded sample_table));
    vm_compute; reflexivity.
Defined.

(** X14.  Filtering is idempotent: the same selection applied to the
    filtered view gives the view back. *)
Theorem filter_is_idempotent :
  forall n df dep niv view,
    well_formed n df = true ->
    df_filtered df dep niv = Ok view ->
    df_filtered view dep niv = Ok view.
Proof.
  intros n df dep niv view Hwf H.
  destruct (df_filtered_inv df dep niv view H) as (d & k & Hd & Hk & ->).
  set (mask := map (fun p => fst p && snd p) (combine (isin d dep) (isin k niv))).
  assert (List.length mask = n) as Hlen
    by apply (filter_mask_length n df d k dep niv Hwf Hd Hk).
  assert (well_formed (count_true mask) (select df mask) = true) as Hwf'.
  { apply select_well_formed. now rewrite Hlen. }
  unfold df_filtered, get_col. rewrite !lookup_select, Hd, Hk. cbn [option_map bind].
  f_equal. apply (select_all (count_true mask)); [exact Hwf'| |].
  - apply combine_and_all; unfold isin; rewrite values_keep_rows, forallb_id_map.
    + apply keep_and_left.
    + apply keep_and_right.
  - rewrite combine_and_length, !isin_length, !keep_rows_length.
    + apply Nat.min_id.
    + rewrite Hlen. apply (well_formed_lookup n df _ k Hwf Hk).
    + rewrite Hlen. apply (well_formed_lookup n df _ d Hwf Hd).
Qed.

Lemma filter_is_idempotent_witness :
  df_filtered sample_view_A_L1 [SStr (u "A")] [SStr (u "L1")] = Ok sample_view_A_L1.
Proof.
  apply (filter_is_idempotent 3 (loaded sample_table));
    vm_compute; reflexivity.
Defined.

(** X15.  The filtered view is a table of the same labels in the same order
    whose columns all have as many rows as the mask keeps, never more than
    the table had. *)
Theorem filtered_view_keeps_shape :
  forall n df dep niv view,
    well_formed n df = true ->
    df_filtered df dep niv = Ok view ->
    map fst view = map fst df
    /\ exists m, (m <= n)%nat /\ well_formed m view = true.
Proof.
  intros n df dep niv view Hwf H.
  destruct (df_filtered_inv df dep niv view H) as (d & k & Hd & Hk & ->).
  set (mask := map (fun p => fst p && snd p) (combine (isin d dep) (isin k niv))).
  assert (List.length mask = n) as Hlen
    by apply (filter_mask_length n df d k dep niv Hwf Hd Hk).
  split; [apply select_labels|].
  exists (count_true mask). split.
  - rewrite <- Hlen. apply count_true_le.
  - apply select_well_formed. now rewrite Hlen.
Qed.

Lemma filtered_view_keeps_shape_witness :
  map fst sample_view_A_L1 = map fst (loaded sample_table)
  /\ exists m, (m <= 3)%nat /\ well_formed m sample_view_A_L1 = true.
Proof.
  apply (filtered_view_keeps_shape 3 (loaded sample_table)
           [SStr (u "A")] [SStr (u "L1")]);
    vm_compute; reflexivity.
Defined.

(** ** Grouping and sorting *)

Lemma SFltb_asym (x y : float64) : SFltb x y = true -> SFltb y x = false.
Proof.
  unfold SFltb.
  destruct x as [s|s| |s m e], y as [s'|s'| |s' m' e']; cbn [SFcompare];
    try discriminate; try reflexivity;
    try (destruct s; try destruct s'; (discriminate || reflexivity)).
  destruct s, s'; try discriminate; try reflexivity;
    rewrite (Z.compare_antisym e e');
    destruct (e ?= e'); cbn [CompOpp]; try discriminate; try reflexivity;
    change (Pos.compare_cont Eq m' m) with (Pos.compare m' m);
    change (Pos.compare_cont Eq m m') with (Pos.compare m m');
    rewrite (Pos.compare_antisym m m');
    destruct (Pos.compare m m'); cbn [CompOpp];
    discriminate || reflexivity.
Qed.

Lemma str_ltb_asym a : forall b, str_ltb a b = true -> str_ltb b a = false.
Proof.
  induction a as [|x a IH]; intros [|y b]; cbn [str_ltb]; try discriminate;
    try reflexivity.
  intros H. apply orb_false_iff.
  apply orb_prop in H as [H|H].
  - apply N.ltb_lt in H. split; [apply N.ltb_ge; lia|].
    apply andb_false_iff. left. apply N.eqb_neq. lia.
  - apply andb_prop in H as [E H]. apply N.eqb_eq in E. subst y.
    split; [apply N.ltb_irrefl|]. rewrite N.eqb_refl. now apply IH.
Qed.

Lemma scalar_ltb_asym a b : scalar_ltb a b = true -> scalar_ltb b a = false.
Proof.
  destruct a, b; cbn [scalar_ltb]; try discriminate; try reflexivity;
    try apply SFltb_asym; [|apply str_ltb_asym].
  intros H. apply Z.ltb_lt in H. apply Z.ltb_ge. lia.
Qed.

Section SortFacts.
Context {A : Type} (ltb : A -> A -> bool).
Hypothesis ltb_asym : forall a b, ltb a b = true -> ltb b a = false.

Lemma insert_ascending x l :
  ascending ltb l = true -> ascending ltb (insert ltb x l) = true.
Proof.
  induction l as [|y r IH]; [reflexivity|].
  intros H. cbn [insert]. destruct (ltb x y) eqn:E.
  - change (negb (ltb y x) && ascending ltb (y :: r) = true).
    now rewrite (ltb_asym x y E), H.
  - cbn [ascending] in H. apply andb_prop in H as [H1 H2].
    specialize (IH H2).
    change (match insert ltb x r with
            | b :: _ => negb (ltb b y)
            | [] => true
            end && ascending ltb (insert ltb x r) = true).
    rewrite IH, andb_true_r.
    destruct r as [|z r]; cbn [insert]; [now rewrite E|].
    destruct (ltb x z); [now rewrite E|exact H1].
Qed.

Lemma fold_insert_ascending l : forall acc,
  ascending ltb acc = true ->
  ascending ltb (fold_left (fun acc x => insert ltb x acc) l acc) = true.
Proof.
  induction l as [|x l IH]; intros acc H; cbn [fold_left]; [exact H|].
  apply IH. now apply insert_ascending.
Qed.

Lemma sort_ascending l : ascending ltb (sort ltb l) = true.
Proof. apply fold_insert_ascending. reflexivity. Qed.

End SortFacts.

Lemma insert_perm {A} (ltb : A -> A -> bool) x l :
  Permutation (insert ltb x l) (x :: l).
Proof.
  induction l as [|y r IH]; cbn [insert]; [apply Permutation_refl|].
  destruct (ltb x y); [apply Permutation_refl|].
  apply (perm_trans (perm_skip y IH)). apply perm_swap.
Qed.

Lemma fold_insert_perm {A} (ltb : A -> A -> bool) l : forall acc,
  Permutation (fold_left (fun acc x => insert ltb x acc) l acc) (l ++ acc).
Proof.
  induction l as [|x l IH]; intros acc; cbn [fold_left app];
    [apply Permutation_refl|].
  apply (perm_trans (IH (insert ltb x acc))).
  apply (perm_trans (Permutation_app_head l (insert_perm ltb x acc))).
  apply Permutation_sym, Permutation_middle.
Qed.

Lemma sort_perm {A} (ltb : A -> A -> bool) l : Permutation (sort ltb l) l.
Proof.
  unfold sort. apply (perm_trans (fold_insert_perm ltb l [])).
  rewrite app_nil_r. apply Permutation_refl.
Qed.

Lemma filter_split_perm {A} (f : A -> bool) l :
  Permutation (filter (fun x => negb (f x)) l ++ filter f l) l.
Proof.
  induction l as [|x l IH]; cbn [filter]; [apply Permutation_refl|].
  destruct (f x); cbn [negb app].
  - apply Permutation_sym, (perm_trans (perm_skip x (Permutation_sym IH))).
    apply Permutation_middle.
  - now apply perm_skip.
Qed.

Lemma sort_values_perm {K} (s : list (K * num)) : Permutation (sort_values s) s.
Proof.
  unfold sort_values.
  apply (perm_trans (Permutation_app_tail _ (sort_perm _ _))).
  apply (filter_split_perm (fun p => is_null (num_to_scalar (snd p)))).
Qed.

Lemma forallb_perm {A} (f : A -> bool) l l' :
  Permutation l l' -> forallb f l' = true -> forallb f l = true.
Proof.
  intros P H. apply forallb_forall. intros x Hx.
  apply (proj1 (forallb_forall _ _) H). now apply (Permutation_in x P).
Qed.

Lemma forallb_filter_self {A} (f : A -> bool) l : forallb f (filter f l) = true.
Proof.
  apply forallb_forall. intros x Hx. now apply filter_In in Hx.
Qed.

(** The keys of a grouped aggregation are the group keys, in order. *)
Lemma mapM_keys {K R} (f : K -> result R) (keys : list K) : forall g,
  mapM (fun key => r <- f key ;; Ok (key, r)) keys = Ok g -> map fst g = keys.
Proof.
  induction keys as [|k keys IH]; intros g H; cbn [mapM] in H.
  - now inversion H.
  - destruct (f k) as [r|]; cbn [bind] in H; [|discriminate].
    destruct (mapM _ keys) as [g'|] eqn:M; cbn [bind] in H; [|discriminate].
    inversion H; subst g. cbn [map fst]. now rewrite (IH g' eq_refl).
Qed.

Lemma groupby_agg_keys {R} (f : column -> result R) k v g :
  groupby_agg f k v = Ok g -> map fst g = group_keys k.
Proof. apply mapM_keys. Qed.

Lemma unique_from_in vs : forall seen v,
  In v (unique_from seen vs) -> In v seen \/ In v vs.
Proof.
  induction vs as [|w vs IH]; intros seen v H; cbn [unique_from] in H.
  - left. now apply in_rev.
  - destruct (scalar_in w seen).
    + destruct (IH seen v H); [now left|right; now right].
    + destruct (IH (w :: seen) v H) as [[->|Hs]|Hv].
      * right; now left.
      * now left.
      * right; now right.
Qed.

Lemma same_not_null v w :
  scalar_same v w = true -> is_null v = false -> is_null w = false.
Proof.
  destruct v as [z|x|s], w as [z'|y|s']; cbn [scalar_same is_null];
    try reflexivity; try discriminate.
  - intros H _. destruct y; try reflexivity.
    unfold F64.same, F64.eqb, SFeqb in H. rewrite of_Z_not_nan in H.
    destruct (of_Z z); discriminate.
  - intros H N. destruct y; try reflexivity.
    unfold F64.same, F64.eqb, SFeqb in H. rewrite N in H.
    destruct x; discriminate.
Qed.

(** The group keys are the values of the key column that are not NaN. *)
Lemma group_keys_spec k :
  (forall v, In v (values k) -> is_null v = false ->
             scalar_in v (group_keys k) = true)
  /\ (forall key, In key (group_keys k) ->
                  In key (values k) /\ is_null key = false).
Proof.
  unfold group_keys. split.
  - intros v Hv Hn.
    pose proof (unique_from_covers (values k) [] v (or_introl Hv)) as Hc.
    fold (unique k) in Hc. unfold scalar_in in *.
    apply existsb_exists in Hc as (w & Hw & Hs).
    apply existsb_exists. exists w. split; [|exact Hs].
    apply (Permutation_in w (Permutation_sym (sort_perm scalar_ltb _))).
    apply filter_In. split; [exact Hw|].
    now rewrite (same_not_null v w Hs Hn).
  - intros key Hk.
    apply (Permutation_in key (sort_perm scalar_ltb _)) in Hk.
    apply filter_In in Hk as [Hu Hn]. split.
    + destruct (unique_from_in (values k) [] key Hu) as [[]|H]; exact H.
    + now destruct (is_null key).
Qed.

Lemma dept_costs_inv view dc :
  dept_costs view = Ok dc ->
  exists k v g,
    lookup view DEPARTAMENTO = Some k /\ lookup view TOTAL_MENSUAL = Some v
    /\ groupby_agg series_sum k v = Ok g /\ dc = sort_values g.
Proof.
  unfold dept_costs, get_col.
  destruct (lookup view DEPARTAMENTO) as [k|]; [|discriminate].
  destruct (lookup view TOTAL_MENSUAL) as [v|]; [|discriminate].
  cbn [bind]. destruct (groupby_agg series_sum k v) as [g|] eqn:G;
    cbn [bind]; [|discriminate].
  intros [= <-]. exists k, v, g. auto.
Qed.

(** X16.  The bars of the cost chart come in ascending order of cost: no
    department is followed by one of smaller cost, and the departments
    whose cost is NaN come after all the others. *)
Theorem dept_costs_ascending :
  forall view dc,
    dept_costs view = Ok dc ->
    exists front back,
      dc = front ++ back
      /\ ascending by_value front = true
      /\ forallb (fun p => negb (null_value p)) front = true
      /\ forallb null_value back = true.
Proof.
  intros view dc H.
  destruct (dept_costs_inv view dc H) as (k & v & g & _ & _ & _ & ->).
  unfold sort_values.
  exists (sort by_value (filter (fun p => negb (null_value p)) g)),
         (filter null_value g).
  split; [reflexivity|]. split; [|split].
  - apply sort_ascending. intros a b. apply scalar_ltb_asym.
  - apply (forallb_perm _ _ _ (sort_perm _ _)).
    apply (forallb_filter_self (fun p : scalar * num => negb (null_value p))).
  - apply forallb_filter_self.
Qed.

Lemma dept_costs_ascending_witness :
  exists front back,
    sample_dept_costs = front ++ back
    /\ ascending by_value front = true
    /\ forallb (fun p => negb (null_value p)) front = true
    /\ forallb null_value back = true.
Proof.
  apply (dept_costs_ascending (loaded sample_table)); vm_compute; reflexivity.
Defined.

(** X17.  The cost chart shows one bar for each department of the view and
    no other: its bars are the sums of the groups, rearranged, and its keys
    are the group keys of the department column. *)
Theorem dept_costs_one_bar_per_department :
  forall view dc k,
    dept_costs view = Ok dc ->
    lookup view DEPARTAMENTO = Some k ->
    Permutation (map fst dc) (group_keys k)
    /\ exists v g, lookup view TOTAL_MENSUAL = Some v
                   /\ groupby_agg series_sum k v = Ok g /\ Permutation dc g.
Proof.
  intros view dc k H Hk.
  destruct (dept_costs_inv view dc H) as (k' & v & g & Hk' & Hv & Hg & ->).
  rewrite Hk in Hk'. injection Hk' as <-.
  split.
  - rewrite <- (groupby_agg_keys _ k v g Hg).
    apply Permutation_map, sort_values_perm.
  - exists v, g. split; [exact Hv|]. split; [exact Hg|apply sort_values_perm].
Qed.

Lemma dept_costs_one_bar_per_department_witness :
  Permutation (map fst sample_dept_costs) (group_keys (texts ["A"; "A"; "B"]%string))
  /\ exists v g, lookup (loaded sample_table) TOTAL_MENSUAL = Some v
                 /\ groupby_agg series_sum (texts ["A"; "A"; "B"]%string) v = Ok g
                 /\ Permutation sample_dept_costs g.
Proof.
  apply (dept_costs_one_bar_per_department (loaded sample_table));
    vm_compute; reflexivity.
Defined.

(** X18.  The chart of employees per level has one bar for every level that
    occurs in the view, in the order of the group keys; every key is a
    level of the view, and none is NaN. *)
Theorem nivel_cantidad_covers_levels :
  forall view nc k,
    nivel_cantidad view = Ok nc ->
    lookup view NIVEL = Some k ->
    map fst nc = group_keys k
    /\ (forall v, In v (values k) -> is_null v = false ->
                  scalar_in v (map fst nc) = true)
    /\ (forall key, In key (map fst nc) ->
                    In key (values k) /\ is_null key = false).
Proof.
  intros view nc k H Hk. unfold nivel_cantidad, get_col in H.
  rewrite Hk in H. destruct (lookup view CANTIDAD) as [q|]; [|discriminate].
  cbn [bind] in H. rewrite (groupby_agg_keys _ k q nc H).
  split; [reflexivity|apply group_keys_spec].
Qed.

Lemma nivel_cantidad_covers_levels_witness :
  map fst sample_nivel_cantidad = group_keys (texts ["L1"; "L2"; "L1"]%string)
  /\ (forall v, In v (values (texts ["L1"; "L2"; "L1"]%string)) ->
                is_null v = false ->
                scalar_in v (map fst sample_nivel_cantidad) = true)
  /\ (forall key, In key (map fst sample_nivel_cantidad) ->
                  In key (values (texts ["L1"; "L2"; "L1"]%string))
                  /\ is_null key = false).
Proof.
  apply (nivel_cantidad_covers_levels (loaded sample_table));
    vm_compute; reflexivity.
Defined.

(** ** The page on a loaded table *)

Lemma keep_rows_numeric mask c :
  is_numeric c = true -> is_numeric (keep_rows mask c) = true.
Proof. now destruct c. Qed.

Lemma series_sum_numeric c :
  is_numeric c = true -> exists s, series_sum c = Ok s.
Proof. destruct c; [cbn; eauto..|discriminate]. Qed.


Lemma mapM_total {A B} (f : A -> result B) (xs : list A) :
  (forall x, In x xs -> exists y, f x = Ok y) -> exists ys, mapM f xs = Ok ys.
Proof.
  induction xs as [|x xs IH]; intros H; cbn [mapM]; [eauto|].
  destruct (H x (or_introl eq_refl)) as [y ->].
  destruct IH as [ys ->]; [intros x' Hx'; apply H; now right|].
  cbn [bind]. eauto.
Qed.

Lemma groupby_sum_total k v :
  is_numeric v = true -> exists g, groupby_agg series_sum k v = Ok g.
Proof.
  intros Hv. apply mapM_total. intros key _.
  destruct (series_sum_numeric _ (keep_rows_numeric (group_mask k key) v Hv))
    as [s ->].
  cbn [bind]. eauto.
Qed.



Lemma get_cols_in df cols sub :
  get_cols df cols = Ok sub ->
  forall p, In p sub -> lookup df (fst p) = Some (snd p) /\ In (fst p) cols.
Proof.
  unfold get_cols. destruct (filter _ cols); [|discriminate].
  revert sub. induction cols as [|col cols IH]; intros sub H p Hp; cbn [mapM] in H.
  - inversion H; subst. destruct Hp.
  - unfold get_col at 1 in H. destruct (lookup df col) as [c|] eqn:L;
      cbn [bind] in H; [|discriminate].
    destruct (mapM _ cols) as [sub'|] eqn:M; cbn [bind] in H; [|discriminate].
    inversion H; subst sub. destruct Hp as [<-|Hp].
    + split; [exact L|now left].
    + destruct (IH sub' eq_refl p Hp) as [H1 H2]. split; [exact H1|now right].
Qed.



Lemma dashboard_loaded floatify df df' ui :
  load_body floatify (Ok df) = Ok df' ->
  dashboard floatify (Ok df) ui = page df' ui.
Proof.
  intros H. unfold dashboard. rewrite (load_success floatify _ _ H).
  unfold ubind. now destruct (page df' ui).
Qed.


Lemma load_keeps_filter_columns floatify df df' :
  load_body floatify (Ok df) = Ok df' ->
  lookup df' DEPARTAMENTO = lookup df DEPARTAMENTO
  /\ lookup df' NIVEL = lookup df NIVEL.
Proof.
  intros H. destruct (load_body_spec floatify df df' H) as (_ & _ & Hother).
  split; apply Hother; vm_compute; reflexivity.
Qed.



(** X20.  A table that loads but lacks a filter column stops the script at
    the sidebar: the run ends in the [KeyError] of that column, which
    nothing catches, before any chart, metric or table, and no error
    message is shown. *)
Theorem absent_filter_column_stops_page :
  forall floatify df df' shown ui,
    load_data_optimized floatify (Ok df) = (shown, Some df') ->
    lookup df DEPARTAMENTO = None \/ lookup df NIVEL = None ->
    exists out c,
      dashboard floatify (Ok df) ui = (out, Raise (KeyError [c]))
      /\ (c = DEPARTAMENTO \/ c = NIVEL)
      /\ lookup df c = None
      /\ existsb is_data_element out = false
      /\ existsb is_error out = false.
Proof.
  intros floatify df df' shown ui Hload Hmiss. apply load_some in Hload.
  destruct (load_keeps_filter_columns floatify df df' Hload) as [Ld Ln].
  rewrite (dashboard_loaded floatify df df' ui Hload).
  unfold page. cbv beta iota zeta delta [ubind emit lift]. unfold get_col.
  rewrite Ld. destruct (lookup df DEPARTAMENTO) as [d|] eqn:Hd.
  - destruct Hmiss as [Hm|Hm]; [discriminate|].
    cbv beta iota zeta delta [ubind emit lift]. rewrite Ln, Hm.
    eexists; exists NIVEL. split; [reflexivity|].
    split; [now right|]. split; [exact Hm|]. split; reflexivity.
  - eexists; exists DEPARTAMENTO. split; [reflexivity|].
    split; [now left|]. split; [exact Hd|]. split; reflexivity.
Qed.

Lemma absent_filter_column_stops_page_witness :
  exists out c,
    dashboard py_float (Ok sample_table_no_nivel) untouched
    = (out, Raise (KeyError [c]))
    /\ (c = DEPARTAMENTO \/ c = NIVEL)
    /\ lookup sample_table_no_nivel c = None
    /\ existsb is_data_element out = false
    /\ existsb is_error out = false.
Proof.
  apply (absent_filter_column_stops_page py_float sample_table_no_nivel
           (loaded sample_table_no_nivel) []);
    [vm_compute; reflexivity|right; vm_compute; reflexivity].
Defined.

(** ** Charts, metrics and the summary table agree *)

Lemma mapM_in {A B} (f : A -> result B) (xs : list A) : forall ys y,
  mapM f xs = Ok ys -> In y ys -> exists x, In x xs /\ f x = Ok y.
Proof.
  induction xs as [|x xs IH]; intros ys y H Hy; cbn [mapM] in H.
  - inversion H; subst. destruct Hy.
  - destruct (f x) as [b|] eqn:F; cbn [bind] in H; [|discriminate].
    destruct (mapM f xs) as [bs|] eqn:M; cbn [bind] in H; [|discriminate].
    inversion H; subst ys. destruct Hy as [<-|Hy].
    + exists x. split; [now left|exact F].
    + destruct (IH bs y eq_refl Hy) as (x' & Hx' & Fx').
      exists x'. split; [now right|exact Fx'].
Qed.

Lemma mapM_in_fwd {A B} (f : A -> result B) (xs : list A) : forall ys x,
  mapM f xs = Ok ys -> In x xs -> exists y, f x = Ok y /\ In y ys.
Proof.
  induction xs as [|a xs IH]; intros ys x H Hx; [destruct Hx|].
  cbn [mapM] in H.
  destruct (f a) as [b|] eqn:F; cbn [bind] in H; [|discriminate].
  destruct (mapM f xs) as [bs|] eqn:M; cbn [bind] in H; [|discriminate].
  inversion H; subst ys. destruct Hx as [<-|Hx].
  - exists b. split; [exact F|now left].
  - destruct (IH bs x eq_refl Hx) as (y & Fy & Hy).
    exists y. split; [exact Fy|now right].
Qed.

(** X21.  The summary table and the cost chart agree: every row of the
    table is a department of the chart, and its total monthly cost is the
    bar of that department, rounded to two decimals. *)
Theorem summary_table_agrees_with_cost_chart :
  forall view r dc key row,
    resumen_dept view = Ok r ->
    dept_costs view = Ok dc ->
    In (key, row) r ->
    exists cost, In (key, cost) dc
                 /\ Costo_Total_Mensual row = round2_num cost.
Proof.
  intros view r dc key row Hr Hdc Hin.
  destruct (dept_costs_inv view dc Hdc) as (k & t & g & Hk & Ht & Hg & ->).
  unfold resumen_dept, get_col in Hr. rewrite Hk, Ht in Hr.
  destruct (lookup view CANTIDAD) as [q|]; [|discriminate].
  destruct (lookup view SALARIO) as [s|]; [|discriminate].
  cbn [bind] in Hr.
  destruct (mapM_in _ _ r (key, row) Hr Hin) as (key' & Hkey & Hrow).
  destruct (series_sum (keep_rows (group_mask k key') q)) as [a|];
    cbn [bind] in Hrow; [|discriminate].
  destruct (series_mean (keep_rows (group_mask k key') s)) as [b|];
    cbn [bind] in Hrow; [|discriminate].
  destruct (series_sum (keep_rows (group_mask k key') t)) as [c|] eqn:Hc;
    cbn [bind] in Hrow; [|discriminate].
  injection Hrow as <- <-. cbn [Costo_Total_Mensual].
  unfold groupby_agg in Hg.
  destruct (mapM_in_fwd _ _ g key' Hg Hkey) as (y & Hy & Hyg).
  rewrite Hc in Hy. cbn [bind] in Hy. injection Hy as <-.
  exists c. split; [|reflexivity].
  apply (Permutation_in _ (Permutation_sym (sort_values_perm g)) Hyg).
Qed.

Lemma summary_table_agrees_with_cost_chart_witness :
  exists cost,
    In (SStr (u "A"), cost) sample_dept_costs
    /\ Costo_Total_Mensual
         {| Cantidad_de_Empleados := NInt 5;
            Salario_Promedio := of_ratio false 2469 4;
            Costo_Total_Mensual := NFloat (of_Z 3000) |}
       = round2_num cost.
Proof.
  apply (summary_table_agrees_with_cost_chart (loaded sample_table) sample_resumen
           sample_dept_costs (SStr (u "A"))
           {| Cantidad_de_Empleados := NInt 5;
              Salario_Promedio := of_ratio false 2469 4;
              Costo_Total_Mensual := NFloat (of_Z 3000) |});
    [vm_compute; reflexivity|vm_compute; reflexivity|].
  vm_compute. left. reflexivity.
Defined.

(** *** The bars of the level chart add up *)

Lemma wrap64_add_r a b : wrap64 (a + wrap64 b) = wrap64 (a + b).
Proof.
  unfold wrap64. f_equal.
  replace (a + ((b + 2 ^ 63) mod 2 ^ 64 - 2 ^ 63) + 2 ^ 63)
    with (a + (b + 2 ^ 63) mod 2 ^ 64) by lia.
  rewrite Z.add_mod_idemp_r by lia. f_equal. lia.
Qed.

Lemma fold_add_acc l : forall acc, fold_left Z.add l acc = acc + fold_left Z.add l 0.
Proof.
  induction l as [|x l IH]; intros acc; cbn [fold_left]; [lia|].
  rewrite (IH (acc + x)), (IH (0 + x)). lia.
Qed.

Lemma unique_from_nodup vs : forall seen,
  NoDup seen -> NoDup (unique_from seen vs).
Proof.
  induction vs as [|v vs IH]; intros seen H; cbn [unique_from].
  - now apply NoDup_rev.
  - destruct (scalar_in v seen) eqn:E; [now apply IH|].
    apply IH. constructor; [|exact H]. intros Hin.
    assert (scalar_in v seen = true) as E'; [|congruence].
    apply existsb_exists. exists v. split; [exact Hin|apply scalar_same_refl].
Qed.

Lemma group_keys_nodup k : NoDup (group_keys k).
Proof.
  unfold group_keys.
  apply (Permutation_NoDup (Permutation_sym (sort_perm scalar_ltb _))).
  apply NoDup_filter. apply unique_from_nodup. constructor.
Qed.

Lemma filter_nil {A} (f : A -> bool) (l : list A) :
  (forall x, In x l -> f x = false) -> filter f l = [].
Proof.
  induction l as [|x l IH]; intros H; cbn [filter]; [reflexivity|].
  rewrite (H x (or_introl eq_refl)). apply IH. intros y Hy. apply H. now right.
Qed.

(** A list without repetition holds a text it contains exactly once. *)
Lemma text_counted_once keys s :
  NoDup keys -> In (SStr s) keys ->
  List.length (filter (fun key => scalar_same key (SStr s)) keys) = 1%nat.
Proof.
  induction keys as [|key keys IH]; intros Hnd Hin; [destruct Hin|].
  inversion Hnd as [|? ? Hnot Hnd']; subst. cbn [filter].
  destruct Hin as [->|Hin].
  - rewrite scalar_same_refl. cbn [List.length]. f_equal.
    assert (filter (fun key => scalar_same key (SStr s)) keys = []) as ->;
      [|reflexivity].
    apply filter_nil.
    intros key Hkey. destruct key as [z|x|s']; try reflexivity.
    cbn [scalar_same]. destruct (PyStr.eqb s' s) eqn:E; [|reflexivity].
    apply eqb_eq in E. subst s'. contradiction.
  - destruct (scalar_same key (SStr s)) eqn:E; [|now apply IH].
    destruct key as [z|x|s']; try discriminate. cbn [scalar_same] in E.
    apply eqb_eq in E. subst s'. contradiction.
Qed.

Lemma sum_of_groups_row keys v vals q qs :
  sum_of_groups keys (v :: vals) (q :: qs)
  = q * Z.of_nat (List.length (filter (fun key => scalar_same key v) keys))
    + sum_of_groups keys vals qs.
Proof.
  induction keys as [|key keys IH]; cbn [sum_of_groups filter]; [cbn; lia|].
  rewrite IH. cbn [map keep].
  destruct (scalar_same key v); cbn [List.length fold_left].
  - rewrite (fold_add_acc _ (0 + q)). lia.
  - lia.
Qed.

Lemma sum_of_groups_nil keys qs : sum_of_groups keys [] qs = 0.
Proof. induction keys as [|key keys IH]; cbn [sum_of_groups map keep fold_left]; lia. Qed.

Lemma sum_of_groups_total keys : forall ss qs,
  NoDup keys -> (forall s, In s ss -> In (SStr s) keys) ->
  List.length ss = List.length qs ->
  sum_of_groups keys (map SStr ss) qs = fold_left Z.add qs 0.
Proof.
  intros ss. induction ss as [|s ss IH]; intros qs Hnd Hin Hlen.
  - destruct qs; [|discriminate]. apply sum_of_groups_nil.
  - destruct qs as [|q qs]; [discriminate|]. cbn [map].
    rewrite sum_of_groups_row, (text_counted_once keys s Hnd).
    + rewrite IH; [|exact Hnd|intros s' Hs'; apply Hin; now right|now inversion Hlen].
      cbn [fold_left]. rewrite (fold_add_acc qs (0 + q)). lia.
    + apply Hin. now left.
Qed.

Lemma bars_of_int_groups k qs : forall keys nc,
  mapM (fun key => r <- series_sum (keep_rows (group_mask k key) (ColInt qs)) ;;
                   Ok (key, r)) keys = Ok nc ->
  wrap64 (fold_left (fun acc p => match snd p with
                                  | NInt z => acc + z
                                  | NFloat _ => acc
                                  end) nc 0)
  = wrap64 (sum_of_groups keys (values k) qs).
Proof.
  intros keys. induction keys as [|key keys IH]; intros nc H; cbn [mapM] in H.
  - inversion H; subst. reflexivity.
  - cbn [keep_rows series_sum bind] in H.
    destruct (mapM _ keys) as [nc'|] eqn:M; cbn [bind] in H; [|discriminate].
    inversion H; subst nc. cbn [fold_left snd sum_of_groups].
    unfold group_mask.
    set (step := fun (acc : Z) (p : scalar * num) =>
                   match snd p with NInt z => acc + z | NFloat _ => acc end).
    assert (forall l acc, fold_left step l acc = acc + fold_left step l 0) as Hacc.
    { induction l as [|p l IHl]; intros acc; cbn [fold_left]; [lia|].
      rewrite (IHl (step acc p)), (IHl (step 0 p)). unfold step.
      destruct (snd p); lia. }
    rewrite Hacc. specialize (IH nc' eq_refl). fold step in IH.
    set (S := fold_left Z.add (keep (map (scalar_same key) (values k)) qs) 0).
    set (F := fold_left step nc' 0) in *.
    set (G := sum_of_groups keys (values k) qs) in *.
    replace (0 + wrap64 S + F) with (F + wrap64 S) by lia.
    rewrite wrap64_add_r, (Z.add_comm F S), <- (wrap64_add_r S F), IH.
    apply wrap64_add_r.
Qed.

(** X22.  When every row of the view has a text level and the quantities
    are integers, the bars of the chart of employees per level add up, in
    int64, to the 'Total Empleados' metric: no row is counted twice and
    none is left out. *)
Theorem level_bars_add_up_to_headcount :
  forall view ss qs,
    lookup view NIVEL = Some (ColObject (map Text ss)) ->
    lookup view CANTIDAD = Some (ColInt qs) ->
    List.length ss = List.length qs ->
    exists nc te,
      nivel_cantidad view = Ok nc
      /\ total_empleados view = Ok (NInt te)
      /\ bars_total nc = te.
Proof.
  intros view ss qs Hn Hq Hlen.
  destruct (groupby_sum_total (ColObject (map Text ss)) (ColInt qs) eq_refl)
    as [nc Hnc].
  exists nc, (wrap64 (fold_left Z.add qs 0)).
  unfold nivel_cantidad, total_empleados, get_col. rewrite Hn, Hq. cbn [bind].
  split; [exact Hnc|]. split; [reflexivity|].
  unfold bars_total. unfold groupby_agg in Hnc.
  rewrite (bars_of_int_groups _ qs _ nc Hnc). f_equal.
  assert (values (ColObject (map Text ss)) = map SStr ss) as ->.
  { cbn [values]. rewrite map_map. reflexivity. }
  apply sum_of_groups_total; [apply group_keys_nodup| |exact Hlen].
  intros s Hs.
  destruct (group_keys_spec (ColObject (map Text ss))) as [Hcov _].
  assert (In (SStr s) (values (ColObject (map Text ss)))) as Hv.
  { cbn [values]. rewrite map_map. apply in_map_iff. exists s. now split. }
  specialize (Hcov (SStr s) Hv eq_refl).
  apply existsb_exists in Hcov as (w & Hw & Hsame).
  destruct w as [z|x|s']; try discriminate. cbn [scalar_same] in Hsame.
  apply eqb_eq in Hsame. now subst s'.
Qed.

Lemma level_bars_add_up_to_headcount_witness :
  exists nc te,
    nivel_cantidad (loaded sample_table) = Ok nc
    /\ total_empleados (loaded sample_table) = Ok (NInt te)
    /\ bars_total nc = te.
Proof.
  apply (level_bars_add_up_to_headcount (loaded sample_table)
           [u "L1"; u "L2"; u "L1"] [2; 3; 1]);
    vm_compute; reflexivity.
Defined.

(** *** The pie *)

Lemma mapM_labelled {A} (f : pystr * A -> result float64) sub : forall comp,
  mapM (fun p => m <- f p ;; Ok (fst p, m)) sub = Ok comp ->
  map fst comp = map fst sub
  /\ forall c m, In (c, m) comp -> exists p, In p sub /\ fst p = c /\ f p = Ok m.
Proof.
  induction sub as [|p sub IH]; intros comp H; cbn [mapM] in H.
  - inversion H; subst. split; [reflexivity|intros c m []].
  - destruct (f p) as [m0|] eqn:F; cbn [bind] in H; [|discriminate].
    destruct (mapM _ sub) as [comp'|] eqn:M; cbn [bind] in H; [|discriminate].
    inversion H; subst comp. destruct (IH comp' eq_refl) as [Hk Hv].
    split; [cbn [map fst]; now rewrite Hk|].
    intros c m [E|Hin].
    + injection E as <- <-. exists p. split; [now left|]. split; [reflexivity|exact F].
    + destruct (Hv c m Hin) as (p' & Hp' & Hc & Hm).
      exists p'. split; [now right|]. split; assumption.
Qed.

(** X23.  The pie has one slice for each of the six salary components, in
    the order of the list, and each slice is the mean of that column over
    the rows of the view. *)
Theorem pie_slices_are_component_means :
  forall view comp,
    df_componentes view = Ok comp ->
    map fst comp = componentes
    /\ forall c m, In (c, m) comp ->
                   exists col, lookup view c = Some col /\ series_mean col = Ok m.
Proof.
  intros view comp H. unfold df_componentes in H.
  destruct (get_cols view componentes) as [sub|] eqn:G; cbn [bind] in H;
    [|discriminate].
  destruct (mapM_labelled (fun p => series_mean (snd p)) sub comp H) as [Hk Hv].
  destruct (get_cols_ok _ _ _ G) as [Hkeys _].
  split; [now rewrite Hk|].
  intros c m Hin. destruct (Hv c m Hin) as (p & Hp & Hc & Hm).
  destruct (get_cols_in _ _ _ G p Hp) as [Hl _].
  exists (snd p). split; [now rewrite <- Hc|exact Hm].
Qed.

Lemma pie_slices_are_component_means_witness :
  map fst sample_componentes = componentes
  /\ forall c m, In (c, m) sample_componentes ->
                 exists col, lookup (loaded sample_table) c = Some col
                             /\ series_mean col = Ok m.
Proof.
  apply (pie_slices_are_component_means (loaded sample_table)).
  vm_compute; reflexivity.
Defined.
